(** * Bid reconciliation and record service: a model of the server routes

    The development embeds [server/src/routes/bids.ts] and
    [server/src/routes/import.ts] and states the properties of the design
    document over that embedding.

    Layout: [JS] holds the part of the ECMAScript runtime the routes lean on
    (strings, numbers, dates, loosely typed values); [Store] is the Prisma
    client as the routes call it; [Importer] and [Bids] are the two route
    files; [Editor] holds the helpers of the client's bid editor. *)

From Stdlib Require Import ZArith List String Ascii Bool Lia.
From Stdlib Require Import Floats.SpecFloat.
Import ListNotations.

Set Warnings "-register-all".

Open Scope string_scope.
Open Scope Z_scope.

(* ===================================================================== *)
(** * The ECMAScript runtime used by the routes *)
(* ===================================================================== *)

Module JS.

(** ** Strings

    A string is a sequence of code units; the model carries the code units
    below 256.  White space is the ECMAScript WhiteSpace and LineTerminator
    set restricted to that range. *)

Definition code (c : ascii) : Z := Z.of_N (N_of_ascii c).

Definition chr (z : Z) : ascii := ascii_of_N (Z.to_N z).

Definition isWhiteSpace (c : ascii) : bool :=
  let n := code c in
  ((9 <=? n) && (n <=? 13)) || (n =? 32) || (n =? 160).

Definition isDigit (c : ascii) : bool :=
  let n := code c in (48 <=? n) && (n <=? 57).

Definition digitValue (c : ascii) : Z := code c - 48.

Definition chars (s : string) : list ascii := list_ascii_of_string s.

Definition str (l : list ascii) : string := string_of_list_ascii l.

Fixpoint dropWhile {A} (p : A -> bool) (l : list A) : list A :=
  match l with
  | [] => []
  | x :: r => if p x then dropWhile p r else l
  end.

Fixpoint takeWhile {A} (p : A -> bool) (l : list A) : list A :=
  match l with
  | [] => []
  | x :: r => if p x then x :: takeWhile p r else []
  end.

Definition trimChars (l : list ascii) : list ascii :=
  rev (dropWhile isWhiteSpace (rev (dropWhile isWhiteSpace l))).

(** [String.prototype.trim]. *)
Definition trim (s : string) : string := str (trimChars (chars s)).

Definition lowerChar (c : ascii) : ascii :=
  let n := code c in
  if ((65 <=? n) && (n <=? 90))
     || ((192 <=? n) && (n <=? 222) && negb (n =? 215))
  then chr (n + 32) else c.

(** [String.prototype.toLowerCase]. *)
Definition toLowerCase (s : string) : string := str (map lowerChar (chars s)).

(** [String.prototype.toUpperCase] on the code units whose upper case is one
    code unit of the modelled range; the routes apply it to the first letter
    of pending, won and lost only. *)
Definition upperChar (c : ascii) : ascii :=
  let n := code c in
  if ((97 <=? n) && (n <=? 122))
     || ((224 <=? n) && (n <=? 254) && negb (n =? 247))
  then chr (n - 32) else c.

Definition toUpperCase (s : string) : string := str (map upperChar (chars s)).

(** A string is truthy when it is not empty. *)
Definition nonEmpty (s : string) : bool :=
  match s with EmptyString => false | _ => true end.

Definition dquote : string := String "034"%char EmptyString.

Fixpoint repeatStr (n : nat) (s : string) : string :=
  match n with O => EmptyString | S k => s ++ repeatStr k s end.

Fixpoint join (sep : string) (l : list string) : string :=
  match l with
  | [] => EmptyString
  | [x] => x
  | x :: r => x ++ sep ++ join sep r
  end.

(** ** Numbers: IEEE 754 binary64 *)

Definition number := spec_float.

Definition prec : Z := 53.
Definition emax : Z := 1024.

Definition NaN : number := S754_nan.
Definition posZero : number := S754_zero false.

Definition isNaN (n : number) : bool :=
  match n with S754_nan => true | _ => false end.

(** The global [isFinite] on a number. *)
Definition isFinite (n : number) : bool :=
  match n with
  | S754_zero _ | S754_finite _ _ _ => true
  | S754_infinity _ | S754_nan => false
  end.

Definition isNegative (n : number) : bool := SFltb n posZero.

(** ToBoolean on a number: zero of either sign and NaN are falsy. *)
Definition numTruthy (n : number) : bool :=
  match n with
  | S754_zero _ | S754_nan => false
  | _ => true
  end.

(** The number nearest to [(-1)^neg * m * 10^e], ties to even. *)
Definition ofDecimal (neg : bool) (m : Z) (e : Z) : number :=
  match m with
  | Zpos p =>
      if 0 <=? e
      then match Zpos p * 10 ^ e with
           | Zpos q => binary_round prec emax neg q 0
           | _ => S754_zero neg
           end
      else let '(mz, ez, lz) :=
             SFdiv_core_binary prec emax (Zpos p) 0 (10 ^ (- e)) 0 in
           binary_round_aux prec emax neg mz ez lz
  | _ => S754_zero neg
  end.

Definition ofZ (z : Z) : number :=
  ofDecimal (z <? 0) (Z.abs z) 0.

(** The integer part of a finite number (ToIntegerOrInfinity). *)
Definition truncate (n : number) : option Z :=
  match n with
  | S754_zero _ => Some 0
  | S754_finite s m e =>
      let a := if 0 <=? e then Zpos m * 2 ^ e else Zpos m / 2 ^ (- e) in
      Some (if s then - a else a)
  | _ => None
  end.

(** [Number.isInteger], giving the integer. *)
Definition asInteger (n : number) : option Z :=
  match n with
  | S754_zero _ => Some 0
  | S754_finite s m e =>
      if 0 <=? e then Some ((if s then -1 else 1) * (Zpos m * 2 ^ e))
      else if Zpos m mod 2 ^ (- e) =? 0
           then Some ((if s then -1 else 1) * (Zpos m / 2 ^ (- e)))
           else None
  | _ => None
  end.

(** *** Decimal text of integers *)

Fixpoint digitsFuel (fuel : nat) (n : Z) (acc : list ascii) : list ascii :=
  match fuel with
  | O => acc
  | S k =>
      let acc' := chr (48 + n mod 10) :: acc in
      if n <? 10 then acc' else digitsFuel k (n / 10) acc'
  end.

(** The decimal digits of a non-negative integer. *)
Definition digitsOf (n : Z) : list ascii :=
  digitsFuel (S (Z.to_nat (Z.log2 n))) n [].

Definition valueOfDigits (base : Z) (digit : ascii -> Z) (l : list ascii) : Z :=
  fold_left (fun acc c => acc * base + digit c) l 0.

(** *** Number::toString

    The digits are the shortest decimal [s] (with [k] digits) such that
    [s * 10^(n-k)] reads back as the number, the closest one when several
    do; seventeen digits always suffice for binary64. *)

Definition closer (num den c1 c2 scale_num scale_den : Z) : bool :=
  (* is c1*scale closer to num/den than c2*scale (ties: the even digit string) *)
  let d1 := Z.abs (c1 * scale_num * den - num * scale_den) in
  let d2 := Z.abs (c2 * scale_num * den - num * scale_den) in
  (d1 <? d2) || ((d1 =? d2) && Z.even c1).

Fixpoint shortest (fuel : nat) (k : Z) (x : number) (num den n : Z)
  : Z * Z :=
  (* [num/den] is the value of [x], [10^(n-1) <= num/den < 10^n] *)
  let e := n - k in
  let sn := if 0 <=? e then 10 ^ e else 1 in
  let sd := if 0 <=? e then 1 else 10 ^ (- e) in
  let lo := (num * sd) / (den * sn) in
  let hi := lo + 1 in
  let okLo := SFeqb (ofDecimal false lo e) x in
  let okHi := SFeqb (ofDecimal false hi e) x in
  let pick :=
    if okLo && okHi then Some (if closer num den lo hi sn sd then lo else hi)
    else if okLo then Some lo
    else if okHi then Some hi
    else None in
  match pick, fuel with
  | Some s, _ => (s, k)
  | None, O => (lo, k)
  | None, S f => shortest f (k + 1) x num den n
  end.

Definition decimalExponent (num den : Z) : Z :=
  let a := Z.of_nat (List.length (digitsOf num)) in
  let b := Z.of_nat (List.length (digitsOf den)) in
  let n := a - b in
  (* 10^(n-1) < num/den < 10^(n+1) *)
  let ge := if 0 <=? n then den * 10 ^ n <=? num else den <=? num * 10 ^ (- n) in
  if ge then n + 1 else n.

Definition positiveToString (x : number) (m : positive) (e : Z) : string :=
  let num := if 0 <=? e then Zpos m * 2 ^ e else Zpos m in
  let den := if 0 <=? e then 1 else 2 ^ (- e) in
  let n0 := decimalExponent num den in
  let '(s0, k0) := shortest 17 1 x num den n0 in
  (* a candidate that rounded up to a power of ten has one digit more *)
  let '(s, n) := if s0 =? 10 ^ k0 then (s0 / 10, n0 + 1) else (s0, n0) in
  let k := k0 in
  let ds := digitsOf s in
  let kn := Z.to_nat k in
  if (k <=? n) && (n <=? 21) then
    str ds ++ repeatStr (Z.to_nat (n - k)) "0"
  else if (0 <? n) && (n <=? 21) then
    str (firstn (Z.to_nat n) ds) ++ "." ++ str (skipn (Z.to_nat n) ds)
  else if (-6 <? n) && (n <=? 0) then
    "0." ++ repeatStr (Z.to_nat (- n)) "0" ++ str ds
  else
    let ex := n - 1 in
    let sign := if ex <? 0 then "-" else "+" in
    let mant := if (kn <=? 1)%nat then str ds
                else str (firstn 1 ds) ++ "." ++ str (skipn 1 ds) in
    mant ++ "e" ++ sign ++ str (digitsOf (Z.abs ex)).

Definition numberToString (x : number) : string :=
  match x with
  | S754_nan => "NaN"
  | S754_zero _ => "0"
  | S754_infinity false => "Infinity"
  | S754_infinity true => "-Infinity"
  | S754_finite false m e => positiveToString x m e
  | S754_finite true m e =>
      "-" ++ positiveToString (S754_finite false m e) m e
  end.

(** *** StringToNumber (the [Number] function on a string) *)

Definition isHexDigit (c : ascii) : bool :=
  let n := code c in
  isDigit c || ((65 <=? n) && (n <=? 70)) || ((97 <=? n) && (n <=? 102)).

Definition hexValue (c : ascii) : Z :=
  let n := code c in
  if isDigit c then n - 48 else if n <=? 70 then n - 55 else n - 87.

Definition isOctDigit (c : ascii) : bool :=
  let n := code c in (48 <=? n) && (n <=? 55).

Definition isBinDigit (c : ascii) : bool :=
  let n := code c in (48 <=? n) && (n <=? 49).

Definition allDigits (p : ascii -> bool) (l : list ascii) : bool :=
  match l with [] => false | _ => forallb p l end.

(** An optional exponent part: [e] or [E], an optional sign, digits. *)
Definition exponentPart (l : list ascii) : option Z :=
  match l with
  | [] => Some 0
  | c :: r =>
      if (code c =? 101) || (code c =? 69) then
        match r with
        | s :: ds =>
            if code s =? 45 then
              if allDigits isDigit ds
              then Some (- valueOfDigits 10 digitValue ds) else None
            else if code s =? 43 then
              if allDigits isDigit ds
              then Some (valueOfDigits 10 digitValue ds) else None
            else if allDigits isDigit r
              then Some (valueOfDigits 10 digitValue r) else None
        | [] => None
        end
      else None
  end.

(** StrUnsignedDecimalLiteral, Infinity apart. *)
Definition unsignedDecimal (neg : bool) (l : list ascii) : number :=
  let ip := takeWhile isDigit l in
  let r1 := dropWhile isDigit l in
  let '(fp, r2) :=
    match r1 with
    | c :: r =>
        if code c =? 46 then (takeWhile isDigit r, dropWhile isDigit r)
        else ([], r1)
    | [] => ([], r1)
    end in
  match (ip ++ fp)%list with
  | [] => NaN
  | ds =>
      match exponentPart r2 with
      | Some ex =>
          ofDecimal neg (valueOfDigits 10 digitValue ds)
                    (ex - Z.of_nat (List.length fp))
      | None => NaN
      end
  end.

Definition signedDecimal (l : list ascii) : number :=
  let '(neg, body) :=
    match l with
    | c :: r =>
        if code c =? 45 then (true, r)
        else if code c =? 43 then (false, r)
        else (false, l)
    | [] => (false, l)
    end in
  if String.eqb (str body) "Infinity" then S754_infinity neg
  else unsignedDecimal neg body.

Definition radixLiteral (l : list ascii) : option number :=
  match l with
  | z :: x :: ds =>
      if code z =? 48 then
        if (code x =? 120) || (code x =? 88) then
          Some (if allDigits isHexDigit ds
                then ofZ (valueOfDigits 16 hexValue ds) else NaN)
        else if (code x =? 111) || (code x =? 79) then
          Some (if allDigits isOctDigit ds
                then ofZ (valueOfDigits 8 digitValue ds) else NaN)
        else if (code x =? 98) || (code x =? 66) then
          Some (if allDigits isBinDigit ds
                then ofZ (valueOfDigits 2 digitValue ds) else NaN)
        else None
      else None
  | _ => None
  end.

Definition stringToNumber (s : string) : number :=
  match trimChars (chars s) with
  | [] => posZero
  | l =>
      match radixLiteral l with
      | Some n => n
      | None => signedDecimal l
      end
  end.

(** [parseInt(s, 10)]: leading white space, a sign, then the longest run of
    decimal digits; NaN when there is none. *)
Definition parseInt10 (s : string) : number :=
  let l := dropWhile isWhiteSpace (chars s) in
  let '(neg, body) :=
    match l with
    | c :: r =>
        if code c =? 45 then (true, r)
        else if code c =? 43 then (false, r)
        else (false, l)
    | [] => (false, l)
    end in
  match takeWhile isDigit body with
  | [] => NaN
  | ds => ofDecimal neg (valueOfDigits 10 digitValue ds) 0
  end.

(** ** Loosely typed values

    What a request body, a decoded row or an [any]-typed field can hold:
    the JSON values, [undefined], and a function object (the only one that
    reaches the routes is an inherited member of [Object.prototype]). *)

Inductive value : Type :=
| VUndefined
| VNull
| VBool (b : bool)
| VNum (n : number)
| VStr (s : string)
| VArr (items : list value)
| VObj (fields : list (string * value))
| VFun (name : string).

(** [a ?? b]. *)
Definition nullish (v d : value) : value :=
  match v with
  | VUndefined | VNull => d
  | _ => v
  end.

(** [v == null]: the two values a property cannot be read from. *)
Definition isNullish (v : value) : bool :=
  match v with
  | VUndefined | VNull => true
  | _ => false
  end.

(** ToBoolean. *)
Definition truthy (v : value) : bool :=
  match v with
  | VUndefined | VNull => false
  | VBool b => b
  | VNum n => numTruthy n
  | VStr s => nonEmpty s
  | VArr _ | VObj _ | VFun _ => true
  end.

Definition isArray (v : value) : bool :=
  match v with VArr _ => true | _ => false end.

Fixpoint assoc {A} (k : string) (l : list (string * A)) : option A :=
  match l with
  | [] => None
  | (k', a) :: r => if String.eqb k k' then Some a else assoc k r
  end.

(** Errors a route can see thrown; [message] is the text [e.message]
    carries (for the client library's errors a short stand-in). *)
Inductive Error : Type :=
| TypeError (message : string)
| RangeError (message : string)
| PlainError (message : string)
| ValidationError (message : string)
| KnownRequestError (code : string) (message : string).

Definition message (e : Error) : string :=
  match e with
  | TypeError m | RangeError m | PlainError m | ValidationError m => m
  | KnownRequestError _ m => m
  end.

Inductive Outcome (A : Type) : Type :=
| Ret (a : A)
| Throw (e : Error).

Arguments Ret {A} a.
Arguments Throw {A} e.

(** Sequencing of computations that may throw. *)
Definition andThen {A B} (o : Outcome A) (k : A -> Outcome B) : Outcome B :=
  match o with
  | Ret a => k a
  | Throw e => Throw e
  end.

Declare Scope store_scope.
Delimit Scope store_scope with store.

Notation "x <~ o ;; k" := (andThen o (fun x => k))
  (at level 61, o at next level, right associativity) : store_scope.

Local Open Scope store_scope.

(** The results in order, or the first error. *)
Fixpoint collect {A} (l : list (Outcome A)) : Outcome (list A) :=
  match l with
  | [] => Ret []
  | o :: r => a <~ o ;; rest <~ collect r ;; Ret (a :: rest)
  end.

(** The result, or a default where the computation throws. *)
Definition orElse {A} (o : Outcome A) (d : A) : A :=
  match o with
  | Ret a => a
  | Throw _ => d
  end.

Definition throws {A} (o : Outcome A) : bool :=
  match o with
  | Ret _ => false
  | Throw _ => true
  end.

(** ** Conversions

    A value that is not an object converts as it is; an object is first
    converted to a primitive through its [toString] and [valueOf] methods
    (ToPrimitive), which throws a TypeError when neither is a function
    that answers a primitive. *)

Inductive primitive : Type :=
| PUndefined
| PNull
| PBool (b : bool)
| PNum (n : number)
| PStr (s : string).

Definition primitiveOf (v : value) : option primitive :=
  match v with
  | VUndefined => Some PUndefined
  | VNull => Some PNull
  | VBool b => Some (PBool b)
  | VNum n => Some (PNum n)
  | VStr s => Some (PStr s)
  | VArr _ | VObj _ | VFun _ => None
  end.

(** ToString on a primitive. *)
Definition stringOf (p : primitive) : string :=
  match p with
  | PUndefined => "undefined"
  | PNull => "null"
  | PBool true => "true"
  | PBool false => "false"
  | PNum n => numberToString n
  | PStr s => s
  end.

(** ToNumber on a primitive. *)
Definition numberOf (p : primitive) : number :=
  match p with
  | PUndefined => NaN
  | PNull => posZero
  | PBool true => ofZ 1
  | PBool false => posZero
  | PNum n => n
  | PStr s => stringToNumber s
  end.

(** [o[name]] for [name] one of [toString] and [valueOf], on a plain object
    with the own properties [own]: the own property, else the member of
    [Object.prototype]. *)
Definition method (own : list (string * value)) (name : string) : value :=
  match assoc name own with
  | Some v => v
  | None => VFun name
  end.

(** [f.call(o)] without arguments, for a function [f] of [Object.prototype]
    (or [Object] itself) other than [toLocaleString], and a plain object [o]
    with the own properties [own]. *)
Definition callBasic (f : string) (own : list (string * value)) : Outcome value :=
  if String.eqb f "toString" then Ret (VStr "[object Object]")
  else if String.eqb f "valueOf" then Ret (VObj own)
  else if String.eqb f "Object" then Ret (VObj [])
  else if String.eqb f "hasOwnProperty" || String.eqb f "propertyIsEnumerable"
  then Ret (VBool match assoc "undefined" own with
                  | Some _ => true
                  | None => false
                  end)
  else if String.eqb f "isPrototypeOf" then Ret (VBool false)
  else if String.eqb f "__defineGetter__" || String.eqb f "__defineSetter__"
  then Throw (TypeError "Expecting function")
  else Ret VUndefined.

(** [toLocaleString] calls the object's [toString]. *)
Definition call (f : string) (own : list (string * value)) : Outcome value :=
  if String.eqb f "toLocaleString" then
    match method own "toString" with
    | VFun g =>
        if String.eqb g "toLocaleString"
        then Throw (RangeError "Maximum call stack size exceeded")
        else callBasic g own
    | _ => Throw (TypeError "this.toString is not a function")
    end
  else callBasic f own.

(** One step of OrdinaryToPrimitive: the method, if it is a function, is
    called, and its answer counts if it is a primitive. *)
Definition tryMethod (own : list (string * value)) (name : string)
  : Outcome (option primitive) :=
  match method own name with
  | VFun f => r <~ call f own ;; Ret (primitiveOf r)
  | _ => Ret None
  end.

Inductive Hint : Type := HintString | HintNumber.

Definition ordinaryToPrimitive (hint : Hint) (own : list (string * value))
  : Outcome primitive :=
  let '(first, second) :=
    match hint with
    | HintString => ("toString", "valueOf")
    | HintNumber => ("valueOf", "toString")
    end in
  r1 <~ tryMethod own first ;;
  match r1 with
  | Some p => Ret p
  | None =>
      r2 <~ tryMethod own second ;;
      match r2 with
      | Some p => Ret p
      | None => Throw (TypeError "Cannot convert object to primitive value")
      end
  end.

(** ToPrimitive.  An array answers the join of its elements with a comma, an
    [undefined] or [null] element contributing nothing; a function answers
    its source text. *)
Fixpoint toPrimitive (hint : Hint) (v : value) : Outcome primitive :=
  match v with
  | VUndefined => Ret PUndefined
  | VNull => Ret PNull
  | VBool b => Ret (PBool b)
  | VNum n => Ret (PNum n)
  | VStr s => Ret (PStr s)
  | VArr items =>
      strs <~ collect
                (map (fun x => match x with
                               | VUndefined | VNull => Ret EmptyString
                               | _ => p <~ toPrimitive HintString x ;;
                                      Ret (stringOf p)
                               end) items) ;;
      Ret (PStr (join "," strs))
  | VObj own => ordinaryToPrimitive hint own
  | VFun name => Ret (PStr ("function " ++ name ++ "() { [native code] }"))
  end.

(** [String(v)]. *)
Definition toString (v : value) : Outcome string :=
  p <~ toPrimitive HintString v ;; Ret (stringOf p).

(** [Number(v)]. *)
Definition toNumber (v : value) : Outcome number :=
  p <~ toPrimitive HintNumber v ;; Ret (numberOf p).

(** [v.k] for the property names the routes read (none of them is inherited
    from a prototype, a function's [name] apart): reading from [undefined]
    or [null] throws. *)
Definition getProp (v : value) (k : string) : Outcome value :=
  match v with
  | VUndefined => Throw (TypeError "Cannot read properties of undefined")
  | VNull => Throw (TypeError "Cannot read properties of null")
  | VObj fields =>
      Ret (match assoc k fields with Some x => x | None => VUndefined end)
  | VFun name => Ret (if String.eqb k "name" then VStr name else VUndefined)
  | _ => Ret VUndefined
  end.

(** ** Property lookup on an object literal

    [obj[k]] finds an own property first and then a member of
    [Object.prototype]: the constructor and the other inherited functions,
    and the prototype itself under [__proto__]. *)

Definition objectPrototypeFunctions : list string :=
  ["hasOwnProperty"; "isPrototypeOf"; "propertyIsEnumerable";
   "toLocaleString"; "toString"; "valueOf";
   "__defineGetter__"; "__defineSetter__";
   "__lookupGetter__"; "__lookupSetter__"].

Definition objectPrototype (k : string) : option value :=
  if String.eqb k "constructor" then Some (VFun "Object")
  else if String.eqb k "__proto__" then Some (VObj [])
  else if existsb (String.eqb k) objectPrototypeFunctions then Some (VFun k)
  else None.

Definition lookup (own : list (string * value)) (k : string) : value :=
  match assoc k own with
  | Some v => v
  | None =>
      match objectPrototype k with
      | Some v => v
      | None => VUndefined
      end
  end.

(** [v === s] for a string [s]. *)
Definition strictEqStr (v : value) (s : string) : bool :=
  match v with VStr x => String.eqb x s | _ => false end.

(** ** Dates

    A Date is its time value: milliseconds since the epoch, or NaN. *)

Inductive Date : Type :=
| InvalidDate
| DateAt (t : Z).

Definition dateValid (d : Date) : bool :=
  match d with InvalidDate => false | DateAt _ => true end.

Definition msPerDay : Z := 86400000.

Definition dayFromYear (y : Z) : Z :=
  365 * (y - 1970) + (y - 1969) / 4 - (y - 1901) / 100 + (y - 1601) / 400.

Definition inLeapYear (y : Z) : bool :=
  ((y mod 4 =? 0) && negb (y mod 100 =? 0)) || (y mod 400 =? 0).

Definition daysInMonth (y m : Z) : Z :=
  (* m is 0-based *)
  if m =? 1 then (if inLeapYear y then 29 else 28)
  else if (m =? 3) || (m =? 5) || (m =? 8) || (m =? 10) then 30
  else 31.

Fixpoint daysBeforeMonth (y : Z) (m : nat) : Z :=
  match m with
  | O => 0
  | S k => daysBeforeMonth y k + daysInMonth y (Z.of_nat k)
  end.

(** MakeDay on integers: months beyond the year and days beyond the month
    carry over. *)
Definition makeDay (year month date : Z) : Z :=
  let ym := year + month / 12 in
  let mn := month mod 12 in
  dayFromYear ym + daysBeforeMonth ym (Z.to_nat mn) + date - 1.

Definition timeClip (t : Z) : Date :=
  if Z.abs t <=? 8640000000000000 then DateAt t else InvalidDate.

(** [new Date(Date.UTC(y, m, d))] on integer arguments: a year from 0 to 99
    counts from 1900. *)
Definition dateUTC (y m d : Z) : Date :=
  let yr := if (0 <=? y) && (y <=? 99) then 1900 + y else y in
  timeClip (makeDay yr m d * msPerDay).

(** The date-only form [YYYY-MM-DD] of the ECMAScript date-time format,
    when it names a day of the calendar: midnight UTC of that day. *)
Definition isoDateOnly (s : string) : option Date :=
  match chars s with
  | [y1; y2; y3; y4; h1; m1; m2; h2; d1; d2] =>
      if forallb isDigit [y1; y2; y3; y4; m1; m2; d1; d2]
         && (code h1 =? 45) && (code h2 =? 45)
      then
        let y := valueOfDigits 10 digitValue [y1; y2; y3; y4] in
        let m := valueOfDigits 10 digitValue [m1; m2] in
        let d := valueOfDigits 10 digitValue [d1; d2] in
        if (1 <=? m) && (m <=? 12) && (1 <=? d) && (d <=? daysInMonth y (m - 1))
        then Some (timeClip (makeDay y (m - 1) d * msPerDay))
        else None
      else None
  | _ => None
  end.

Section HostDate.

(** What the host does with every other text: other forms of the format
    depend on the local time zone, and text outside the format on
    implementation-specific fallbacks. *)
Variable hostDateParse : string -> Date.

(** [new Date(s)] for a string. *)
Definition newDateOfString (s : string) : Date :=
  match isoDateOnly s with
  | Some d => d
  | None => hostDateParse s
  end.

(** [new Date(v)] for a single argument: the value is converted to a
    primitive; a string is read as text, anything else is a time value. *)
Definition newDate (v : value) : Outcome Date :=
  p <~ toPrimitive HintNumber v ;;
  Ret match p with
      | PStr s => newDateOfString s
      | _ =>
          match truncate (numberOf p) with
          | Some t => timeClip t
          | None => InvalidDate
          end
      end.

End HostDate.

End JS.

(* ===================================================================== *)
(** * The storage client as the routes call it *)
(* ===================================================================== *)

Module Store.
Import JS.

(** ** Tables *)

(** Modelled from the spec: the schema file is not among the sources; the
    tables follow the data model of the design document and the columns the
    routes read and write.  Status columns are text.  The creation and
    update timestamps are kept by the storage layer and are not carried. *)
Record Company : Type := {
  company_id : Z;
  company_name : string
}.

Record Contact : Type := {
  contact_id : Z;
  contact_name : string;
  contact_companyId : Z
}.

Record Bid : Type := {
  bid_id : Z;
  projectName : string;
  clientCompanyId : Z;
  contactId : option Z;
  proposalDate : option Z;
  dueDate : option Z;
  followUpOn : option Z;
  jobLocation : option string;
  leadSource : option string;
  bidStatus : string
}.

Record Scope : Type := {
  scope_id : Z;
  scope_bidId : Z;
  scope_name : string;
  scope_cost : number;
  scope_status : string
}.

(** Notes, attachments and tag links: rows owned by a bid; their other
    columns are opaque to these routes. *)
Record Child : Type := {
  child_id : Z;
  child_bidId : Z;
  child_row : value
}.

Record Db : Type := {
  companies : list Company;
  contacts : list Contact;
  bids : list Bid;
  scopes : list Scope;
  notes : list Child;
  attachments : list Child;
  bidTags : list Child;
  nextCompanyId : Z;
  nextContactId : Z;
  nextBidId : Z;
  nextScopeId : Z
}.

Definition scopesOf (d : Db) (bidId : Z) : list Scope :=
  filter (fun s => scope_bidId s =? bidId) (scopes d).

Definition findBid (d : Db) (id : Z) : option Bid :=
  find (fun b => bid_id b =? id) (bids d).

Definition findCompany (d : Db) (id : Z) : option Company :=
  find (fun c => company_id c =? id) (companies d).

Definition findContact (d : Db) (id : Z) : option Contact :=
  find (fun c => contact_id c =? id) (contacts d).

(** ** Arguments of a bid write, as loosely typed as the routes pass them *)

Record ScopeInput : Type := {
  in_name : string;
  in_cost : number;
  in_status : string
}.

Record BidData : Type := {
  d_projectName : string;
  d_clientCompanyId : value;
  d_contactId : value;
  d_proposalDate : option Date;
  d_dueDate : option Date;
  d_followUpOn : option Date;
  d_jobLocation : value;
  d_leadSource : value;
  d_bidStatus : value;
  d_scopes : list ScopeInput
}.

(** The filter of the list query. *)
Record BidWhere : Type := {
  w_bidStatus : option string;
  w_search : option string;
  w_createdGte : option Date;
  w_createdLte : option Date
}.

(** ** What lies outside the two route files *)

Class Host : Type := {
  (** the host's reading of date text outside the date-only format *)
  hostDateParse : string -> Date;
  (** the schema's default for [bidStatus], if it declares one *)
  bidStatusDefault : option string;
  (** the storage layer's evaluation of the list query (filter, collation,
      order by update time) *)
  findManyBids : BidWhere -> Db -> Outcome (list Bid);
  (** [utils/aggregate]: the derived amount and status of a scope set *)
  totalAmount : list Scope -> number;
  aggregateScopeStatus : list Scope -> string
}.

(** ** Effects: the store, a log of the client calls, exceptions *)

Inductive Call : Type :=
| CompanyFindFirst | CompanyCreate
| ContactFindFirst | ContactCreate
| BidCreate | BidUpdate | BidFindMany | BidFindUnique | BidDeleteMany
| ScopeDeleteMany | NoteDeleteMany | AttachmentDeleteMany | BidTagDeleteMany.

Record World : Type := {
  db : Db;
  calls : list Call
}.

Definition M (A : Type) : Type := World -> Outcome A * World.

Definition ret {A} (a : A) : M A := fun w => (Ret a, w).

Definition throw {A} (e : Error) : M A := fun w => (Throw e, w).

Definition bind {A B} (m : M A) (k : A -> M B) : M B :=
  fun w =>
    match m w with
    | (Ret a, w') => k a w'
    | (Throw e, w') => (Throw e, w')
    end.

(** [try { m } catch (e) { h e }]. *)
Definition tryCatch {A} (m : M A) (h : Error -> M A) : M A :=
  fun w =>
    match m w with
    | (Ret a, w') => (Ret a, w')
    | (Throw e, w') => h e w'
    end.

(** A computation that touches no store. *)
Definition lift {A} (o : Outcome A) : M A := fun w => (o, w).

Notation "x <- m ;; k" := (bind m (fun x => k))
  (at level 61, m at next level, right associativity) : store_scope.
Notation "m ;;; k" := (bind m (fun _ => k))
  (at level 61, right associativity) : store_scope.

(** One call of the client: logged, then run against the tables. *)
Definition query {A} (c : Call) (f : Db -> Outcome (A * Db)) : M A :=
  fun w =>
    let cs := (calls w ++ [c])%list in
    match f (db w) with
    | Ret (a, d') => (Ret a, {| db := d'; calls := cs |})
    | Throw e => (Throw e, {| db := db w; calls := cs |})
    end.

(** [$transaction]: the statements take effect together or not at all. *)
Definition transaction {A} (body : M A) : M A :=
  fun w =>
    match body w with
    | (Ret a, w') => (Ret a, w')
    | (Throw e, w') => (Throw e, {| db := db w; calls := calls w' |})
    end.

(** *** Vocabulary for statements about computations *)

(** A computation whose every run leaves the bid table as it was. *)
Definition keepsBids {A} (m : M A) : Prop :=
  forall w o w', m w = (o, w') -> bids (db w') = bids (db w).

(** A computation whose every run takes the tables from one state to a
    state related to it. *)
Definition respects (R : Db -> Db -> Prop) {A} (m : M A) : Prop :=
  forall w o w', m w = (o, w') -> R (db w) (db w').

(** Every scope of [d'] was in [d] already or has a cost that satisfies
    [P]. *)
Definition scopesFrom (P : number -> Prop) (d d' : Db) : Prop :=
  forall s, In s (scopes d') -> In s (scopes d) \/ P (scope_cost s).

Definition finiteCost (n : number) : Prop := isFinite n = true.

Definition numericCost (n : number) : Prop := isNaN n = false.

(** Every bid of [d'] was in [d] already or satisfies [P]. *)
Definition bidsFrom (P : Bid -> Prop) (d d' : Db) : Prop :=
  forall b, In b (bids d') -> In b (bids d) \/ P b.

(** A bid whose status is one of the five. *)
Definition canonicalBid (b : Bid) : Prop :=
  In (bidStatus b) ["Active"; "Complete"; "Archived"; "Hot"; "Cold"].

(** Every scope of [d'] was in [d] already or has a name, a cost and a
    status that satisfy [Q]. *)
Definition scopesLike (Q : string -> number -> string -> Prop) (d d' : Db)
  : Prop :=
  forall s, In s (scopes d') ->
    In s (scopes d) \/ Q (scope_name s) (scope_cost s) (scope_status s).

(** A scope as the sanitization leaves it: a name that is not empty and has
    no white space around it, a status among the three. *)
Definition sanitized (name : string) (cost : number) (status : string) : Prop :=
  nonEmpty name = true /\ trim name = name
  /\ In status ["Pending"; "Won"; "Lost"].

(** [l'] is [l] with rows added at its end. *)
Definition extends {A} (l l' : list A) : Prop := exists more, l' = (l ++ more)%list.

(** From [d] to [d'] rows were added and nothing else: every table of [d']
    starts with the rows of [d], and the notes, attachments and tag links
    are the same. *)
Definition onlyAdds (d d' : Db) : Prop :=
  extends (companies d) (companies d')
  /\ extends (contacts d) (contacts d')
  /\ extends (bids d) (bids d')
  /\ extends (scopes d) (scopes d')
  /\ notes d' = notes d
  /\ attachments d' = attachments d
  /\ bidTags d' = bidTags d.

(** A bid with a name that is not empty and has no white space around it,
    a proposal date and a due date, and no follow-up date. *)
Definition namedAndDated (b : Bid) : Prop :=
  nonEmpty (projectName b) = true
  /\ trim (projectName b) = projectName b
  /\ proposalDate b <> None
  /\ dueDate b <> None
  /\ followUpOn b = None.

(** What identifies a contact to the import: its name within its company. *)
Definition contactKeys (d : Db) : list (string * Z) :=
  map (fun c => (contact_name c, contact_companyId c)) (contacts d).

(** From [d] to [d'] no contact gets a double. *)
Definition keepsContactsUnique (d d' : Db) : Prop :=
  NoDup (contactKeys d) -> NoDup (contactKeys d').

Definition companyNames (d : Db) : list string :=
  map company_name (companies d).

(** A computation whose every run leaves the companies as they were. *)
Definition keepsCompanies {A} (m : M A) : Prop :=
  respects (fun d d' => companies d' = companies d) m.

(** A computation that, when it returns, has added exactly the bid it
    returns, and has added none when it throws. *)
Definition addsItsBid (m : M Bid) : Prop :=
  forall w o w', m w = (o, w') ->
    match o with
    | Ret b => bids (db w') = (bids (db w) ++ [b])%list
    | Throw _ => bids (db w') = bids (db w)
    end.



(** ** The client's operations

    A write is validated against the schema first (a value of the wrong
    type is a validation error), then run (a missing record or a reference
    to a missing row is a request error).  Failures of the storage
    infrastructure itself are outside the model. *)

Local Open Scope store_scope.

Definition intArg (field : string) (v : value) : Outcome Z :=
  match v with
  | VNum n =>
      match asInteger n with
      | Some z => Ret z
      | None => Throw (ValidationError ("Invalid value for " ++ field))
      end
  | _ => Throw (ValidationError ("Invalid value for " ++ field))
  end.

(** An optional integer column: [null] clears it, [undefined] leaves the
    argument out. *)
Definition optIntArg (field : string) (v : value) : Outcome (option (option Z)) :=
  match v with
  | VUndefined => Ret None
  | VNull => Ret (Some None)
  | _ => z <~ intArg field v ;; Ret (Some (Some z))
  end.

Definition optTextArg (field : string) (v : value)
  : Outcome (option (option string)) :=
  match v with
  | VUndefined => Ret None
  | VNull => Ret (Some None)
  | VStr s => Ret (Some (Some s))
  | _ => Throw (ValidationError ("Invalid value for " ++ field))
  end.

Definition dateArg (field : string) (v : option Date) : Outcome (option Z) :=
  match v with
  | None => Ret None
  | Some (DateAt t) => Ret (Some t)
  | Some InvalidDate =>
      Throw (ValidationError ("Provided Date object is invalid: " ++ field))
  end.

Definition requireCompany (d : Db) (id : Z) : Outcome unit :=
  match findCompany d id with
  | Some _ => Ret tt
  | None => Throw (KnownRequestError "P2003" "Foreign key constraint failed")
  end.

Definition requireContact (d : Db) (id : option Z) : Outcome unit :=
  match id with
  | None => Ret tt
  | Some c =>
      match findContact d c with
      | Some _ => Ret tt
      | None => Throw (KnownRequestError "P2003" "Foreign key constraint failed")
      end
  end.

Fixpoint scopeRows (bidId first : Z) (l : list ScopeInput) : list Scope :=
  match l with
  | [] => []
  | i :: r =>
      {| scope_id := first; scope_bidId := bidId; scope_name := in_name i;
         scope_cost := in_cost i; scope_status := in_status i |}
      :: scopeRows bidId (first + 1) r
  end.

Definition orKeep {A} (arg : option A) (old : A) : A :=
  match arg with Some a => a | None => old end.

(** Table updates. *)

Definition withCompanies (d : Db) (l : list Company) (next : Z) : Db :=
  {| companies := l; contacts := contacts d; bids := bids d;
     scopes := scopes d; notes := notes d; attachments := attachments d;
     bidTags := bidTags d;
     nextCompanyId := next; nextContactId := nextContactId d;
     nextBidId := nextBidId d; nextScopeId := nextScopeId d |}.

Definition withContacts (d : Db) (l : list Contact) (next : Z) : Db :=
  {| companies := companies d; contacts := l; bids := bids d;
     scopes := scopes d; notes := notes d; attachments := attachments d;
     bidTags := bidTags d;
     nextCompanyId := nextCompanyId d; nextContactId := next;
     nextBidId := nextBidId d; nextScopeId := nextScopeId d |}.

Definition withBids (d : Db) (l : list Bid) (next : Z) : Db :=
  {| companies := companies d; contacts := contacts d; bids := l;
     scopes := scopes d; notes := notes d; attachments := attachments d;
     bidTags := bidTags d;
     nextCompanyId := nextCompanyId d; nextContactId := nextContactId d;
     nextBidId := next; nextScopeId := nextScopeId d |}.

Definition withScopes (d : Db) (l : list Scope) (next : Z) : Db :=
  {| companies := companies d; contacts := contacts d; bids := bids d;
     scopes := l; notes := notes d; attachments := attachments d;
     bidTags := bidTags d;
     nextCompanyId := nextCompanyId d; nextContactId := nextContactId d;
     nextBidId := nextBidId d; nextScopeId := next |}.

Definition withNotes (d : Db) (l : list Child) : Db :=
  {| companies := companies d; contacts := contacts d; bids := bids d;
     scopes := scopes d; notes := l; attachments := attachments d;
     bidTags := bidTags d;
     nextCompanyId := nextCompanyId d; nextContactId := nextContactId d;
     nextBidId := nextBidId d; nextScopeId := nextScopeId d |}.

Definition withAttachments (d : Db) (l : list Child) : Db :=
  {| companies := companies d; contacts := contacts d; bids := bids d;
     scopes := scopes d; notes := notes d; attachments := l;
     bidTags := bidTags d;
     nextCompanyId := nextCompanyId d; nextContactId := nextContactId d;
     nextBidId := nextBidId d; nextScopeId := nextScopeId d |}.

Definition withBidTags (d : Db) (l : list Child) : Db :=
  {| companies := companies d; contacts := contacts d; bids := bids d;
     scopes := scopes d; notes := notes d; attachments := attachments d;
     bidTags := l;
     nextCompanyId := nextCompanyId d; nextContactId := nextContactId d;
     nextBidId := nextBidId d; nextScopeId := nextScopeId d |}.

Definition statusArg (v : value) : Outcome (option string) :=
  match v with
  | VUndefined => Ret None
  | VStr s => Ret (Some s)
  | _ => Throw (ValidationError "Invalid value for bidStatus")
  end.

Definition replaceBid (b : Bid) (l : list Bid) : list Bid :=
  map (fun x => if bid_id x =? bid_id b then b else x) l.

Definition notOf (bidId : Z) (c : Child) : bool := negb (child_bidId c =? bidId).

Definition ownedBy (bidId : Z) (l : list Child) : list Child :=
  filter (fun c => child_bidId c =? bidId) l.

Definition removed {A} (before after : list A) : Z :=
  Z.of_nat (List.length before) - Z.of_nat (List.length after).

(** The arguments of an update as the schema types them; an [undefined]
    argument keeps the column. *)
Record UpdateArgs : Type := {
  u_company : option Z;
  u_contact : option (option Z);
  u_proposal : option Z;
  u_due : option Z;
  u_follow : option Z;
  u_location : option (option string);
  u_lead : option (option string);
  u_status : option string
}.

(** The validation of an update: a value of the wrong type is refused
    before any record is looked up. *)
Definition updateArgs (data : BidData) : Outcome UpdateArgs :=
  company <~ match d_clientCompanyId data with
             | VUndefined => Ret None
             | v => z <~ intArg "clientCompanyId" v ;; Ret (Some z)
             end ;;
  contact <~ optIntArg "contactId" (d_contactId data) ;;
  proposal <~ dateArg "proposalDate" (d_proposalDate data) ;;
  due <~ dateArg "dueDate" (d_dueDate data) ;;
  follow <~ dateArg "followUpOn" (d_followUpOn data) ;;
  location <~ optTextArg "jobLocation" (d_jobLocation data) ;;
  lead <~ optTextArg "leadSource" (d_leadSource data) ;;
  status <~ statusArg (d_bidStatus data) ;;
  Ret {| u_company := company; u_contact := contact;
         u_proposal := proposal; u_due := due; u_follow := follow;
         u_location := location; u_lead := lead; u_status := status |}.

(** The row a validated update leaves, or the reference the tables refuse. *)
Definition updatedRow (d : Db) (old : Bid) (data : BidData) (u : UpdateArgs)
  : Outcome Bid :=
  let company := orKeep (u_company u) (clientCompanyId old) in
  _ <~ requireCompany d company ;;
  _ <~ requireContact d (orKeep (u_contact u) (contactId old)) ;;
  Ret {| bid_id := bid_id old;
         projectName := d_projectName data;
         clientCompanyId := company;
         contactId := orKeep (u_contact u) (contactId old);
         proposalDate := u_proposal u; dueDate := u_due u;
         followUpOn := u_follow u;
         jobLocation := orKeep (u_location u) (jobLocation old);
         leadSource := orKeep (u_lead u) (leadSource old);
         bidStatus := orKeep (u_status u) (bidStatus old) |}.

(** The row an update of [old] would leave, or why it is refused. *)
Definition updatedBidRow (d : Db) (old : Bid) (data : BidData) : Outcome Bid :=
  u <~ updateArgs data ;; updatedRow d old data u.

(** What each call does to the tables. *)

Definition companyCreate (name : string) (d : Db) : Outcome (Company * Db) :=
  let c := {| company_id := nextCompanyId d; company_name := name |} in
  Ret (c, withCompanies d (companies d ++ [c])%list (nextCompanyId d + 1)).

Definition contactCreate (name : string) (companyId : Z) (d : Db)
  : Outcome (Contact * Db) :=
  _ <~ requireCompany d companyId ;;
  let c := {| contact_id := nextContactId d; contact_name := name;
              contact_companyId := companyId |} in
  Ret (c, withContacts d (contacts d ++ [c])%list (nextContactId d + 1)).

Definition bidUpdate (id : number) (data : BidData) (d : Db)
  : Outcome ((Bid * list Scope) * Db) :=
  key <~ intArg "id" (VNum id) ;;
  u <~ updateArgs data ;;
  match findBid d key with
  | None => Throw (KnownRequestError "P2025" "Record to update not found")
  | Some old =>
      b <~ updatedRow d old data u ;;
      let rows := scopeRows key (nextScopeId d) (d_scopes data) in
      let d' := withScopes (withBids d (replaceBid b (bids d)) (nextBidId d))
                  (scopes d ++ rows)%list
                  (nextScopeId d + Z.of_nat (List.length rows)) in
      Ret ((b, scopesOf d' key), d')
  end.

Definition scopeDeleteMany (bidId : number) (d : Db) : Outcome (Z * Db) :=
  key <~ intArg "bidId" (VNum bidId) ;;
  let keep := filter (fun s => negb (scope_bidId s =? key)) (scopes d) in
  Ret (removed (scopes d) keep, withScopes d keep (nextScopeId d)).

Definition noteDeleteMany (bidId : number) (d : Db) : Outcome (Z * Db) :=
  key <~ intArg "bidId" (VNum bidId) ;;
  let keep := filter (notOf key) (notes d) in
  Ret (removed (notes d) keep, withNotes d keep).

Definition attachmentDeleteMany (bidId : number) (d : Db) : Outcome (Z * Db) :=
  key <~ intArg "bidId" (VNum bidId) ;;
  let keep := filter (notOf key) (attachments d) in
  Ret (removed (attachments d) keep, withAttachments d keep).

Definition bidTagDeleteMany (bidId : number) (d : Db) : Outcome (Z * Db) :=
  key <~ intArg "bidId" (VNum bidId) ;;
  let keep := filter (notOf key) (bidTags d) in
  Ret (removed (bidTags d) keep, withBidTags d keep).

(** A bid that still owns rows cannot go. *)
Definition bidDeleteMany (id : number) (d : Db) : Outcome (Z * Db) :=
  key <~ intArg "id" (VNum id) ;;
  let owned := Z.of_nat (List.length (scopesOf d key))
               + Z.of_nat (List.length (ownedBy key (notes d)))
               + Z.of_nat (List.length (ownedBy key (attachments d)))
               + Z.of_nat (List.length (ownedBy key (bidTags d))) in
  let keep := filter (fun b => negb (bid_id b =? key)) (bids d) in
  if (owned =? 0) || (removed (bids d) keep =? 0)
  then Ret (removed (bids d) keep, withBids d keep (nextBidId d))
  else Throw (KnownRequestError "P2003" "Foreign key constraint failed").

(** A bid with the relations a read includes. *)
Record BidFull : Type := {
  bf_bid : Bid;
  bf_company : option Company;
  bf_contact : option Contact;
  bf_scopes : list Scope;
  bf_notes : list Child;
  bf_tags : list Child;
  bf_attachments : list Child
}.

Definition withRelations (d : Db) (b : Bid) : BidFull :=
  {| bf_bid := b;
     bf_company := findCompany d (clientCompanyId b);
     bf_contact := match contactId b with
                   | Some c => findContact d c
                   | None => None
                   end;
     bf_scopes := scopesOf d (bid_id b);
     bf_notes := ownedBy (bid_id b) (notes d);
     bf_tags := ownedBy (bid_id b) (bidTags d);
     bf_attachments := ownedBy (bid_id b) (attachments d) |}.

Section Client.

Context {host : Host}.

(** The row a create would write, or why it is refused. *)
Definition newBidRow (d : Db) (data : BidData) : Outcome Bid :=
  company <~ intArg "clientCompanyId" (d_clientCompanyId data) ;;
  contact <~ optIntArg "contactId" (d_contactId data) ;;
  proposal <~ dateArg "proposalDate" (d_proposalDate data) ;;
  due <~ dateArg "dueDate" (d_dueDate data) ;;
  follow <~ dateArg "followUpOn" (d_followUpOn data) ;;
  location <~ optTextArg "jobLocation" (d_jobLocation data) ;;
  lead <~ optTextArg "leadSource" (d_leadSource data) ;;
  status <~ statusArg (d_bidStatus data) ;;
  status' <~ match status, bidStatusDefault with
             | Some s, _ => Ret s
             | None, Some s => Ret s
             | None, None => Throw (ValidationError "Argument bidStatus is missing")
             end ;;
  _ <~ requireCompany d company ;;
  _ <~ requireContact d (orKeep contact None) ;;
  Ret {| bid_id := nextBidId d;
         projectName := d_projectName data;
         clientCompanyId := company;
         contactId := orKeep contact None;
         proposalDate := proposal; dueDate := due; followUpOn := follow;
         jobLocation := orKeep location None;
         leadSource := orKeep lead None;
         bidStatus := status' |}.

Definition bidCreate (data : BidData) (d : Db)
  : Outcome ((Bid * list Scope) * Db) :=
  b <~ newBidRow d data ;;
  let rows := scopeRows (bid_id b) (nextScopeId d) (d_scopes data) in
  Ret ((b, rows),
       withScopes (withBids d (bids d ++ [b])%list (nextBidId d + 1))
         (scopes d ++ rows)%list
         (nextScopeId d + Z.of_nat (List.length rows))).

(** [prisma.company.findFirst({ where: { name } })]. *)
Definition company_findFirst (name : string) : M (option Company) :=
  query CompanyFindFirst (fun d =>
    Ret (find (fun c => String.eqb (company_name c) name) (companies d), d)).

(** [prisma.company.create({ data: { name } })]. *)
Definition company_create (name : string) : M Company :=
  query CompanyCreate (companyCreate name).

(** [prisma.contact.findFirst({ where: { name, companyId } })]. *)
Definition contact_findFirst (name : string) (companyId : Z)
  : M (option Contact) :=
  query ContactFindFirst (fun d =>
    Ret (find (fun c => String.eqb (contact_name c) name
                        && (contact_companyId c =? companyId))
              (contacts d), d)).

(** [prisma.contact.create({ data: { name, companyId } })]. *)
Definition contact_create (name : string) (companyId : Z) : M Contact :=
  query ContactCreate (contactCreate name companyId).

(** [prisma.bid.create({ data: { ..., scopes: { create } } })]: the bid and
    its scopes are written together. *)
Definition bid_create (data : BidData) : M (Bid * list Scope) :=
  query BidCreate (bidCreate data).

(** [prisma.bid.update({ where: { id }, data, include: { scopes } })]. *)
Definition bid_update (id : number) (data : BidData) : M (Bid * list Scope) :=
  query BidUpdate (bidUpdate id data).

(** [prisma.scope.deleteMany({ where: { bidId } })] and its like. *)
Definition scope_deleteMany (bidId : number) : M Z :=
  query ScopeDeleteMany (scopeDeleteMany bidId).

Definition note_deleteMany (bidId : number) : M Z :=
  query NoteDeleteMany (noteDeleteMany bidId).

Definition attachment_deleteMany (bidId : number) : M Z :=
  query AttachmentDeleteMany (attachmentDeleteMany bidId).

Definition bidTag_deleteMany (bidId : number) : M Z :=
  query BidTagDeleteMany (bidTagDeleteMany bidId).

(** [prisma.bid.deleteMany({ where: { id } })]. *)
Definition bid_deleteMany (id : number) : M Z :=
  query BidDeleteMany (bidDeleteMany id).

(** [prisma.bid.findUnique({ where: { id }, include })]. *)
Definition bid_findUnique (id : number) : M (option BidFull) :=
  query BidFindUnique (fun d =>
    key <~ intArg "id" (VNum id) ;;
    Ret (option_map (withRelations d) (findBid d key), d)).

(** [prisma.bid.findMany({ where, select, orderBy })]. *)
Definition bid_findMany (w : BidWhere) : M (list BidFull) :=
  query BidFindMany (fun d =>
    rows <~ findManyBids w d ;;
    Ret (map (withRelations d) rows, d)).

End Client.

End Store.

(* ===================================================================== *)
(** * Responses *)
(* ===================================================================== *)

Module Http.
Import JS.

(** What a handler hands to [res.json]: a value that may hold Date objects
    and [undefined] members. *)
Inductive json : Type :=
| JUndefined
| JNull
| JBool (b : bool)
| JNum (n : number)
| JStr (s : string)
| JDate (d : Date)
| JArr (items : list json)
| JObj (fields : list (string * json)).

Definition jget (k : string) (j : json) : option json :=
  match j with
  | JObj fields => assoc k fields
  | _ => None
  end.

(** [{ ...o, k: v }]: the key keeps its place when [o] has it already. *)
Fixpoint setField (k : string) (v : json) (fields : list (string * json))
  : list (string * json) :=
  match fields with
  | [] => [(k, v)]
  | (k', v') :: r =>
      if String.eqb k k' then (k, v) :: r else (k', v') :: setField k v r
  end.

(** What goes on the wire ([JSON.stringify]): a member that is [undefined]
    is left out of its object and becomes [null] in an array; a number that
    is not finite and an invalid Date become [null]. *)
Fixpoint wire (j : json) : json :=
  match j with
  | JUndefined => JNull
  | JNum n => if isFinite n then j else JNull
  | JDate InvalidDate => JNull
  | JArr items => JArr (map wire items)
  | JObj fields =>
      JObj ((fix members (l : list (string * json)) :=
               match l with
               | [] => []
               | (_, JUndefined) :: r => members r
               | (k, v) :: r => (k, wire v) :: members r
               end) fields)
  | _ => j
  end.

Fixpoint ofValue (v : value) : json :=
  match v with
  | VUndefined | VFun _ => JUndefined
  | VNull => JNull
  | VBool b => JBool b
  | VNum n => JNum n
  | VStr s => JStr s
  | VArr items => JArr (map ofValue items)
  | VObj fields =>
      JObj ((fix members (l : list (string * value)) :=
               match l with
               | [] => []
               | (k, x) :: r => (k, ofValue x) :: members r
               end) fields)
  end.

Inductive Response : Type :=
| Json (status : Z) (body : json)
| End (status : Z)
| Next (e : Error)
| Unhandled (e : Error).

(** The body a client reads. *)
Definition sent (r : Response) : option json :=
  match r with
  | Json _ body => Some (wire body)
  | _ => None
  end.

Definition statusOf (r : Response) : option Z :=
  match r with
  | Json s _ | End s => Some s
  | _ => None
  end.

Definition forbidden : Response :=
  Json 403 (JObj [("error", JStr "Forbidden")]).

End Http.

(* ===================================================================== *)
(** * server/src/routes/import.ts *)
(* ===================================================================== *)

Module Importer.
Import JS Store Http.

Local Open Scope store_scope.

(** ** Helpers *)

(** [/^\d{4}-\d{2}-\d{2}/]. *)
Definition isoPrefix (l : list ascii) : bool :=
  match l with
  | y1 :: y2 :: y3 :: y4 :: h1 :: m1 :: m2 :: h2 :: d1 :: d2 :: _ =>
      forallb isDigit [y1; y2; y3; y4; m1; m2; d1; d2]
      && (code h1 =? 45) && (code h2 =? 45)
  | _ => false
  end.

(** [[\/-]]. *)
Definition isSeparator (c : ascii) : bool := (code c =? 47) || (code c =? 45).

(** [\d{1,2}], greedy, and the rest of the text. *)
Definition oneOrTwoDigits (l : list ascii) : option (list ascii * list ascii) :=
  match l with
  | a :: b :: r =>
      if isDigit a
      then if isDigit b then Some ([a; b], r) else Some ([a], b :: r)
      else None
  | [a] => if isDigit a then Some ([a], []) else None
  | [] => None
  end.

(** [/^(\d{1,2})[\/-](\d{1,2})[\/-](\d{4})$/]: the three groups. *)
Definition matchDMY (l : list ascii)
  : option (list ascii * list ascii * list ascii) :=
  match oneOrTwoDigits l with
  | Some (a, s1 :: r1) =>
      if isSeparator s1 then
        match oneOrTwoDigits r1 with
        | Some (b, s2 :: r2) =>
            if isSeparator s2 then
              match r2 with
              | [_; _; _; _] =>
                  if forallb isDigit r2 then Some (a, b, r2) else None
              | _ => None
              end
            else None
        | _ => None
        end
      else None
  | _ => None
  end.

(** [replace(/[, ]+/g, '')]. *)
Definition stripSeparators (s : string) : string :=
  str (filter (fun c => negb ((code c =? 44) || (code c =? 32))) (chars s)).

Section Routes.

Context {host : Host}.

Definition orNull (d : Date) : option Date :=
  if dateValid d then Some d else None.

Definition parseDateLoose (s : value) : Outcome (option Date) :=
  if negb (truthy s) then Ret None
  else
    text <~ toString s ;;
    let t := trim text in
    (* ISO: YYYY-MM-DD or starts with it *)
    if isoPrefix (chars t) then Ret (orNull (newDateOfString hostDateParse t))
    else
      (* DD/MM/YYYY or MM/DD/YYYY (also supports '-') *)
      match matchDMY (chars t) with
      | Some (m1, m2, m3) =>
          (* parseInt of a run of digits is its decimal value *)
          let a := valueOfDigits 10 digitValue m1 in
          let b := valueOfDigits 10 digitValue m2 in
          let y := valueOfDigits 10 digitValue m3 in
          (* day-first *)
          let day := a in
          let month := b in
          Ret (orNull (dateUTC y (month - 1) day))
      | None =>
          (* Fallback: let JS try *)
          Ret (orNull (newDateOfString hostDateParse t))
      end.

Definition cleanStatus (s : value) : Outcome (option string) :=
  text <~ toString (nullish s (VStr EmptyString)) ;;
  let v := trim text in
  if negb (nonEmpty v) then Ret None
  else
    let norm := toLowerCase v in
    if existsb (String.eqb norm) ["pending"; "won"; "lost"] then
      match norm with
      | String c rest => Ret (Some (toUpperCase (String c EmptyString) ++ rest))
      | EmptyString => Ret None
      end
    else Ret None.

Definition bidStatusMap : list (string * value) :=
  [("active", VStr "Active");
   ("complete", VStr "Complete");
   ("completed", VStr "Complete");
   ("archive", VStr "Archived");
   ("archived", VStr "Archived");
   ("hot", VStr "Hot");
   ("cold", VStr "Cold")].

Definition cleanBidStatus (s : value) : Outcome value :=
  text <~ toString (nullish s (VStr EmptyString)) ;;
  let v := toLowerCase (trim text) in
  Ret (nullish (lookup bidStatusMap v) (VStr "Active")).

Definition toNumberOrZero (x : value) : Outcome number :=
  text <~ toString (nullish x (VStr EmptyString)) ;;
  let n := stringToNumber (stripSeparators text) in
  Ret (if isFinite n then n else posZero).

(** ** CSV import *)

(** One decoded row; the decoder fixes the column names. *)
Record Row : Type := {
  r_projectName : value;
  r_clientCompany : value;
  r_contactName : value;
  r_proposalDate : value;
  r_dueDate : value;
  r_jobLocation : value;
  r_leadSource : value;
  r_bidStatus : value;
  r_scopeName : value;
  r_scopeCost : value;
  r_scopeStatus : value
}.



Record ScopeDraft : Type := {
  sd_name : string;
  sd_cost : number;
  sd_status : option string
}.

Record Group : Type := {
  g_projectName : string;
  g_clientCompany : string;
  g_contactName : option string;
  g_proposalDate : string;
  g_dueDate : string;
  g_jobLocation : option string;
  g_leadSource : option string;
  g_bidStatus : value;
  g_scopes : list ScopeDraft
}.

(** [String(v ?? '').trim()]. *)
Definition cell (v : value) : Outcome string :=
  text <~ toString (nullish v (VStr EmptyString)) ;;
  Ret (trim text).

(** [s || null]. *)
Definition orNone (s : string) : option string :=
  if nonEmpty s then Some s else None.

Definition groupKey (projectName clientCompany : string) : string :=
  projectName ++ "||" ++ clientCompany.

Definition withStatus (g : Group) (st : value) : Group :=
  {| g_projectName := g_projectName g; g_clientCompany := g_clientCompany g;
     g_contactName := g_contactName g; g_proposalDate := g_proposalDate g;
     g_dueDate := g_dueDate g; g_jobLocation := g_jobLocation g;
     g_leadSource := g_leadSource g; g_bidStatus := st;
     g_scopes := g_scopes g |}.

Definition pushScope (g : Group) (sc : ScopeDraft) : Group :=
  {| g_projectName := g_projectName g; g_clientCompany := g_clientCompany g;
     g_contactName := g_contactName g; g_proposalDate := g_proposalDate g;
     g_dueDate := g_dueDate g; g_jobLocation := g_jobLocation g;
     g_leadSource := g_leadSource g; g_bidStatus := g_bidStatus g;
     g_scopes := (g_scopes g ++ [sc])%list |}.

(** [grouped] is an object used as a map: its keys are kept in the order
    they were first set, which is the order [Object.keys] lists them in.
    Each key holds the two bars, so none is an array index and none names
    an inherited member: a lookup finds own properties only. *)
Definition Grouped : Type := list (string * Group).

Fixpoint update (key : string) (f : Group -> Group) (grouped : Grouped)
  : Grouped :=
  match grouped with
  | [] => []
  | (k, g) :: r =>
      if String.eqb key k then (k, f g) :: r else (k, g) :: update key f r
  end.

(** The body of the grouping loop for one row.  A cell that cannot be
    converted to a string throws where the loop reaches it. *)
Definition groupRow (grouped : Grouped) (r : Row) : Outcome Grouped :=
  projectName <~ cell (r_projectName r) ;;
  clientCompany <~ cell (r_clientCompany r) ;;
  if negb (nonEmpty projectName) || negb (nonEmpty clientCompany)
  then Ret grouped
  else
    let key := groupKey projectName clientCompany in
    grouped1 <~
      match assoc key grouped with
      | None =>
          (* Initialize group if missing *)
          contactName <~ cell (r_contactName r) ;;
          proposalDate <~ cell (r_proposalDate r) ;;
          dueDate <~ cell (r_dueDate r) ;;
          jobLocation <~ cell (r_jobLocation r) ;;
          leadSource <~ cell (r_leadSource r) ;;
          bidStatus <~ cleanBidStatus (r_bidStatus r) ;;
          Ret (grouped ++
                [(key,
                  {| g_projectName := projectName;
                     g_clientCompany := clientCompany;
                     g_contactName := orNone contactName;
                     g_proposalDate := proposalDate;
                     g_dueDate := dueDate;
                     g_jobLocation := orNone jobLocation;
                     g_leadSource := orNone leadSource;
                     g_bidStatus := bidStatus;
                     g_scopes := [] |})])%list
      | Some g =>
          (* a later row with a stronger bidStatus upgrades it from Active *)
          incomingStatus <~ cleanBidStatus (r_bidStatus r) ;;
          let cur := g_bidStatus g in
          Ret (if strictEqStr cur "Active"
                  && negb (strictEqStr incomingStatus "Active")
               then update key (fun g => withStatus g incomingStatus) grouped
               else grouped)
      end ;;
    name <~ cell (r_scopeName r) ;;
    cost <~ toNumberOrZero (r_scopeCost r) ;;
    status <~ cleanStatus (r_scopeStatus r) ;;
    Ret (update key
           (fun g => pushScope g
              {| sd_name := name; sd_cost := cost; sd_status := status |})
           grouped1).

(** The loop: the rows in order, until one throws. *)
Fixpoint groupFrom (grouped : Grouped) (rows : list Row) : Outcome Grouped :=
  match rows with
  | [] => Ret grouped
  | r :: rest => grouped' <~ groupRow grouped r ;; groupFrom grouped' rest
  end.

Definition groupRows (rows : list Row) : Outcome Grouped := groupFrom [] rows.

(** *** Vocabulary for statements about the grouping

    What the helpers answer for a cell, with a default where the conversion
    of the cell throws; the grouping loop, whenever it returns, has worked
    with these answers. *)

Definition cellOf (v : value) : string := orElse (cell v) EmptyString.

Definition bidStatusOf (v : value) : value :=
  orElse (cleanBidStatus v) (VStr "Active").

Definition costOf (v : value) : number := orElse (toNumberOrZero v) posZero.

Definition scopeStatusOf (v : value) : option string :=
  orElse (cleanStatus v) None.

(** What the text of a date cell is read as. *)
Definition dateOf (t : string) : option Date :=
  orElse (parseDateLoose (VStr t)) None.

(** What a row makes of the groups before it, when none of its cells
    throws. *)
Definition filed (grouped : Grouped) (r : Row) : Grouped :=
  let projectName := cellOf (r_projectName r) in
  let clientCompany := cellOf (r_clientCompany r) in
  if negb (nonEmpty projectName) || negb (nonEmpty clientCompany) then grouped
  else
    let key := groupKey projectName clientCompany in
    let grouped1 :=
      match assoc key grouped with
      | None =>
          (grouped ++
            [(key,
              {| g_projectName := projectName;
                 g_clientCompany := clientCompany;
                 g_contactName := orNone (cellOf (r_contactName r));
                 g_proposalDate := cellOf (r_proposalDate r);
                 g_dueDate := cellOf (r_dueDate r);
                 g_jobLocation := orNone (cellOf (r_jobLocation r));
                 g_leadSource := orNone (cellOf (r_leadSource r));
                 g_bidStatus := bidStatusOf (r_bidStatus r);
                 g_scopes := [] |})])%list
      | Some g =>
          let incomingStatus := bidStatusOf (r_bidStatus r) in
          let cur := g_bidStatus g in
          if strictEqStr cur "Active" && negb (strictEqStr incomingStatus "Active")
          then update key (fun g => withStatus g incomingStatus) grouped
          else grouped
      end in
    update key
      (fun g => pushScope g
         {| sd_name := cellOf (r_scopeName r);
            sd_cost := costOf (r_scopeCost r);
            sd_status := scopeStatusOf (r_scopeStatus r) |})
      grouped1.

(** What an upload is grouped into, when the grouping returns. *)
Definition grouping (rows : list Row) : Grouped := fold_left filed rows [].

(** The key a row is filed under, if it is not discarded. *)
Definition keyOf (r : Row) : option string :=
  let projectName := cellOf (r_projectName r) in
  let clientCompany := cellOf (r_clientCompany r) in
  if negb (nonEmpty projectName) || negb (nonEmpty clientCompany) then None
  else Some (groupKey projectName clientCompany).

Definition filedUnder (k : string) (r : Row) : bool :=
  match keyOf r with
  | Some k' => String.eqb k' k
  | None => false
  end.

(** The rows of one group, in the order of the upload. *)
Definition rowsOf (k : string) (rows : list Row) : list Row :=
  filter (filedUnder k) rows.

(** Does the text hold a bar? *)
Fixpoint hasBar (s : string) : bool :=
  match s with
  | EmptyString => false
  | String c r => (code c =? 124) || hasBar r
  end.

Definition notActive (v : value) : bool := negb (strictEqStr v "Active").

(** The first status that is not Active, Active when there is none. *)
Definition firstNonActive (l : list value) : value :=
  match find notActive l with
  | Some v => v
  | None => VStr "Active"
  end.

Definition statusOfRow (r : Row) : value := bidStatusOf (r_bidStatus r).


(** The elevation rule, for a row filed under a key. *)
Definition elevate (cur : option value) (incoming : value) : value :=
  match cur with
  | None => incoming
  | Some c =>
      if strictEqStr c "Active" && negb (strictEqStr incoming "Active")
      then incoming else c
  end.

(** The canonical statuses. *)
Definition scopeStatuses : list string := ["Pending"; "Won"; "Lost"].

Definition bidStatuses : list string :=
  ["Active"; "Complete"; "Archived"; "Hot"; "Cold"].

(** Does the text hold a capital letter from A to Z? *)
Fixpoint hasUpper (s : string) : bool :=
  match s with
  | EmptyString => false
  | String c r => ((65 <=? code c) && (code c <=? 90)) || hasUpper r
  end.

(** The scope draft a row contributes to its group. *)
Definition draftOf (r : Row) : ScopeDraft :=
  {| sd_name := cellOf (r_scopeName r);
     sd_cost := costOf (r_scopeCost r);
     sd_status := scopeStatusOf (r_scopeStatus r) |}.

(** The group a first row and the later rows of its key amount to: the bid
    fields of the first row, the elevated status, one draft a row. *)
Definition groupOf (first : Row) (rest : list Row) : Group :=
  {| g_projectName := cellOf (r_projectName first);
     g_clientCompany := cellOf (r_clientCompany first);
     g_contactName := orNone (cellOf (r_contactName first));
     g_proposalDate := cellOf (r_proposalDate first);
     g_dueDate := cellOf (r_dueDate first);
     g_jobLocation := orNone (cellOf (r_jobLocation first));
     g_leadSource := orNone (cellOf (r_leadSource first));
     g_bidStatus := firstNonActive (map statusOfRow (first :: rest));
     g_scopes := map draftOf (first :: rest) |}.

(** Does the row name both a project and a client company? *)
Definition kept (r : Row) : bool :=
  nonEmpty (cellOf (r_projectName r)) && nonEmpty (cellOf (r_clientCompany r)).

(** What [cleanBidStatus] can answer. *)
Definition statusAnswer (v : value) : Prop :=
  v = VFun "Object" \/ v = VObj []
  \/ exists s, In s bidStatuses /\ v = VStr s.

(** What a row makes of the group its key holds, if any. *)
Definition joinRow (cur : option Group) (r : Row) : Group :=
  match cur with
  | None => groupOf r []
  | Some g =>
      pushScope
        (withStatus g (elevate (Some (g_bidStatus g)) (statusOfRow r)))
        (draftOf r)
  end.

Record ImportError : Type := {
  err_key : string;
  err_message : string
}.

Definition invalidDates (g : Group) : string :=
  "Invalid date(s). proposalDate=" ++ dquote ++ g_proposalDate g ++ dquote
  ++ " dueDate=" ++ dquote ++ g_dueDate g ++ dquote
  ++ ". Use YYYY-MM-DD or DD/MM/YYYY.".

Definition optValue (s : option string) : value :=
  match s with Some x => VStr x | None => VUndefined end.

Definition orNullValue (s : option string) : value :=
  match s with Some x => VStr x | None => VNull end.

(** Sanitize scopes. *)
Definition scopeCreates (g : Group) : Outcome (list ScopeInput) :=
  collect
    (map (fun s =>
            cost <~ toNumberOrZero (VNum (sd_cost s)) ;;
            status <~ cleanStatus (optValue (sd_status s)) ;;
            Ret {| in_name := sd_name s;
                   in_cost := cost;
                   in_status := match status with
                                | Some st => st
                                | None => "Pending"
                                end |})
         (filter (fun s => nonEmpty (sd_name s)) (g_scopes g))).

(** The scopes a group is committed with. *)
Definition scopeInputs (g : Group) : list ScopeInput :=
  map (fun s =>
         {| in_name := sd_name s;
            in_cost := costOf (VNum (sd_cost s));
            in_status := match scopeStatusOf (optValue (sd_status s)) with
                         | Some st => st
                         | None => "Pending"
                         end |})
      (filter (fun s => nonEmpty (sd_name s)) (g_scopes g)).

(** The body of the [try] for one group. *)
Definition commitGroup (g : Group) : M Bid :=
  proposalDate <- lift (parseDateLoose (VStr (g_proposalDate g))) ;;
  dueDate <- lift (parseDateLoose (VStr (g_dueDate g))) ;;
  match proposalDate, dueDate with
  | Some proposal, Some due =>
      (* Upsert company *)
      found <- company_findFirst (g_clientCompany g) ;;
      company <- match found with
                 | Some c => ret c
                 | None => company_create (g_clientCompany g)
                 end ;;
      (* Upsert contact *)
      contact <- match g_contactName g with
                 | Some name =>
                     c <- contact_findFirst name (company_id company) ;;
                     match c with
                     | Some c => ret (Some c)
                     | None =>
                         c <- contact_create name (company_id company) ;;
                         ret (Some c)
                     end
                 | None => ret None
                 end ;;
      (* Sanitize scopes *)
      creates <- lift (scopeCreates g) ;;
      created <- bid_create
        {| d_projectName := g_projectName g;
           d_clientCompanyId := VNum (ofZ (company_id company));
           d_contactId := match contact with
                          | Some c => VNum (ofZ (contact_id c))
                          | None => VNull
                          end;
           d_proposalDate := Some proposal;
           d_dueDate := Some due;
           d_followUpOn := None;
           d_jobLocation := orNullValue (g_jobLocation g);
           d_leadSource := orNullValue (g_leadSource g);
           d_bidStatus := if truthy (g_bidStatus g) then g_bidStatus g
                          else VStr "Active";
           d_scopes := creates |} ;;
      ret (fst created)
  | _, _ => throw (PlainError (invalidDates g))
  end.


(** One turn of the commit loop: the [try] and its [catch]. *)
Definition commitOne (kg : string * Group)
           (acc : list Bid * list ImportError)
  : M (list Bid * list ImportError) :=
  tryCatch
    (created <- commitGroup (snd kg) ;;
     ret ((fst acc ++ [created])%list, snd acc))
    (fun e =>
       ret (fst acc,
            (snd acc ++ [{| err_key := fst kg; err_message := message e |}])%list)).

Fixpoint commitLoop (groups : Grouped) (acc : list Bid * list ImportError)
  : M (list Bid * list ImportError) :=
  match groups with
  | [] => ret acc
  | kg :: r => acc' <- commitOne kg acc ;; commitLoop r acc'
  end.

Definition errorJson (e : ImportError) : json :=
  JObj [("key", JStr (err_key e)); ("message", JStr (err_message e))].

Definition importResult (results : list Bid) (errors : list ImportError) : json :=
  JObj [("imported", JNum (ofZ (Z.of_nat (List.length results))));
        ("errors", JArr (map errorJson errors))].

(** [importer.post('/bids', ...)]; [file] is the upload after the decoder,
    absent when no file came with the request.  The handler has no [try]
    around the grouping: an error thrown there, like one thrown by the
    commit loop outside its own [try], is handled by nobody. *)
Definition postBids (file : option (list Row)) (w : World) : Response * World :=
  match file with
  | None => (Json 400 (JObj [("error", JStr "No file")]), w)
  | Some rows =>
      match groupRows rows with
      | Throw e => (Unhandled e, w)
      | Ret grouped =>
          match commitLoop grouped ([], []) w with
          | (Ret (results, errors), w') =>
              (Json 200 (importResult results errors), w')
          | (Throw e, w') => (Unhandled e, w')
          end
      end
  end.

End Routes.

End Importer.

(* ===================================================================== *)
(** * server/src/routes/bids.ts *)
(* ===================================================================== *)

Module Bids.
Import JS Store Http.

Local Open Scope store_scope.

(** ** Permission helpers *)

Inductive Role : Type := ADMIN | MANAGER | ESTIMATOR | VIEWER.

Inductive Action : Type := Read | Create | Update | Delete.

Definition Role_eqb (a b : Role) : bool :=
  match a, b with
  | ADMIN, ADMIN | MANAGER, MANAGER | ESTIMATOR, ESTIMATOR | VIEWER, VIEWER => true
  | _, _ => false
  end.

Definition Action_eqb (a b : Action) : bool :=
  match a, b with
  | Read, Read | Create, Create | Update, Update | Delete, Delete => true
  | _, _ => false
  end.

Record User : Type := {
  user_id : Z;
  role : Role
}.

Record Query : Type := {
  q_status : option string;
  q_search : option string;
  q_createdFrom : option string;
  q_createdTo : option string
}.

(** A request as the routes of this file see it, the identity attached
    upstream when there is one. *)
Record Request : Type := {
  user : option User;
  params_id : string;
  query : Query;
  body : value
}.

(** [req.user?.role]. *)
Definition roleOf (req : Request) : option Role := option_map role (user req).

Definition ROLE_PERMS (r : Role) : list Action :=
  match r with
  | ADMIN => [Read; Create; Update; Delete]
  | MANAGER => [Read; Create; Update]
  | ESTIMATOR => [Read; Create; Update; Delete]
  | VIEWER => [Read]
  end.

Definition can (req : Request) (action : Action) : bool :=
  match roleOf req with
  | None => false
  | Some r => existsb (Action_eqb action) (ROLE_PERMS r)
  end.

(** A middleware answers the request or calls [next()]. *)
Definition Middleware : Type := Request -> option Response.

Definition requirePerm (action : Action) : Middleware :=
  fun req => if can req action then None else Some forbidden.

(** Modelled from the spec: [requireRole] of [middleware/permissions] is not
    among the sources.  The authorization check denies, signalling
    Forbidden, when the caller's role is absent or is not one of the roles
    listed for the action. *)
Definition requireRole (allowed : list Role) : Middleware :=
  fun req =>
    match roleOf req with
    | Some r => if existsb (Role_eqb r) allowed then None else Some forbidden
    | None => Some forbidden
    end.


Definition Handler : Type := Request -> World -> Response * World.

(** A route: its middleware in order, then its handler. *)
Fixpoint route (gates : list Middleware) (h : Handler) : Handler :=
  match gates with
  | [] => h
  | g :: r =>
      fun req w =>
        match g req with
        | Some res => (res, w)
        | None => route r h req w
        end
  end.

(** [try { ... } catch (e) { next(e) }] around a handler's body. *)
Definition guarded (m : M Response) : World -> Response * World :=
  fun w =>
    match m w with
    | (Ret r, w') => (r, w')
    | (Throw e, w') => (Next e, w')
    end.

(** Redact some fields for VIEWER role in list endpoints. *)
Definition redactForViewer (req : Request) (rows : list json) : list json :=
  match roleOf req with
  | Some VIEWER =>
      map (fun row =>
             match row with
             | JObj fields =>
                 JObj (setField "scopes" JUndefined
                         (setField "amount" JNull fields))
             | _ => row
             end) rows
  | _ => rows
  end.

(** ** Helpers *)

Definition VALID_SCOPE_STATUS : list string := ["Pending"; "Won"; "Lost"].

(** The mapping step of [sanitizeScopes] on one element. *)
Definition sanitizeScope (s : value) : Outcome ScopeInput :=
  name <~ getProp s "name" ;;
  nameText <~ toString (nullish name (VStr EmptyString)) ;;
  cost <~ getProp s "cost" ;;
  n <~ toNumber (nullish cost (VNum posZero)) ;;
  status <~ getProp s "status" ;;
  statusText <~ toString status ;;
  status' <~ (if existsb (String.eqb statusText) VALID_SCOPE_STATUS
              then toString status else Ret "Pending") ;;
  Ret {| in_name := trim nameText;
         in_cost := if numTruthy n then n else posZero;
         in_status := status' |}.

Fixpoint mapOutcome {A B} (f : A -> Outcome B) (l : list A) : Outcome (list B) :=
  match l with
  | [] => Ret []
  | x :: r => y <~ f x ;; ys <~ mapOutcome f r ;; Ret (y :: ys)
  end.

Definition sanitizeScopes (raw : value) : Outcome (list ScopeInput) :=
  if negb (truthy raw) || negb (isArray raw) then Ret []
  else
    match raw with
    | VArr items =>
        mapped <~ mapOutcome sanitizeScope items ;;
        Ret (filter (fun s => nonEmpty (in_name s)) mapped)
    | _ => Ret []
    end.

Definition dateJson (t : option Z) : json :=
  match t with Some x => JDate (DateAt x) | None => JNull end.

Definition textJson (t : option string) : json :=
  match t with Some x => JStr x | None => JNull end.

Definition idJson (t : option Z) : json :=
  match t with Some x => JNum (ofZ x) | None => JNull end.

Definition scopeJson (s : Scope) : json :=
  JObj [("id", JNum (ofZ (scope_id s)));
        ("bidId", JNum (ofZ (scope_bidId s)));
        ("name", JStr (scope_name s));
        ("cost", JNum (scope_cost s));
        ("status", JStr (scope_status s))].

Definition companyJson (c : Company) : json :=
  JObj [("id", JNum (ofZ (company_id c))); ("name", JStr (company_name c))].

Definition contactJson (c : Contact) : json :=
  JObj [("id", JNum (ofZ (contact_id c)));
        ("name", JStr (contact_name c));
        ("companyId", JNum (ofZ (contact_companyId c)))].

Definition bidColumns (b : Bid) : list (string * json) :=
  [("id", JNum (ofZ (bid_id b)));
   ("projectName", JStr (projectName b));
   ("clientCompanyId", JNum (ofZ (clientCompanyId b)));
   ("contactId", idJson (contactId b));
   ("proposalDate", dateJson (proposalDate b));
   ("dueDate", dateJson (dueDate b));
   ("followUpOn", dateJson (followUpOn b));
   ("jobLocation", textJson (jobLocation b));
   ("leadSource", textJson (leadSource b));
   ("bidStatus", JStr (bidStatus b))].

(** A written bid as returned with [include: { scopes: true }]. *)
Definition bidWithScopes (r : Bid * list Scope) : json :=
  JObj (bidColumns (fst r) ++ [("scopes", JArr (map scopeJson (snd r)))])%list.

Definition childJson (c : Child) : json := ofValue (child_row c).

(** A bid as read with all its relations. *)
Definition bidFullFields (b : BidFull) : list (string * json) :=
  (bidColumns (bf_bid b) ++
   [("clientCompany",
     match bf_company b with Some c => companyJson c | None => JNull end);
    ("contact",
     match bf_contact b with Some c => contactJson c | None => JNull end);
    ("scopes", JArr (map scopeJson (bf_scopes b)));
    ("notes", JArr (map childJson (bf_notes b)));
    ("tags", JArr (map childJson (bf_tags b)));
    ("attachments", JArr (map childJson (bf_attachments b)))])%list.

Section Routes.

Context {host : Host}.

Definition parseDateOrNull (v : value) : Outcome (option Date) :=
  if truthy v then d <~ newDate hostDateParse v ;; Ret (Some d) else Ret None.

(** [(s as string) || undefined]. *)
Definition orUndefined (s : option string) : option string :=
  match s with
  | Some x => if nonEmpty x then Some x else None
  | None => None
  end.

(** One record of the list response. *)
Definition listRecord (b : BidFull) : json :=
  JObj [("id", JNum (ofZ (bid_id (bf_bid b))));
        ("projectName", JStr (projectName (bf_bid b)));
        ("clientName",
         JStr match bf_company b with
              | Some c => company_name c
              | None => "—"
              end);
        ("amount", JNum (totalAmount (bf_scopes b)));
        ("proposalDate", dateJson (proposalDate (bf_bid b)));
        ("dueDate", dateJson (dueDate (bf_bid b)));
        ("followUpOn", dateJson (followUpOn (bf_bid b)));
        ("scopeStatus", JStr (aggregateScopeStatus (bf_scopes b)));
        ("bidStatus", JStr (bidStatus (bf_bid b)))].

(** GET /bids *)
Definition getBids : Handler :=
  fun req =>
    guarded (
      let status := orUndefined (q_status (query req)) in
      let search := trim (match q_search (query req) with
                          | Some x => x
                          | None => EmptyString
                          end) in
      let createdFrom := orUndefined (q_createdFrom (query req)) in
      let createdTo := orUndefined (q_createdTo (query req)) in
      let where_ :=
        {| w_bidStatus := status;
           w_search := if nonEmpty search then Some search else None;
           w_createdGte := option_map (newDateOfString hostDateParse) createdFrom;
           w_createdLte := option_map (newDateOfString hostDateParse) createdTo |} in
      results <- bid_findMany where_ ;;
      let mapped := map listRecord results in
      let mapped := redactForViewer req mapped in
      ret (Json 200 (JArr mapped))).

(** The filters of a list request with the blanks taken out: an empty
    text is no filter, and the search text counts without the white space
    around it. *)
Definition normalQuery (q : Query) : Query :=
  {| q_status := orUndefined (q_status q);
     q_search := orUndefined (option_map trim (q_search q));
     q_createdFrom := orUndefined (q_createdFrom q);
     q_createdTo := orUndefined (q_createdTo q) |}.

(** GET /bids/:id *)
Definition getBid : Handler :=
  fun req =>
    guarded (
      let id := stringToNumber (params_id req) in
      if negb (isFinite id)
      then ret (Json 400 (JObj [("error", JStr "Invalid id")]))
      else
        found <- bid_findUnique id ;;
        match found with
        | None => ret (Json 404 (JObj [("error", JStr "Not found")]))
        | Some b =>
            match roleOf req with
            | Some VIEWER =>
                let redacted := JObj (setField "scopes" JUndefined (bidFullFields b)) in
                ret (Json 200 redacted)
            | _ => ret (Json 200 (JObj (bidFullFields b)))
            end
        end).

(** [v ?? null] and [v || null]. *)
Definition orNull (v : value) : value := nullish v VNull.

Definition truthyOrNull (v : value) : value := if truthy v then v else VNull.

(** The [data] argument of the create. *)
Definition createData (b : value) (scopes : list ScopeInput) : Outcome BidData :=
  projectName <~ getProp b "projectName" ;;
  clientCompanyId <~ getProp b "clientCompanyId" ;;
  contactId <~ getProp b "contactId" ;;
  proposalDate <~ getProp b "proposalDate" ;;
  dueDate <~ getProp b "dueDate" ;;
  followUpOn <~ getProp b "followUpOn" ;;
  jobLocation <~ getProp b "jobLocation" ;;
  leadSource <~ getProp b "leadSource" ;;
  bidStatus <~ getProp b "bidStatus" ;;
  nameText <~ toString (nullish projectName (VStr EmptyString)) ;;
  proposal <~ parseDateOrNull proposalDate ;;
  due <~ parseDateOrNull dueDate ;;
  follow <~ parseDateOrNull followUpOn ;;
  Ret {| d_projectName := trim nameText;
         d_clientCompanyId := clientCompanyId;
         d_contactId := orNull contactId;
         d_proposalDate := proposal;
         d_dueDate := due;
         d_followUpOn := follow;
         d_jobLocation := orNull jobLocation;
         d_leadSource := orNull leadSource;
         d_bidStatus := bidStatus;
         d_scopes := scopes |}.

(** POST /bids *)
Definition postBid : Handler :=
  fun req =>
    guarded (
      raw <- lift (getProp (body req) "scopes") ;;
      scopes <- lift (sanitizeScopes raw) ;;
      data <- lift (createData (body req) scopes) ;;
      bid <- bid_create data ;;
      ret (Json 201 (bidWithScopes bid))).

(** The [data] argument of the update. *)
Definition updateData (b : value) (scopes : list ScopeInput) : Outcome BidData :=
  projectName <~ getProp b "projectName" ;;
  clientCompanyId <~ getProp b "clientCompanyId" ;;
  contactId <~ getProp b "contactId" ;;
  proposalDate <~ getProp b "proposalDate" ;;
  dueDate <~ getProp b "dueDate" ;;
  followUpOn <~ getProp b "followUpOn" ;;
  jobLocation <~ getProp b "jobLocation" ;;
  leadSource <~ getProp b "leadSource" ;;
  bidStatus <~ getProp b "bidStatus" ;;
  nameText <~ toString (nullish projectName (VStr EmptyString)) ;;
  proposal <~ parseDateOrNull proposalDate ;;
  due <~ parseDateOrNull dueDate ;;
  follow <~ parseDateOrNull followUpOn ;;
  Ret {| d_projectName := trim nameText;
         d_clientCompanyId := clientCompanyId;
         d_contactId := truthyOrNull contactId;
         d_proposalDate := proposal;
         d_dueDate := due;
         d_followUpOn := follow;
         d_jobLocation := truthyOrNull jobLocation;
         d_leadSource := truthyOrNull leadSource;
         d_bidStatus := bidStatus;
         d_scopes := scopes |}.

(** PUT /bids/:id: replace scopes atomically. *)
Definition putBid : Handler :=
  fun req =>
    guarded (
      let id := stringToNumber (params_id req) in
      if negb (isFinite id)
      then ret (Json 400 (JObj [("error", JStr "Invalid id")]))
      else
        let data := body req in
        raw <- lift (getProp data "scopes") ;;
        scopes <- lift (sanitizeScopes raw) ;;
        args <- lift (updateData data scopes) ;;
        updated <- transaction (
          _ <- scope_deleteMany id ;;
          bid_update id args) ;;
        ret (Json 200 (bidWithScopes updated))).

(** DELETE /bids/:id *)
Definition deleteBid : Handler :=
  fun req =>
    guarded (
      let id := parseInt10 (params_id req) in
      if negb (isFinite id)
      then ret (Json 400 (JObj [("error", JStr "Invalid id")]))
      else
        (* Clean children first, then delete the bid *)
        result <- transaction (
          _ <- scope_deleteMany id ;;
          _ <- note_deleteMany id ;;
          _ <- attachment_deleteMany id ;;
          _ <- bidTag_deleteMany id ;;
          bid_deleteMany id) ;;
        if result =? 0
        then ret (Json 404 (JObj [("error", JStr "Not found")]))
        else ret (End 204)).

(** ** The routes *)

Definition GET_bids : Handler := route [requirePerm Read] getBids.

Definition GET_bid : Handler := route [requirePerm Read] getBid.

Definition POST_bids : Handler :=
  route [requireRole [ADMIN; MANAGER; ESTIMATOR]] postBid.




Definition isViewer (req : Request) : bool :=
  match roleOf req with Some VIEWER => true | _ => false end.

End Routes.

End Bids.

(* ===================================================================== *)
(** * The bid editor of the client: [client/src/pages/bids/Edit.tsx] *)
(* ===================================================================== *)

Module Editor.
Import JS.

(** A scope row as the editor holds it. *)
Record Scope : Type := {
  name : string;
  cost : number;
  status : string
}.

(** [d ? d.slice(0, 10) : ''] *)
Definition dateToInput (d : option string) : string :=
  match d with
  | Some s => if nonEmpty s then substring 0 10 s else EmptyString
  | None => EmptyString
  end.

(** [v ? `${v}T00:00:00Z` : null] *)
Definition inputToISO (v : string) : option string :=
  if nonEmpty v then Some (v ++ "T00:00:00Z") else None.

(** [l.filter((x, idx) => p(x, idx))], the index counted from [idx]. *)
Fixpoint filterIndexed {A} (p : A -> nat -> bool) (idx : nat) (l : list A)
  : list A :=
  match l with
  | [] => []
  | x :: r =>
      if p x idx then x :: filterIndexed p (S idx) r
      else filterIndexed p (S idx) r
  end.

(** The state updates of the scope table, as functions of the previous
    state. *)
Definition addScopeRow (scopes : list Scope) : list Scope :=
  (scopes ++ [{| name := EmptyString; cost := posZero; status := "Pending" |}])%list.

Definition removeScopeRow (i : Z) (scopes : list Scope) : list Scope :=
  filterIndexed (fun _ idx => negb (Z.of_nat idx =? i)) 0 scopes.

End Editor.

(* ===================================================================== *)
(** * Sample data for the closed statements *)
(* ===================================================================== *)

Module Samples.
Import JS Store Http.

(** A host that reads no text but the date-only format, a schema whose
    [bidStatus] defaults to Active, a list query that returns every bid. *)
Definition host : Host :=
  {| hostDateParse := fun _ => InvalidDate;
     bidStatusDefault := Some "Active";
     findManyBids := fun _ d => Ret (bids d);
     totalAmount := fun _ => posZero;
     aggregateScopeStatus := fun _ => "Unknown" |}.

Definition emptyDb : Db :=
  {| companies := []; contacts := []; bids := []; scopes := [];
     notes := []; attachments := []; bidTags := [];
     nextCompanyId := 1; nextContactId := 1; nextBidId := 1;
     nextScopeId := 1 |}.

Definition fresh : World := {| db := emptyDb; calls := [] |}.

Definition num (z : Z) : value := VNum (ofZ z).

(** One company, one bid of it with three scopes. *)
Definition acme : Company := {| company_id := 1; company_name := "Acme" |}.

Definition roofBid : Bid :=
  {| bid_id := 1; projectName := "Roof"; clientCompanyId := 1;
     contactId := None; proposalDate := Some 1709596800000;
     dueDate := Some 1709596800000; followUpOn := None;
     jobLocation := None; leadSource := None; bidStatus := "Active" |}.

Definition scopeRow (id : Z) (name : string) (cost : Z) : Scope :=
  {| scope_id := id; scope_bidId := 1; scope_name := name;
     scope_cost := ofZ cost; scope_status := "Pending" |}.

Definition oneBidDb : Db :=
  {| companies := [acme]; contacts := []; bids := [roofBid];
     scopes := [scopeRow 1 "Tear-off" 100; scopeRow 2 "Shingles" 200;
                scopeRow 3 "Gutters" 300];
     notes := []; attachments := []; bidTags := [];
     nextCompanyId := 2; nextContactId := 1; nextBidId := 2;
     nextScopeId := 4 |}.

Definition oneBid : World := {| db := oneBidDb; calls := [] |}.

Definition importRow (project company proposal due status scope cost : string)
  : Importer.Row :=
  {| Importer.r_projectName := VStr project;
     Importer.r_clientCompany := VStr company;
     Importer.r_contactName := VUndefined;
     Importer.r_proposalDate := VStr proposal;
     Importer.r_dueDate := VStr due;
     Importer.r_jobLocation := VUndefined;
     Importer.r_leadSource := VUndefined;
     Importer.r_bidStatus := VStr status;
     Importer.r_scopeName := VStr scope;
     Importer.r_scopeCost := VStr cost;
     Importer.r_scopeStatus := VUndefined |}.

Definition noQuery : Bids.Query :=
  {| Bids.q_status := None; Bids.q_search := None;
     Bids.q_createdFrom := None; Bids.q_createdTo := None |}.

Definition request (r : option Bids.Role) (id : string) (payload : value)
  : Bids.Request :=
  {| Bids.user := option_map (fun x => {| Bids.user_id := 7; Bids.role := x |}) r;
     Bids.params_id := id;
     Bids.query := noQuery;
     Bids.body := payload |}.

Definition payload (company : Z) (scopes : value) : value :=
  VObj [("projectName", VStr "Roof"); ("clientCompanyId", num company);
        ("bidStatus", VStr "Hot"); ("scopes", scopes)].

Definition scopeIn (name : string) (cost : value) : value :=
  VObj [("name", VStr name); ("cost", cost)].

(** Three rows of one group: active, hot, active. *)
Definition elevationRows : list Importer.Row :=
  [importRow "Roof" "Acme" "2024-03-05" "05/03/2024" "active" "Tear-off" "100";
   importRow "Roof" "Acme" "2024-03-05" "05/03/2024" "hot" "Shingles" "1,200";
   importRow "Roof" "Acme" "2024-03-05" "05/03/2024" "active" "Gutters" "300"].

Definition draft (name : string) (cost : Z) : Importer.ScopeDraft :=
  {| Importer.sd_name := name; Importer.sd_cost := ofZ cost;
     Importer.sd_status := None |}.

Definition elevatedGroup : Importer.Group :=
  {| Importer.g_projectName := "Roof";
     Importer.g_clientCompany := "Acme";
     Importer.g_contactName := None;
     Importer.g_proposalDate := "2024-03-05";
     Importer.g_dueDate := "05/03/2024";
     Importer.g_jobLocation := None;
     Importer.g_leadSource := None;
     Importer.g_bidStatus := VStr "Hot";
     Importer.g_scopes :=
       [draft "Tear-off" 100; draft "Shingles" 1200; draft "Gutters" 300] |}.

(** Two rows whose (projectName, clientCompany) pairs differ. *)
Definition collidingRows : list Importer.Row :=
  [importRow "a||b" "c" "2024-03-05" "2024-03-06" "active" "First" "1";
   importRow "a" "b||c" "2024-04-01" "2024-04-02" "active" "Second" "2"].

(** Three groups; the second has a due date that is no date. *)
Definition mixedRows : list Importer.Row :=
  [importRow "Roof" "Acme" "2024-03-05" "05/03/2024" "active" "Tear-off" "100";
   importRow "Deck" "Acme" "2024-03-05" "soon" "hot" "Boards" "50";
   importRow "Fence" "Birch" "2024-04-01" "2024-04-02" "cold" "Posts" "75"].

(** A row with a negative cost. *)
Definition creditRows : list Importer.Row :=
  [importRow "Roof" "Acme" "2024-03-05" "2024-03-06" "active" "Credit" "-5"].

(** An update of bid 1 that names no scopes. *)
Definition updateWithoutScopes : Bids.Request :=
  request (Some Bids.MANAGER) "1" (payload 1 VNull).

(** An update of bid 1 by one scope, and the row it makes. *)
Definition updateWithOneScope : Bids.Request :=
  request (Some Bids.ADMIN) "1" (payload 1 (VArr [scopeIn "New" (VStr "5")])).

Definition newScopeRow : Scope :=
  {| scope_id := 4; scope_bidId := 1; scope_name := "New";
     scope_cost := ofZ 5; scope_status := "Pending" |}.

(** A create that names no scopes. *)
Definition createWithoutScopes : Bids.Request :=
  request (Some Bids.MANAGER) EmptyString
    (VObj [("projectName", VStr "Deck"); ("clientCompanyId", num 1);
           ("bidStatus", VStr "Cold")]).

Definition deckBid : Bid :=
  {| bid_id := 2; projectName := "Deck"; clientCompanyId := 1;
     contactId := None; proposalDate := None; dueDate := None;
     followUpOn := None; jobLocation := None; leadSource := None;
     bidStatus := "Cold" |}.

Definition roofBidUpdated : Bid :=
  {| bid_id := 1; projectName := "Roof"; clientCompanyId := 1;
     contactId := None; proposalDate := None; dueDate := None;
     followUpOn := None; jobLocation := None; leadSource := None;
     bidStatus := "Hot" |}.

(** A create with a status outside the five. *)
Definition createWithBogusStatus : Bids.Request :=
  request (Some Bids.ADMIN) EmptyString
    (VObj [("projectName", VStr "Deck"); ("clientCompanyId", num 1);
           ("bidStatus", VStr "bogus")]).

(** Two groups of one company that name the same contact. *)
Definition contactRows : list Importer.Row :=
  [{| Importer.r_projectName := VStr "Roof";
      Importer.r_clientCompany := VStr "Acme";
      Importer.r_contactName := VStr "Dana";
      Importer.r_proposalDate := VStr "2024-03-05";
      Importer.r_dueDate := VStr "06/03/2024";
      Importer.r_jobLocation := VUndefined;
      Importer.r_leadSource := VUndefined;
      Importer.r_bidStatus := VStr "active";
      Importer.r_scopeName := VStr "Tear-off";
      Importer.r_scopeCost := VStr "100";
      Importer.r_scopeStatus := VUndefined |};
   {| Importer.r_projectName := VStr "Deck";
      Importer.r_clientCompany := VStr "Acme";
      Importer.r_contactName := VStr " Dana ";
      Importer.r_proposalDate := VStr "2024-04-01";
      Importer.r_dueDate := VStr "2024-04-02";
      Importer.r_jobLocation := VUndefined;
      Importer.r_leadSource := VUndefined;
      Importer.r_bidStatus := VStr "hot";
      Importer.r_scopeName := VStr "Boards";
      Importer.r_scopeCost := VStr "50";
      Importer.r_scopeStatus := VUndefined |}].

(** A delete of bid 1. *)
Definition deleteFirst : Bids.Request := request (Some Bids.ADMIN) "1" VNull.

(** A row that names no project among two that do. *)
Definition blankRows : list Importer.Row :=
  [importRow "Roof" "Acme" "2024-03-05" "05/03/2024" "active" "Tear-off" "100";
   importRow "  " "Acme" "2024-03-05" "05/03/2024" "hot" "Lost row" "1";
   importRow "Roof" "Acme" "2024-03-05" "05/03/2024" "active" "Gutters" "300"].

(** Two list requests: no filter, and filters that are blank. *)
Definition listAll : Bids.Request := request (Some Bids.MANAGER) EmptyString VNull.

Definition listBlank : Bids.Request :=
  {| Bids.user := Bids.user listAll;
     Bids.params_id := EmptyString;
     Bids.query := {| Bids.q_status := Some EmptyString;
                      Bids.q_search := Some "  ";
                      Bids.q_createdFrom := None;
                      Bids.q_createdTo := Some EmptyString |};
     Bids.body := VNull |}.

End Samples.

(* ===================================================================== *)
(** * Properties *)
(* ===================================================================== *)

Import JS Store Http.

(** ** Association lists *)

Section AssocFacts.

Context {A : Type}.

Lemma assoc_snoc (k k' : string) (v : A) (l : list (string * A)) :
  assoc k (l ++ [(k', v)])%list =
  match assoc k l with
  | Some x => Some x
  | None => if String.eqb k k' then Some v else None
  end.
Proof.
  induction l as [|[k0 x] l IH]; simpl.
  - reflexivity.
  - destruct (String.eqb k k0); [reflexivity | exact IH].
Qed.

Lemma assoc_app_some (k : string) (v : A) (l1 l2 : list (string * A)) :
  assoc k l1 = Some v -> assoc k (l1 ++ l2)%list = Some v.
Proof.
  induction l1 as [|[k0 x] l1 IH]; simpl; [discriminate|].
  destruct (String.eqb k k0); auto.
Qed.

End AssocFacts.

Lemma strictEqStr_true (v : value) (s : string) :
  strictEqStr v s = true -> v = VStr s.
Proof.
  destruct v; simpl; try discriminate.
  intros H. apply String.eqb_eq in H. now subst.
Qed.

(** ** Grouping of the uploaded rows *)

Section Grouping.

Import Importer.

Lemma assoc_update (k k' : string) (f : Group -> Group) (l : Grouped) :
  assoc k (update k' f l) =
  if String.eqb k k' then option_map f (assoc k l) else assoc k l.
Proof.
  induction l as [|[k0 g] l IH]; simpl.
  - now destruct (String.eqb k k').
  - destruct (String.eqb k' k0) eqn:E'; simpl.
    + apply String.eqb_eq in E'. subst k0.
      destruct (String.eqb k k') eqn:E; reflexivity.
    + destruct (String.eqb k k0) eqn:E0.
      * apply String.eqb_eq in E0. subst k0.
        rewrite String.eqb_sym in E'. now rewrite E'.
      * exact IH.
Qed.

Lemma groupRow_discarded (grouped : Grouped) (r : Row) :
  keyOf r = None -> filed grouped r = grouped.
Proof.
  unfold keyOf, filed.
  destruct (negb (nonEmpty (cellOf (r_projectName r)))
            || negb (nonEmpty (cellOf (r_clientCompany r)))); [reflexivity|discriminate].
Qed.


Lemma hasBar_append (a b : string) : hasBar (a ++ b) = hasBar a || hasBar b.
Proof.
  induction a as [|ch a IH].
  - reflexivity.
  - change (hasBar (String ch (a ++ b)) = hasBar (String ch a) || hasBar b).
    cbn [hasBar]. rewrite IH. apply orb_assoc.
Qed.

Lemma hasBar_groupKey (p c : string) : hasBar (groupKey p c) = true.
Proof.
  unfold groupKey. rewrite !hasBar_append. apply orb_true_r.
Qed.

(** No key of the map names a member of [Object.prototype]. *)
Lemma groupKey_not_inherited (p c : string) :
  objectPrototype (groupKey p c) = None.
Proof.
  assert (N : forall name, hasBar name = false ->
                           String.eqb (groupKey p c) name = false).
  { intros name H. destruct (String.eqb (groupKey p c) name) eqn:E; [|reflexivity].
    apply String.eqb_eq in E. rewrite <- E, hasBar_groupKey in H. discriminate. }
  unfold objectPrototype, objectPrototypeFunctions. simpl existsb.
  rewrite !N by reflexivity. reflexivity.
Qed.

Lemma groupRows_snoc (rows : list Row) (r : Row) :
  grouping (rows ++ [r]) = filed (grouping rows) r.
Proof. unfold grouping. now rewrite fold_left_app. Qed.

Lemma firstNonActive_snoc (l : list value) (v : value) :
  firstNonActive (l ++ [v]) = elevate (Some (firstNonActive l)) v.
Proof.
  unfold firstNonActive, elevate.
  induction l as [|x l IH]; simpl.
  - unfold notActive. destruct (strictEqStr v "Active") eqn:E; simpl.
    + symmetry. now apply strictEqStr_true.
    + reflexivity.
  - destruct (notActive x) eqn:N.
    + unfold notActive in N. apply negb_true_iff in N. now rewrite N.
    + exact IH.
Qed.



End Grouping.

(** ** The helpers and the answers they give

    Whenever a helper returns, it returns the answer the vocabulary of the
    statements names; on text it always returns. *)

Section Answers.

Import Importer.

Context {host : Host}.

Local Open Scope store_scope.

Lemma bind_lift_ret {A B} (a : A) (k : A -> M B) :
  bind (lift (Ret a)) k = k a.
Proof. reflexivity. Qed.

Lemma bind_query {A B} (c : Call) (f : Db -> Outcome (A * Db)) (k : A -> M B)
      (w : World) :
  bind (Store.query c f) k w =
  match f (db w) with
  | Ret (a, d') => k a {| db := d'; calls := (calls w ++ [c])%list |}
  | Throw e => (Throw e, {| db := db w; calls := (calls w ++ [c])%list |})
  end.
Proof.
  unfold bind, Store.query. destruct (f (db w)) as [[a d']|e]; reflexivity.
Qed.

Lemma orElse_ret {A} (o : Outcome A) (a d : A) : o = Ret a -> orElse o d = a.
Proof. intros ->. reflexivity. Qed.

Lemma cell_ret (v : value) (s : string) : cell v = Ret s -> cellOf v = s.
Proof. apply orElse_ret. Qed.

Lemma cleanBidStatus_ret (v a : value) :
  cleanBidStatus v = Ret a -> bidStatusOf v = a.
Proof. apply orElse_ret. Qed.

Lemma toNumberOrZero_ret (v : value) (n : number) :
  toNumberOrZero v = Ret n -> costOf v = n.
Proof. apply orElse_ret. Qed.

Lemma cleanStatus_ret (v : value) (s : option string) :
  cleanStatus v = Ret s -> scopeStatusOf v = s.
Proof. apply orElse_ret. Qed.

(** A text is always read, as a date or as none. *)
Lemma parseDateLoose_text (t : string) :
  parseDateLoose (VStr t) = Ret (dateOf t).
Proof.
  unfold dateOf, parseDateLoose.
  destruct (negb (truthy (VStr t))); [reflexivity|].
  cbn [toString toPrimitive andThen stringOf].
  destruct (isoPrefix (chars (trim t))); [reflexivity|].
  destruct (matchDMY (chars (trim t))) as [[[m1 m2] m3]|]; reflexivity.
Qed.


Lemma dateOf_some (t : string) (d : Date) :
  dateOf t = Some d <-> parseDateLoose (VStr t) = Ret (Some d).
Proof.
  rewrite parseDateLoose_text. split; [now intros ->|].
  intros H. now inversion H.
Qed.

(** A number is always coerced, and a canonical status always read. *)
Lemma toNumberOrZero_number (n : number) :
  toNumberOrZero (VNum n) = Ret (costOf (VNum n)).
Proof. reflexivity. Qed.

Lemma cleanStatus_optValue (s : option string) :
  cleanStatus (optValue s) = Ret (scopeStatusOf (optValue s)).
Proof.
  unfold scopeStatusOf, cleanStatus.
  destruct s as [x|]; cbn [optValue nullish toString toPrimitive andThen stringOf].
  - destruct (negb (nonEmpty (trim x))); [reflexivity|].
    destruct (existsb (String.eqb (toLowerCase (trim x)))
                      ["pending"; "won"; "lost"]); [|reflexivity].
    destruct (toLowerCase (trim x)); reflexivity.
  - reflexivity.
Qed.

Lemma collect_map_ret {A B} (f : A -> Outcome B) (g : A -> B) (l : list A) :
  (forall a, f a = Ret (g a)) -> collect (map f l) = Ret (map g l).
Proof.
  intros H. induction l as [|a l IH]; [reflexivity|].
  cbn [map collect]. rewrite H, IH. reflexivity.
Qed.

(** The scopes of a group are always sanitized. *)
Lemma scopeCreates_ret (g : Group) : scopeCreates g = Ret (scopeInputs g).
Proof.
  unfold scopeCreates, scopeInputs. apply collect_map_ret.
  intros s. rewrite toNumberOrZero_number, cleanStatus_optValue. reflexivity.
Qed.

(** The loop body, when it returns, has filed the row. *)
Lemma groupRow_filed (grouped grouped' : Grouped) (r : Row) :
  groupRow grouped r = Ret grouped' -> grouped' = filed grouped r.
Proof.
  unfold groupRow, filed, andThen.
  destruct (cell (r_projectName r)) as [pn|] eqn:Pn; [|discriminate].
  destruct (cell (r_clientCompany r)) as [cc|] eqn:Cc; [|discriminate].
  rewrite (cell_ret _ _ Pn), (cell_ret _ _ Cc).
  destruct (negb (nonEmpty pn) || negb (nonEmpty cc));
    [intros H; now inversion H|].
  destruct (assoc (groupKey pn cc) grouped) as [g|].
  - destruct (cleanBidStatus (r_bidStatus r)) as [st|] eqn:St; [|discriminate].
    rewrite (cleanBidStatus_ret _ _ St).
    destruct (cell (r_scopeName r)) as [sn|] eqn:Sn; [|discriminate].
    destruct (toNumberOrZero (r_scopeCost r)) as [sc|] eqn:Sc; [|discriminate].
    destruct (cleanStatus (r_scopeStatus r)) as [ss|] eqn:Ss; [|discriminate].
    rewrite (cell_ret _ _ Sn), (toNumberOrZero_ret _ _ Sc),
      (cleanStatus_ret _ _ Ss).
    intros H. now inversion H.
  - destruct (cell (r_contactName r)) as [cn|] eqn:Cn; [|discriminate].
    destruct (cell (r_proposalDate r)) as [pd|] eqn:Pd; [|discriminate].
    destruct (cell (r_dueDate r)) as [dd|] eqn:Dd; [|discriminate].
    destruct (cell (r_jobLocation r)) as [jl|] eqn:Jl; [|discriminate].
    destruct (cell (r_leadSource r)) as [ls|] eqn:Ls; [|discriminate].
    destruct (cleanBidStatus (r_bidStatus r)) as [st|] eqn:St; [|discriminate].
    destruct (cell (r_scopeName r)) as [sn|] eqn:Sn; [|discriminate].
    destruct (toNumberOrZero (r_scopeCost r)) as [sc|] eqn:Sc; [|discriminate].
    destruct (cleanStatus (r_scopeStatus r)) as [ss|] eqn:Ss; [|discriminate].
    rewrite (cell_ret _ _ Cn), (cell_ret _ _ Pd), (cell_ret _ _ Dd),
      (cell_ret _ _ Jl), (cell_ret _ _ Ls), (cleanBidStatus_ret _ _ St),
      (cell_ret _ _ Sn), (toNumberOrZero_ret _ _ Sc), (cleanStatus_ret _ _ Ss).
    intros H. now inversion H.
Qed.

Lemma groupFrom_grouping (rows : list Row) (grouped grouped' : Grouped) :
  groupFrom grouped rows = Ret grouped' ->
  grouped' = fold_left filed rows grouped.
Proof.
  revert grouped. induction rows as [|r rows IH]; intros grouped; simpl.
  - intros H. now inversion H.
  - unfold andThen. destruct (groupRow grouped r) as [g1|] eqn:G; [|discriminate].
    intros H. apply groupRow_filed in G. subst g1. now apply IH.
Qed.

(** The grouping loop, when it returns, returns the grouping. *)
Lemma groupRows_grouping (rows : list Row) (grouped : Grouped) :
  groupRows rows = Ret grouped -> grouped = grouping rows.
Proof. apply groupFrom_grouping. Qed.

Lemma toString_primitive (v : value) (p : primitive) :
  primitiveOf v = Some p -> toString v = Ret (stringOf p).
Proof. destruct v; intros H; inversion H; reflexivity. Qed.









Lemma groupFrom_app (rows more : list Row) (grouped : Grouped) :
  groupFrom grouped (rows ++ more) =
  andThen (groupFrom grouped rows) (fun g => groupFrom g more).
Proof.
  revert grouped. induction rows as [|r rows IH]; intros grouped; simpl.
  - reflexivity.
  - unfold andThen at 1 3. destruct (groupRow grouped r); [apply IH|reflexivity].
Qed.

End Answers.

(** The commit of a group, once its two dates are read. *)
Ltac open_commitGroup g :=
  unfold Importer.commitGroup;
  rewrite (parseDateLoose_text (Importer.g_proposalDate g)), bind_lift_ret;
  cbv beta;
  rewrite (parseDateLoose_text (Importer.g_dueDate g)), bind_lift_ret;
  cbv beta.

(** ** The commit loop of the import *)

Section CommitLoop.

Import Importer.

Context {host : Host}.

Local Open Scope store_scope.

Lemma keepsBids_ret {A} (a : A) : keepsBids (ret a).
Proof. intros w o w' H. now inversion H. Qed.

Lemma keepsBids_bind {A B} (m : M A) (k : A -> M B) :
  keepsBids m -> (forall a, keepsBids (k a)) -> keepsBids (bind m k).
Proof.
  intros Hm Hk w o w'. unfold bind.
  destruct (m w) as [[a|e] w1] eqn:E; intros H.
  - rewrite (Hk a _ _ _ H). exact (Hm _ _ _ E).
  - inversion H; subst. exact (Hm _ _ _ E).
Qed.

Lemma addsItsBid_bind {A} (m : M A) (k : A -> M Bid) :
  keepsBids m -> (forall a, addsItsBid (k a)) -> addsItsBid (bind m k).
Proof.
  intros Hm Hk w o w'. unfold bind.
  destruct (m w) as [[a|e] w1] eqn:E; intros H.
  - pose proof (Hk a _ _ _ H) as K. rewrite (Hm _ _ _ E) in K. exact K.
  - inversion H; subst. exact (Hm _ _ _ E).
Qed.

Lemma keepsBids_query {A} (c : Call) (f : Db -> Outcome (A * Db)) :
  (forall d a d', f d = Ret (a, d') -> bids d' = bids d) ->
  keepsBids (query c f).
Proof.
  intros Hf w o w'. unfold query.
  destruct (f (db w)) as [[a d']|e] eqn:E; intros H; inversion H; subst; simpl.
  - exact (Hf _ _ _ E).
  - reflexivity.
Qed.

Lemma keepsBids_company_findFirst name : keepsBids (company_findFirst name).
Proof. apply keepsBids_query. intros d a d' H. now inversion H. Qed.

Lemma keepsBids_company_create name : keepsBids (company_create name).
Proof. apply keepsBids_query. intros d a d' H. now inversion H. Qed.

Lemma keepsBids_contact_findFirst name c : keepsBids (contact_findFirst name c).
Proof. apply keepsBids_query. intros d a d' H. now inversion H. Qed.

Lemma keepsBids_contact_create name c : keepsBids (contact_create name c).
Proof.
  apply keepsBids_query. intros d a d'. unfold contactCreate, andThen.
  destruct (requireCompany d c); intros H; now inversion H.
Qed.

Lemma bid_create_adds (data : BidData) (w : World) (o : Outcome (Bid * list Scope))
      (w' : World) :
  bid_create data w = (o, w') ->
  match o with
  | Ret (b, rows) =>
      newBidRow (db w) data = Ret b
      /\ rows = scopeRows (bid_id b) (nextScopeId (db w)) (d_scopes data)
      /\ bids (db w') = (bids (db w) ++ [b])%list
      /\ scopes (db w') = (scopes (db w) ++ rows)%list
  | Throw _ => db w' = db w
  end.
Proof.
  unfold bid_create, query, bidCreate, andThen.
  destruct (newBidRow (db w) data) as [b|e]; intros H; inversion H; subst; simpl.
  - repeat split.
  - reflexivity.
Qed.

Lemma addsItsBid_commitGroup (g : Group) : addsItsBid (commitGroup g).
Proof.
  open_commitGroup g.
  destruct (dateOf (g_proposalDate g)) as [p|];
    [destruct (dateOf (g_dueDate g)) as [d|]|].
  2,3: intros w o w' H; inversion H; subst; reflexivity.
  apply addsItsBid_bind; [apply keepsBids_company_findFirst|]. intros found.
  apply addsItsBid_bind.
  { destruct found; [apply keepsBids_ret | apply keepsBids_company_create]. }
  intros company.
  apply addsItsBid_bind.
  { destruct (g_contactName g) as [name|]; [|apply keepsBids_ret].
    apply keepsBids_bind; [apply keepsBids_contact_findFirst|].
    intros [c|]; [apply keepsBids_ret|].
    apply keepsBids_bind; [apply keepsBids_contact_create|].
    intros c. apply keepsBids_ret. }
  intros contact. rewrite scopeCreates_ret, bind_lift_ret. cbv beta.
  intros w o w'. unfold bind.
  match goal with |- context [bid_create ?d w] =>
    destruct (bid_create d w) as [[[b rows]|e] w1] eqn:E end;
    intros H; inversion H; subst; apply bid_create_adds in E.
  - simpl. tauto.
  - now rewrite E.
Qed.



(** One turn either commits one bid or reports one error. *)
Lemma commitOne_cases (kg : string * Group) acc (w : World) :
  exists res errs w',
    commitOne kg acc w = (Ret ((fst acc ++ res)%list, (snd acc ++ errs)%list), w')
    /\ commitOne kg ([], []) w = (Ret (res, errs), w')
    /\ bids (db w') = (bids (db w) ++ res)%list
    /\ (List.length res + List.length errs = 1)%nat.
Proof.
  unfold commitOne, tryCatch, bind.
  destruct (commitGroup (snd kg) w) as [[b|e] w1] eqn:E;
    pose proof (addsItsBid_commitGroup _ _ _ _ E) as K; simpl in K.
  - exists [b], [], w1. simpl. rewrite app_nil_r. auto.
  - exists [], [{| err_key := fst kg; err_message := message e |}], w1.
    simpl. rewrite !app_nil_r. auto.
Qed.



End CommitLoop.

(** ** Integers as numbers *)

Section Numbers.






End Numbers.

(** ** The groups an import commits *)

Section Commits.

Import Importer.

Context {host : Host}.

Local Open Scope store_scope.


















End Commits.

(** ** Bulk import: the claims *)

Section ImportClaims.

Import Importer.

Context {host : Host}.




End ImportClaims.

(** ** Replacing the scope set of a bid *)

Section ReplaceScopes.

Import Bids.

Context {host : Host}.

Local Open Scope store_scope.

Lemma scopeRows_owner (key first : Z) (l : list ScopeInput) (other : Z) :
  filter (fun s => scope_bidId s =? other) (scopeRows key first l) =
  if key =? other then scopeRows key first l else [].
Proof.
  revert first. induction l as [|i l IH]; intros first; simpl.
  - now destruct (key =? other).
  - rewrite IH. now destruct (key =? other).
Qed.

Lemma filter_owner_removed (key other : Z) (l : list Scope) :
  filter (fun s => scope_bidId s =? other)
         (filter (fun s => negb (scope_bidId s =? key)) l) =
  if other =? key then [] else filter (fun s => scope_bidId s =? other) l.
Proof.
  induction l as [|s l IH]; simpl.
  - now destruct (other =? key).
  - destruct (scope_bidId s =? key) eqn:K; simpl.
    + rewrite IH. apply Z.eqb_eq in K.
      destruct (other =? key) eqn:O; [reflexivity|].
      rewrite K, Z.eqb_sym, O. reflexivity.
    + destruct (scope_bidId s =? other) eqn:O; rewrite IH.
      * apply Z.eqb_eq in O. rewrite <- O, K. reflexivity.
      * reflexivity.
Qed.

(** The row checks read the company and contact tables only. *)
Lemma updatedRow_reads (d d' : Db) (old : Bid) (args : BidData) (u : UpdateArgs) :
  companies d' = companies d -> contacts d' = contacts d ->
  updatedRow d' old args u = updatedRow d old args u.
Proof.
  intros C K.
  unfold updatedRow, requireCompany, requireContact, findCompany, findContact.
  now rewrite C, K.
Qed.

Lemma updatedBidRow_reads (d d' : Db) (old : Bid) (args : BidData) :
  companies d' = companies d -> contacts d' = contacts d ->
  updatedBidRow d' old args = updatedBidRow d old args.
Proof.
  intros C K. unfold updatedBidRow.
  destruct (updateArgs args) as [u|e]; [|reflexivity].
  now apply updatedRow_reads.
Qed.

(** Deleting the scopes of a bid and then updating it, on the tables: the
    outcome, case by case. *)
Lemma replace_steps_cases (id : number) (args : BidData) (d : Db) :
  andThen (scopeDeleteMany id d) (fun r => bidUpdate id args (snd r)) =
  match asInteger id with
  | None => Throw (ValidationError "Invalid value for bidId")
  | Some key =>
      match updateArgs args with
      | Throw e => Throw e
      | Ret u =>
          match findBid d key with
          | None =>
              Throw (KnownRequestError "P2025" "Record to update not found")
          | Some old =>
              match updatedBidRow d old args with
              | Throw e => Throw e
              | Ret b =>
                  let kept := filter (fun s => negb (scope_bidId s =? key))
                                     (scopes d) in
                  let rows := scopeRows key (nextScopeId d) (d_scopes args) in
                  let d' :=
                    withScopes
                      (withBids (withScopes d kept (nextScopeId d))
                         (replaceBid b (bids d)) (nextBidId d))
                      (kept ++ rows)%list
                      (nextScopeId d + Z.of_nat (List.length rows)) in
                  Ret ((b, scopesOf d' key), d')
              end
          end
      end
  end.
Proof.
  unfold scopeDeleteMany, bidUpdate, intArg, andThen.
  destruct (asInteger id) as [key|] eqn:I; [|reflexivity].
  cbv beta iota zeta. simpl snd.
  destruct (updateArgs args) as [u|e] eqn:UA; [|reflexivity].
  set (d1 := withScopes d _ _).
  change (findBid d1 key) with (findBid d key).
  destruct (findBid d key) as [old|] eqn:F; [|reflexivity].
  rewrite (updatedRow_reads d d1 old args u eq_refl eq_refl).
  assert (E : updatedBidRow d old args = updatedRow d old args u)
    by (unfold updatedBidRow; now rewrite UA).
  rewrite E.
  destruct (updatedRow d old args u) as [b|e]; reflexivity.
Qed.

Lemma replace_steps (id : number) (args : BidData) (d : Db) :
  match andThen (scopeDeleteMany id d) (fun r => bidUpdate id args (snd r)) with
  | Ret ((b, rows), d') =>
      exists key old,
        asInteger id = Some key
        /\ findBid d key = Some old
        /\ updatedBidRow d old args = Ret b
        /\ bids d' = replaceBid b (bids d)
        /\ scopesOf d' key = scopeRows key (nextScopeId d) (d_scopes args)
        /\ rows = scopesOf d' key
        /\ forall other, other <> key -> scopesOf d' other = scopesOf d other
  | Throw _ => True
  end.
Proof.
  rewrite replace_steps_cases.
  destruct (asInteger id) as [key|] eqn:I; [|exact Logic.I].
  destruct (updateArgs args) as [u|e] eqn:UA; [|exact Logic.I].
  destruct (findBid d key) as [old|] eqn:F; [|exact Logic.I].
  destruct (updatedBidRow d old args) as [b|e] eqn:U; [|exact Logic.I].
  cbv zeta.
  exists key, old. unfold scopesOf. simpl.
  rewrite !filter_app, !scopeRows_owner, !filter_owner_removed, !Z.eqb_refl.
  repeat (split; [solve [auto]|]).
  intros other Ne.
  rewrite filter_app, scopeRows_owner, filter_owner_removed.
  destruct (other =? key) eqn:O; [apply Z.eqb_eq in O; contradiction|].
  rewrite Z.eqb_sym, O. apply app_nil_r.
Qed.

(** The two steps succeed on a bid that exists and whose new row the store
    accepts. *)
Lemma replace_steps_run (id : number) (key : Z) (args : BidData) (d : Db)
      (old b : Bid) :
  asInteger id = Some key ->
  findBid d key = Some old ->
  updatedBidRow d old args = Ret b ->
  exists d',
    andThen (scopeDeleteMany id d) (fun r => bidUpdate id args (snd r))
    = Ret ((b, scopeRows key (nextScopeId d) (d_scopes args)), d')
    /\ bids d' = replaceBid b (bids d)
    /\ scopesOf d' key = scopeRows key (nextScopeId d) (d_scopes args)
    /\ forall other, other <> key -> scopesOf d' other = scopesOf d other.
Proof.
  intros I F R.
  pose proof (replace_steps id args d) as T.
  rewrite replace_steps_cases in *. rewrite I, F, R in *.
  assert (UA : exists u, updateArgs args = Ret u).
  { unfold updatedBidRow in R. destruct (updateArgs args) as [u|e];
      [now exists u|discriminate]. }
  destruct UA as [u UA]. rewrite UA in *. cbv zeta in *.
  destruct T as (key' & old' & I' & _ & _ & B & Sc & _ & Oth).
  inversion I'; subst key'.
  eexists. split; [|split; [exact B|split; [exact Sc|exact Oth]]].
  now rewrite Sc.
Qed.

(** The transaction of the update route runs the two steps and keeps their
    effect only when both succeed. *)
Lemma replace_transaction (id : number) (args : BidData) (w : World) :
  exists cs,
    transaction (_ <- scope_deleteMany id ;; bid_update id args) w =
    match andThen (scopeDeleteMany id (db w))
                  (fun r => bidUpdate id args (snd r)) with
    | Ret (a, d') => (Ret a, {| db := d'; calls := cs |})
    | Throw e => (Throw e, {| db := db w; calls := cs |})
    end.
Proof.
  unfold transaction, bind, scope_deleteMany, bid_update, Store.query, andThen.
  destruct (scopeDeleteMany id (db w)) as [[n d1]|e]; simpl.
  - destruct (bidUpdate id args d1) as [[a d2]|e]; eexists; reflexivity.
  - eexists; reflexivity.
Qed.

Lemma asInteger_isFinite (n : number) (z : Z) :
  asInteger n = Some z -> isFinite n = true.
Proof. destruct n; simpl; intros H; try discriminate; reflexivity. Qed.

Lemma updateData_carries (b : value) (scopes : list ScopeInput) (data : BidData) :
  updateData b scopes = Ret data -> d_scopes data = scopes.
Proof.
  unfold updateData, andThen. intros U.
  repeat match type of U with
         | match ?x with _ => _ end = _ => destruct x; [|discriminate]
         end.
  now inversion U.
Qed.

(** The update route on a payload it can read, for a bid that exists and
    whose new row the store accepts. *)
Lemma putBid_replaces (req : Request) (w : World) (id : Z)
      (incoming : list ScopeInput) (args : BidData) (old b : Bid) :
  asInteger (stringToNumber (params_id req)) = Some id ->
  andThen (getProp (body req) "scopes") sanitizeScopes = Ret incoming ->
  updateData (body req) incoming = Ret args ->
  findBid (db w) id = Some old ->
  updatedBidRow (db w) old args = Ret b ->
  exists w',
    putBid req w
    = (Json 200 (bidWithScopes
                   (b, scopeRows id (nextScopeId (db w)) incoming)), w')
    /\ bids (db w') = replaceBid b (bids (db w))
    /\ scopesOf (db w') id = scopeRows id (nextScopeId (db w)) incoming
    /\ forall other, other <> id ->
         scopesOf (db w') other = scopesOf (db w) other.
Proof.
  intros I S U F R.
  unfold putBid, guarded.
  rewrite (asInteger_isFinite _ _ I). unfold negb.
  unfold bind at 1, lift at 1.
  destruct (getProp (body req) "scopes") as [raw|e]; [|discriminate].
  cbn [andThen] in S.
  unfold bind at 1, lift at 1. rewrite S.
  unfold bind at 1, lift at 1. rewrite U.
  unfold bind at 1.
  destruct (replace_transaction (stringToNumber (params_id req)) args w)
    as [cs Tr].
  rewrite Tr. clear Tr.
  destruct (replace_steps_run _ _ args (db w) old b I F R)
    as (d' & E & B & Sc & Oth).
  rewrite E. rewrite (updateData_carries _ _ _ U) in *.
  unfold ret. eexists. split; [reflexivity|]. simpl.
  split; [exact B|split; [exact Sc|exact Oth]].
Qed.

(** C1. An update replaces the scope set in one transaction with the bid
    row.  An update of a bid that exists, with a payload the route can read
    and a new row the store accepts, answers with the updated bid: the bid
    row has been rewritten and the bid owns exactly the rows made from the
    sanitized incoming scopes, whatever scopes it had, the scopes of other
    bids being untouched.  The route answers with a bid in no other case,
    and with every other answer the store is exactly what it was. *)
Theorem update_replaces_scopes_atomically (req : Request) (w : World) :
  (forall id incoming args old b,
     asInteger (stringToNumber (params_id req)) = Some id ->
     andThen (getProp (body req) "scopes") sanitizeScopes = Ret incoming ->
     updateData (body req) incoming = Ret args ->
     findBid (db w) id = Some old ->
     updatedBidRow (db w) old args = Ret b ->
     exists w',
       putBid req w
       = (Json 200 (bidWithScopes
                      (b, scopeRows id (nextScopeId (db w)) incoming)), w')
       /\ bids (db w') = replaceBid b (bids (db w))
       /\ scopesOf (db w') id = scopeRows id (nextScopeId (db w)) incoming
       /\ forall other, other <> id ->
            scopesOf (db w') other = scopesOf (db w) other)
  /\ match putBid req w with
     | (Json 200 out, w') =>
         exists id incoming args old b,
           asInteger (stringToNumber (params_id req)) = Some id
           /\ andThen (getProp (body req) "scopes") sanitizeScopes = Ret incoming
           /\ updateData (body req) incoming = Ret args
           /\ findBid (db w) id = Some old
           /\ updatedBidRow (db w) old args = Ret b
           /\ bids (db w') = replaceBid b (bids (db w))
           /\ scopesOf (db w') id = scopeRows id (nextScopeId (db w)) incoming
           /\ (forall other, other <> id ->
                 scopesOf (db w') other = scopesOf (db w) other)
           /\ out = bidWithScopes (b, scopesOf (db w') id)
     | (_, w') => db w' = db w
     end.
Proof.
  split; [exact (putBid_replaces req w)|].
  unfold putBid, guarded.
  destruct (isFinite (stringToNumber (params_id req))); unfold negb;
    cbv iota; [|reflexivity].
  unfold bind at 1, lift at 1.
  destruct (getProp (body req) "scopes") as [raw|e] eqn:P; [|reflexivity].
  unfold bind at 1, lift at 1.
  destruct (sanitizeScopes raw) as [incoming|e] eqn:S; [|reflexivity].
  unfold bind at 1, lift at 1.
  destruct (updateData (body req) incoming) as [args|e] eqn:U; [|reflexivity].
  unfold bind at 1.
  destruct (replace_transaction (stringToNumber (params_id req)) args w)
    as [cs T].
  rewrite T. clear T.
  pose proof (replace_steps (stringToNumber (params_id req)) args (db w)) as R.
  destruct (andThen (scopeDeleteMany (stringToNumber (params_id req)) (db w))
                    (fun r => bidUpdate (stringToNumber (params_id req)) args (snd r)))
    as [[[b rows] d']|e]; [|reflexivity].
  destruct R as (key & old & I & F & R & B & Sc & Rw & Oth).
  unfold ret. cbv iota beta. simpl db.
  exists key, incoming, args, old, b.
  rewrite (updateData_carries _ _ _ U) in Sc. simpl andThen. rewrite S, Rw.
  repeat split; assumption.
Qed.

End ReplaceScopes.

(** ** Authorization *)

Section Authorization.

Import Bids.

Context {host : Host}.


End Authorization.

(** ** Costs *)

Section Costs.

Import Importer Bids.

Context {host : Host}.

Local Open Scope store_scope.

Lemma scopesFrom_refl (P : number -> Prop) (d : Db) : scopesFrom P d d.
Proof. intros s H. now left. Qed.

Lemma scopesFrom_trans (P : number -> Prop) (d1 d2 d3 : Db) :
  scopesFrom P d1 d2 -> scopesFrom P d2 d3 -> scopesFrom P d1 d3.
Proof.
  intros H12 H23 s H. destruct (H23 s H) as [H2|H2]; [|now right].
  exact (H12 s H2).
Qed.

Lemma scopesFrom_same (P : number -> Prop) (d d' : Db) :
  scopes d' = scopes d -> scopesFrom P d d'.
Proof. intros E s H. left. now rewrite <- E. Qed.

Lemma respects_ret (R : Db -> Db -> Prop) {A} (a : A) :
  (forall d, R d d) -> respects R (ret a).
Proof. intros Rr w o w' H. inversion H; subst. apply Rr. Qed.

Lemma respects_throw (R : Db -> Db -> Prop) {A} (e : Error) :
  (forall d, R d d) -> respects R (@throw A e).
Proof. intros Rr w o w' H. inversion H; subst. apply Rr. Qed.

Lemma respects_lift (R : Db -> Db -> Prop) {A} (o : Outcome A) :
  (forall d, R d d) -> respects R (lift o).
Proof. intros Rr w o' w' H. inversion H; subst. apply Rr. Qed.

Lemma respects_bind (R : Db -> Db -> Prop) {A B} (m : M A) (k : A -> M B) :
  (forall d1 d2 d3, R d1 d2 -> R d2 d3 -> R d1 d3) ->
  respects R m -> (forall a, respects R (k a)) -> respects R (bind m k).
Proof.
  intros Rt Hm Hk w o w'. unfold bind.
  destruct (m w) as [[a|e] w1] eqn:E; intros H.
  - exact (Rt _ _ _ (Hm _ _ _ E) (Hk a _ _ _ H)).
  - inversion H; subst. exact (Hm _ _ _ E).
Qed.

Lemma respects_tryCatch (R : Db -> Db -> Prop) {A} (m : M A) (h : Error -> M A) :
  (forall d1 d2 d3, R d1 d2 -> R d2 d3 -> R d1 d3) ->
  respects R m -> (forall e, respects R (h e)) -> respects R (tryCatch m h).
Proof.
  intros Rt Hm Hh w o w'. unfold tryCatch.
  destruct (m w) as [[a|e] w1] eqn:E; intros H.
  - inversion H; subst. exact (Hm _ _ _ E).
  - exact (Rt _ _ _ (Hm _ _ _ E) (Hh e _ _ _ H)).
Qed.

Lemma respects_transaction (R : Db -> Db -> Prop) {A} (m : M A) :
  (forall d, R d d) -> respects R m -> respects R (transaction m).
Proof.
  intros Rr Hm w o w'. unfold transaction.
  destruct (m w) as [[a|e] w1] eqn:E; intros H; inversion H; subst; simpl.
  - exact (Hm _ _ _ E).
  - apply Rr.
Qed.

Lemma respects_query (R : Db -> Db -> Prop) {A} (c : Call)
      (f : Db -> Outcome (A * Db)) :
  (forall d, R d d) ->
  (forall d a d', f d = Ret (a, d') -> R d d') ->
  respects R (Store.query c f).
Proof.
  intros Rr Hf w o w'. unfold Store.query.
  destruct (f (db w)) as [[a d']|e] eqn:E; intros H; inversion H; subst; simpl.
  - exact (Hf _ _ _ E).
  - apply Rr.
Qed.

Lemma scopeRows_costs (P : number -> Prop) (key first : Z)
      (l : list ScopeInput) :
  Forall (fun i => P (in_cost i)) l ->
  Forall (fun s => P (scope_cost s)) (scopeRows key first l).
Proof.
  intros H. revert first. induction H as [|i l Pi _ IH]; intros first; simpl.
  - constructor.
  - constructor; [exact Pi | apply IH].
Qed.

Lemma scopesFrom_appended (P : number -> Prop) (d d' : Db) (rows keep : list Scope) :
  scopes d' = (keep ++ rows)%list ->
  (forall s, In s keep -> In s (scopes d)) ->
  Forall (fun s => P (scope_cost s)) rows ->
  scopesFrom P d d'.
Proof.
  intros E K F s H. rewrite E in H. apply in_app_or in H.
  destruct H as [H|H]; [left; now apply K|right].
  rewrite Forall_forall in F. now apply F.
Qed.

(** A create writes scopes with the costs it is given. *)
Lemma respects_bid_create (P : number -> Prop) (data : BidData) :
  Forall (fun i => P (in_cost i)) (d_scopes data) ->
  respects (scopesFrom P) (bid_create data).
Proof.
  intros F. apply respects_query; [apply scopesFrom_refl|].
  intros d [b rows] d'. unfold bidCreate, andThen.
  destruct (newBidRow d data) as [b'|e]; [|discriminate].
  intros H. inversion H; subst.
  eapply scopesFrom_appended; [reflexivity|auto|].
  now apply scopeRows_costs.
Qed.

Lemma respects_bid_update (P : number -> Prop) (id : number) (data : BidData) :
  Forall (fun i => P (in_cost i)) (d_scopes data) ->
  respects (scopesFrom P) (bid_update id data).
Proof.
  intros F. apply respects_query; [apply scopesFrom_refl|].
  intros d [b rows] d'. unfold bidUpdate, andThen.
  destruct (intArg "id" (VNum id)) as [key|e]; [|discriminate].
  destruct (updateArgs data) as [u|e]; [|discriminate].
  destruct (findBid d key) as [old|]; [|discriminate].
  destruct (updatedRow d old data u) as [b'|e]; [|discriminate].
  intros H. inversion H; subst.
  eapply scopesFrom_appended; [reflexivity|auto|].
  now apply scopeRows_costs.
Qed.

Lemma respects_scope_deleteMany (P : number -> Prop) (id : number) :
  respects (scopesFrom P) (scope_deleteMany id).
Proof.
  apply respects_query; [apply scopesFrom_refl|].
  intros d n d'. unfold scopeDeleteMany, andThen.
  destruct (intArg "bidId" (VNum id)) as [key|e]; [|discriminate].
  intros H. inversion H; subst. intros s Hs. left.
  simpl in Hs. apply filter_In in Hs. tauto.
Qed.

(** *** The two coercions *)

Lemma toNumberOrZero_finite (x : value) : isFinite (costOf x) = true.
Proof.
  unfold costOf, toNumberOrZero.
  destruct (toString (nullish x (VStr EmptyString))) as [text|e];
    [|reflexivity].
  cbn [andThen orElse].
  destruct (isFinite (stringToNumber (stripSeparators text))) eqn:E;
    [exact E | reflexivity].
Qed.

(** A scope that is sanitized: what was read and converted on the way. *)
Lemma sanitizeScope_ret (s : value) (out : ScopeInput) :
  sanitizeScope s = Ret out ->
  exists name nameText cost n status statusText,
    getProp s "name" = Ret name
    /\ toString (nullish name (VStr EmptyString)) = Ret nameText
    /\ getProp s "cost" = Ret cost
    /\ toNumber (nullish cost (VNum posZero)) = Ret n
    /\ getProp s "status" = Ret status
    /\ toString status = Ret statusText
    /\ out = {| in_name := trim nameText;
                in_cost := if numTruthy n then n else posZero;
                in_status := if existsb (String.eqb statusText) VALID_SCOPE_STATUS
                             then statusText else "Pending" |}.
Proof.
  unfold sanitizeScope, andThen.
  destruct (getProp s "name") as [name|] eqn:Pn; [|discriminate].
  destruct (toString (nullish name (VStr EmptyString))) as [nameText|] eqn:Tn;
    [|discriminate].
  destruct (getProp s "cost") as [cost|] eqn:Pc; [|discriminate].
  destruct (toNumber (nullish cost (VNum posZero))) as [n|] eqn:Tc;
    [|discriminate].
  destruct (getProp s "status") as [status|] eqn:Ps; [|discriminate].
  destruct (toString status) as [statusText|] eqn:St; [|discriminate].
  intros H. exists name, nameText, cost, n, status, statusText.
  repeat (split; [first [reflexivity | assumption]|]).
  destruct (existsb (String.eqb statusText) VALID_SCOPE_STATUS);
    inversion H; reflexivity.
Qed.

(** A scope is sanitized exactly when it is an object (or any value but
    [null] and [undefined]) whose name, cost and status convert. *)
Lemma sanitizeScope_returns (s : value) :
  (exists out, sanitizeScope s = Ret out) <->
  exists name cost status,
    getProp s "name" = Ret name /\ getProp s "cost" = Ret cost
    /\ getProp s "status" = Ret status
    /\ throws (toString (nullish name (VStr EmptyString))) = false
    /\ throws (toNumber (nullish cost (VNum posZero))) = false
    /\ throws (toString status) = false.
Proof.
  split.
  - intros [out H]. apply sanitizeScope_ret in H.
    destruct H as (name & nameText & cost & n & status & statusText
                   & Pn & Tn & Pc & Tc & Ps & Ts & _).
    exists name, cost, status. rewrite Tn, Tc, Ts. repeat split; assumption.
  - intros (name & cost & status & Pn & Pc & Ps & Tn & Tc & Ts).
    unfold sanitizeScope, andThen. rewrite Pn, Pc, Ps.
    destruct (toString (nullish name (VStr EmptyString))); [|discriminate].
    destruct (toNumber (nullish cost (VNum posZero))); [|discriminate].
    destruct (toString status) as [statusText|]; [|discriminate].
    destruct (existsb (String.eqb statusText) VALID_SCOPE_STATUS); eauto.
Qed.

Lemma sanitizeScope_cost (s : value) (out : ScopeInput) :
  sanitizeScope s = Ret out ->
  isNaN (in_cost out) = false
  /\ forall c n, getProp s "cost" = Ret c ->
       toNumber (nullish c (VNum posZero)) = Ret n ->
       in_cost out = if numTruthy n then n else posZero.
Proof.
  intros H. apply sanitizeScope_ret in H.
  destruct H as (name & nameText & cost & n & status & statusText
                 & _ & _ & Pc & Tc & _ & _ & ->).
  cbn [in_cost]. split.
  - now destruct n.
  - intros c n' Pc' Tc'. rewrite Pc in Pc'. inversion Pc'; subst c.
    rewrite Tc in Tc'. now inversion Tc'.
Qed.

Lemma mapOutcome_Forall {A B} (f : A -> Outcome B) (P : B -> Prop)
      (l : list A) (out : list B) :
  (forall x y, f x = Ret y -> P y) ->
  mapOutcome f l = Ret out -> Forall P out.
Proof.
  intros Hf. revert out. induction l as [|x l IH]; simpl; intros out H.
  - inversion H. constructor.
  - unfold andThen in H.
    destruct (f x) as [y|] eqn:E; [|discriminate].
    destruct (mapOutcome f l) as [ys|]; [|discriminate].
    inversion H; subst. constructor; [exact (Hf _ _ E) | now apply IH].
Qed.

Lemma sanitizeScopes_costs (raw : value) (out : list ScopeInput) :
  sanitizeScopes raw = Ret out ->
  Forall (fun i => isNaN (in_cost i) = false) out.
Proof.
  unfold sanitizeScopes.
  destruct (negb (truthy raw) || negb (isArray raw)).
  { intros H. inversion H. constructor. }
  destruct raw; try (intros H; inversion H; constructor).
  unfold andThen.
  destruct (mapOutcome sanitizeScope items) as [mapped|] eqn:E; [|discriminate].
  intros H. inversion H; subst.
  apply mapOutcome_Forall with (P := fun i => isNaN (in_cost i) = false) in E.
  - rewrite Forall_forall in *. intros i Hi. apply filter_In in Hi.
    now apply E.
  - intros x y Hy. now apply sanitizeScope_cost in Hy.
Qed.

Lemma scopeCreates_costs (g : Group) :
  Forall (fun i => isFinite (in_cost i) = true) (scopeInputs g).
Proof.
  unfold scopeInputs. rewrite Forall_forall. intros i Hi.
  apply in_map_iff in Hi. destruct Hi as (s & E & _). subst i. simpl.
  apply toNumberOrZero_finite.
Qed.

Lemma respects_commitGroup (g : Group) :
  respects (scopesFrom finiteCost) (commitGroup g).
Proof.
  pose proof (scopesFrom_refl finiteCost) as Rr.
  pose proof (scopesFrom_trans finiteCost) as Rt.
  open_commitGroup g.
  destruct (dateOf (g_proposalDate g)) as [p|];
    [destruct (dateOf (g_dueDate g)) as [d|]|];
    try (now apply respects_throw).
  apply respects_bind; [exact Rt| |].
  { apply respects_query; [exact Rr|]. intros d0 a d' H. inversion H. apply Rr. }
  intros found. apply respects_bind; [exact Rt| |].
  { destruct found; [now apply respects_ret|].
    apply respects_query; [exact Rr|]. intros d0 a d' H. inversion H.
    now apply scopesFrom_same. }
  intros company. apply respects_bind; [exact Rt| |].
  { destruct (g_contactName g) as [name|]; [|now apply respects_ret].
    apply respects_bind; [exact Rt| |].
    { apply respects_query; [exact Rr|]. intros d0 a d' H. inversion H. apply Rr. }
    intros [c|]; [now apply respects_ret|].
    apply respects_bind; [exact Rt| |].
    { apply respects_query; [exact Rr|]. intros d0 a d'.
      unfold contactCreate, andThen.
      destruct (requireCompany d0 (company_id company)); [|discriminate].
      intros H. inversion H. now apply scopesFrom_same. }
    intros c. now apply respects_ret. }
  intros contact. rewrite scopeCreates_ret, bind_lift_ret. cbv beta.
  apply respects_bind; [exact Rt| |].
  { apply respects_bid_create. apply scopeCreates_costs. }
  intros created. now apply respects_ret.
Qed.

Lemma respects_commitLoop (groups : Grouped) acc :
  respects (scopesFrom finiteCost) (commitLoop groups acc).
Proof.
  pose proof (scopesFrom_refl finiteCost) as Rr.
  pose proof (scopesFrom_trans finiteCost) as Rt.
  revert acc. induction groups as [|kg groups IH]; intros acc; simpl.
  - now apply respects_ret.
  - apply respects_bind; [exact Rt| |exact IH].
    unfold commitOne. apply respects_tryCatch; [exact Rt| |].
    + apply respects_bind; [exact Rt|apply respects_commitGroup|].
      intros b. now apply respects_ret.
    + intros e. now apply respects_ret.
Qed.

Lemma respects_guarded (R : Db -> Db -> Prop) (m : M Response) (w : World) :
  respects R m -> R (db w) (db (snd (guarded m w))).
Proof.
  intros H. unfold guarded.
  destruct (m w) as [[r|e] w'] eqn:E; simpl; exact (H _ _ _ E).
Qed.

Lemma respects_bind_lift (R : Db -> Db -> Prop) {A B} (o : Outcome A)
      (k : A -> M B) :
  (forall d, R d d) ->
  (forall a, o = Ret a -> respects R (k a)) ->
  respects R (bind (lift o) k).
Proof.
  intros Rr Hk w o' w'. unfold bind, lift.
  destruct o as [a|e]; intros H.
  - exact (Hk a eq_refl _ _ _ H).
  - inversion H; subst. apply Rr.
Qed.

Lemma createData_scopes (b : value) (scopes : list ScopeInput) (data : BidData) :
  createData b scopes = Ret data -> d_scopes data = scopes.
Proof.
  unfold createData, andThen. intros U.
  repeat match type of U with
         | match ?x with _ => _ end = _ => destruct x; [|discriminate]
         end.
  now inversion U.
Qed.

Lemma updateData_scopes (b : value) (scopes : list ScopeInput) (data : BidData) :
  updateData b scopes = Ret data -> d_scopes data = scopes.
Proof.
  unfold updateData, andThen. intros U.
  repeat match type of U with
         | match ?x with _ => _ end = _ => destruct x; [|discriminate]
         end.
  now inversion U.
Qed.

Lemma toNumberOrZero_cases (x : value) :
  match toString (nullish x (VStr EmptyString)) with
  | Ret text =>
      toNumberOrZero x
      = Ret (let n := stringToNumber (stripSeparators text) in
             if isFinite n then n else posZero)
  | Throw e => toNumberOrZero x = Throw e
  end.
Proof.
  unfold toNumberOrZero.
  destruct (toString (nullish x (VStr EmptyString))); reflexivity.
Qed.

(** A scope whose cost cannot be converted is not sanitized. *)
Lemma sanitizeScope_cost_throws (s c : value) :
  getProp s "cost" = Ret c ->
  throws (toNumber (nullish c (VNum posZero))) = true ->
  throws (sanitizeScope s) = true.
Proof.
  intros Pc Tc. unfold sanitizeScope, andThen.
  destruct (getProp s "name") as [name|]; [|reflexivity].
  destruct (toString (nullish name (VStr EmptyString))); [|reflexivity].
  rewrite Pc.
  destruct (toNumber (nullish c (VNum posZero))); [discriminate|reflexivity].
Qed.

(** A request whose scopes cannot be sanitized is passed on as an error and
    touches nothing. *)
Lemma scopes_throw_nothing_written (req : Request) (w : World) (raw : value)
      (e : Error) :
  getProp (body req) "scopes" = Ret raw ->
  sanitizeScopes raw = Throw e ->
  postBid req w = (Next e, w)
  /\ (isFinite (stringToNumber (params_id req)) = true ->
      putBid req w = (Next e, w)).
Proof.
  intros P S. split.
  - unfold postBid, guarded, bind, lift. now rewrite P, S.
  - intros F. unfold putBid, guarded. rewrite F. unfold negb. cbv iota.
    unfold bind, lift. now rewrite P, S.
Qed.

(** C5, as amended.  The import coercion returns whenever the cell converts
    to a string (as a text, a number, a boolean or a missing cell always
    does) and then yields a finite number, 0 when the text does not read as
    one.  The coercion of the create and update routes never yields NaN, and
    0 when the value does not read as a number; it throws when the cost
    cannot be converted to a primitive (an object with a member [toString]
    that is no function), and the request is then passed on as an error
    with nothing written.  So every scope a bulk import writes has a finite
    cost, and every scope a create or an update writes has a cost that is a
    number.  Nothing makes a cost non-negative. *)
Theorem cost_coercion_amended :
  (forall x : value,
     (forall n, toNumberOrZero x = Ret n ->
        isFinite n = true
        /\ forall text,
             toString (nullish x (VStr EmptyString)) = Ret text ->
             isFinite (stringToNumber (stripSeparators text)) = false ->
             n = posZero)
     /\ throws (toNumberOrZero x)
        = throws (toString (nullish x (VStr EmptyString)))
     /\ (primitiveOf x <> None -> throws (toNumberOrZero x) = false))
  /\ (forall (s : value) (out : ScopeInput),
        sanitizeScope s = Ret out ->
        isNaN (in_cost out) = false
        /\ forall c n, getProp s "cost" = Ret c ->
             toNumber (nullish c (VNum posZero)) = Ret n ->
             in_cost out = if numTruthy n then n else posZero)
  /\ (forall s c : value,
        getProp s "cost" = Ret c ->
        throws (toNumber (nullish c (VNum posZero))) = true ->
        throws (sanitizeScope s) = true)
  /\ toNumber (VObj [("toString", VNum (ofZ 1))])
     = Throw (TypeError "Cannot convert object to primitive value")
  /\ (forall (req : Request) (w : World) (raw : value) (e : Error),
        getProp (body req) "scopes" = Ret raw ->
        sanitizeScopes raw = Throw e ->
        postBid req w = (Next e, w)
        /\ (isFinite (stringToNumber (params_id req)) = true ->
            putBid req w = (Next e, w)))
  /\ (forall (rows : list Row) (w : World),
        scopesFrom finiteCost (db w) (db (snd (postBids (Some rows) w))))
  /\ (forall (req : Request) (w : World),
        scopesFrom numericCost (db w) (db (snd (postBid req w)))
        /\ scopesFrom numericCost (db w) (db (snd (putBid req w)))).
Proof.
  pose proof (scopesFrom_refl numericCost) as Rr.
  pose proof (scopesFrom_trans numericCost) as Rt.
  split; [|split; [|split; [|split; [|split; [|split]]]]].
  - intros x. pose proof (toNumberOrZero_cases x) as C.
    split; [|split].
    + intros n H.
      destruct (toString (nullish x (VStr EmptyString))) as [text|e];
        rewrite C in H; [|discriminate].
      inversion H; subst n; clear H. cbv zeta. split.
      * destruct (isFinite (stringToNumber (stripSeparators text))) eqn:E;
          [exact E|reflexivity].
      * intros text' T E. inversion T; subst text'. now rewrite E.
    + destruct (toString (nullish x (VStr EmptyString))); now rewrite C.
    + intros P.
      destruct (primitiveOf (nullish x (VStr EmptyString))) as [q|] eqn:Q.
      * rewrite (toString_primitive _ _ Q) in C. now rewrite C.
      * destruct x; try discriminate Q; now elim P.
  - exact sanitizeScope_cost.
  - exact sanitizeScope_cost_throws.
  - reflexivity.
  - exact scopes_throw_nothing_written.
  - intros rows w. unfold postBids.
    destruct (groupRows rows) as [grouped|e]; [|apply scopesFrom_refl].
    destruct (commitLoop grouped ([], []) w) as [[[res errs]|e] w'] eqn:E;
      simpl; exact (respects_commitLoop _ _ _ _ _ E).
  - intros req w. split.
    + unfold postBid. apply respects_guarded.
      apply respects_bind_lift; [exact Rr|]. intros raw _.
      apply respects_bind_lift; [exact Rr|]. intros scopes S.
      apply respects_bind_lift; [exact Rr|]. intros data C.
      apply respects_bind; [exact Rt| |intros; now apply respects_ret].
      apply respects_bid_create. rewrite (createData_scopes _ _ _ C).
      exact (sanitizeScopes_costs _ _ S).
    + unfold putBid. apply respects_guarded.
      destruct (negb (isFinite (stringToNumber (params_id req))));
        [now apply respects_ret|].
      apply respects_bind_lift; [exact Rr|]. intros raw _.
      apply respects_bind_lift; [exact Rr|]. intros scopes S.
      apply respects_bind_lift; [exact Rr|]. intros data C.
      apply respects_bind; [exact Rt| |intros; now apply respects_ret].
      apply respects_transaction; [exact Rr|].
      apply respects_bind; [exact Rt|apply respects_scope_deleteMany|].
      intros _. apply respects_bid_update. rewrite (updateData_scopes _ _ _ C).
      exact (sanitizeScopes_costs _ _ S).
Qed.

End Costs.

(** ** Redaction *)

Section Redaction.

Import Bids.

Context {host : Host}.

Local Open Scope store_scope.

(** A record of the list response, redacted. *)
Lemma redacted_listRecord (b : BidFull) :
  match listRecord b with
  | JObj fields =>
      let r := JObj (setField "scopes" JUndefined (setField "amount" JNull fields)) in
      jget "amount" (wire r) = Some JNull /\ jget "scopes" (wire r) = None
  | _ => False
  end.
Proof.
  unfold listRecord, dateJson.
  destruct (proposalDate (bf_bid b)), (dueDate (bf_bid b)), (followUpOn (bf_bid b));
    split; reflexivity.
Qed.

(** The single record, redacted. *)
Lemma redacted_single (b : BidFull) :
  let out := JObj (setField "scopes" JUndefined (bidFullFields b)) in
  jget "scopes" (wire out) = None /\ jget "amount" (wire out) = None.
Proof.
  unfold bidFullFields, bidColumns, idJson, dateJson, textJson.
  destruct (contactId (bf_bid b)), (proposalDate (bf_bid b)),
    (dueDate (bf_bid b)), (followUpOn (bf_bid b)), (jobLocation (bf_bid b)),
    (leadSource (bf_bid b)), (bf_company b), (bf_contact b);
    split; reflexivity.
Qed.

Lemma full_single (b : BidFull) :
  jget "scopes" (JObj (bidFullFields b)) = Some (JArr (map scopeJson (bf_scopes b))).
Proof. reflexivity. Qed.

(** C7, as amended.  In the list response a VIEWER gets every record with
    [amount] null and no [scopes] member, and every other caller gets the
    records as they were built, amount included.  In the single-record
    response a VIEWER gets the record with its [scopes] member left out (the
    record carries no [amount] member for any caller), and every other caller
    gets the full record, scopes included.  The write routes do not look at
    the caller's role: their answers are not redacted. *)
Theorem viewer_redaction_amended (req : Request) (w : World) :
  match getBids req w with
  | (Json _ (JArr records), _) =>
      exists results : list BidFull,
        if isViewer req
        then List.length records = List.length results
             /\ Forall (fun r => jget "amount" (wire r) = Some JNull
                                 /\ jget "scopes" (wire r) = None) records
        else records = map listRecord results
  | _ => True
  end
  /\ match getBid req w with
     | (Json 200 out, _) =>
         exists b : BidFull,
           if isViewer req
           then out = JObj (setField "scopes" JUndefined (bidFullFields b))
                /\ jget "scopes" (wire out) = None
           else out = JObj (bidFullFields b)
                /\ jget "scopes" out = Some (JArr (map scopeJson (bf_scopes b)))
     | _ => True
     end
  /\ forall req' : Request,
       params_id req' = params_id req -> body req' = body req ->
       postBid req' w = postBid req w /\ putBid req' w = putBid req w.
Proof.
  split; [|split].
  - unfold getBids, guarded, bind.
    match goal with |- context [bid_findMany ?q w] =>
      destruct (bid_findMany q w) as [[results|e] w'] end; [|exact I].
    unfold ret. exists results.
    unfold isViewer, redactForViewer.
    destruct (roleOf req) as [[]|]; try reflexivity.
    split; [now rewrite !length_map|].
    rewrite Forall_forall. intros r Hr.
    apply in_map_iff in Hr. destruct Hr as (row & E & Hrow).
    apply in_map_iff in Hrow. destruct Hrow as (b & Eb & _).
    subst r row. exact (redacted_listRecord b).
  - unfold getBid, guarded.
    destruct (negb (isFinite (stringToNumber (params_id req)))); [exact I|].
    unfold bind.
    destruct (bid_findUnique (stringToNumber (params_id req)) w)
      as [[[b|]|e] w']; try exact I.
    unfold isViewer.
    destruct (roleOf req) as [[]|]; unfold ret; exists b;
      try (split; [reflexivity | apply full_single]).
    split; [reflexivity | apply redacted_single].
  - intros req' P B. unfold postBid, putBid. now rewrite P, B.
Qed.

End Redaction.

(** ** A payload without a scope array *)

Section NoScopes.

Import Bids.

Context {host : Host}.

Local Open Scope store_scope.

Lemma sanitizeScopes_not_array (raw : value) :
  isArray raw = false -> sanitizeScopes raw = Ret [].
Proof.
  intros H. unfold sanitizeScopes. rewrite H. simpl negb.
  now rewrite orb_true_r.
Qed.

(** C10. A payload whose [scopes] member is missing, null or anything but an
    array is sanitized to no scopes and is not rejected for it.  A create
    whose bid row the store accepts answers 201 with the bid and an empty
    scope list, and writes the bid and no scope row; an update of an existing
    bid whose new row the store accepts answers with the bid and an empty
    scope list and leaves the bid without any scope. *)
Theorem scopes_not_an_array_means_no_scopes
        (req : Request) (raw : value) (w : World) :
  getProp (body req) "scopes" = Ret raw ->
  isArray raw = false ->
  sanitizeScopes raw = Ret []
  /\ (forall data b,
        createData (body req) [] = Ret data ->
        newBidRow (db w) data = Ret b ->
        exists w',
          postBid req w = (Json 201 (bidWithScopes (b, [])), w')
          /\ bids (db w') = (bids (db w) ++ [b])%list
          /\ scopes (db w') = scopes (db w))
  /\ (forall id data old b,
        asInteger (stringToNumber (params_id req)) = Some id ->
        updateData (body req) [] = Ret data ->
        findBid (db w) id = Some old ->
        updatedBidRow (db w) old data = Ret b ->
        exists w',
          putBid req w = (Json 200 (bidWithScopes (b, [])), w')
          /\ bids (db w') = replaceBid b (bids (db w))
          /\ scopesOf (db w') id = []).
Proof.
  intros P NA. pose proof (sanitizeScopes_not_array raw NA) as S.
  split; [exact S|]. split.
  - intros data b C N.
    unfold postBid, guarded, bind, lift. rewrite P, S, C.
    unfold bid_create, Store.query, bidCreate, andThen. rewrite N.
    rewrite (createData_scopes _ _ _ C). simpl.
    eexists. split; [reflexivity|]. simpl. split; [reflexivity|].
    apply app_nil_r.
  - intros id data old b I U F R.
    unfold putBid, guarded.
    rewrite (asInteger_isFinite _ _ I). unfold negb.
    unfold bind at 1, lift at 1. rewrite P.
    unfold bind at 1, lift at 1. rewrite S.
    unfold bind at 1, lift at 1. rewrite U.
    unfold bind at 1.
    destruct (replace_transaction (stringToNumber (params_id req)) data w)
      as [cs Tr].
    rewrite Tr. clear Tr.
    destruct (replace_steps_run _ _ data (db w) old b I F R)
      as (d' & E & B & Sc & _).
    rewrite E. rewrite (updateData_scopes _ _ _ U) in *. simpl in *.
    unfold ret. eexists. split; [reflexivity|]. simpl. split; assumption.
Qed.

End NoScopes.

(** ** Runs on sample data *)

Section Runs.

Import Importer Bids Samples.


(** The same upload, committed: one bid, with status Hot. *)
Example elevation_is_persisted :
  map bidStatus (bids (db (snd (postBids (host := host) (Some elevationRows) fresh))))
  = ["Hot"].
Proof. vm_compute. reflexivity. Qed.

(** An upload whose second group has an unreadable due date: the first and
    the third group are committed, the second is reported with its key and
    both raw strings, and nothing of it is stored. *)
Example import_with_one_bad_group :
  let run := postBids (host := host) (Some mixedRows) fresh in
  sent (fst run)
  = Some (JObj [("imported", JNum (ofZ 2));
                ("errors",
                 JArr [JObj [("key", JStr "Deck||Acme");
                             ("message",
                              JStr ("Invalid date(s). proposalDate=" ++ dquote
                                    ++ "2024-03-05" ++ dquote ++ " dueDate="
                                    ++ dquote ++ "soon" ++ dquote
                                    ++ ". Use YYYY-MM-DD or DD/MM/YYYY."))]])])
  /\ map projectName (bids (db (snd run))) = ["Roof"; "Fence"]
  /\ map scope_name (scopes (db (snd run))) = ["Tear-off"; "Posts"].
Proof. vm_compute. repeat split. Qed.


(** The theorem on payloads that name no scopes, at an update of a bid that
    has three scopes and at a create. *)
Lemma scopes_not_an_array_witness :
  (exists w',
     putBid (host := host) updateWithoutScopes oneBid
     = (Json 200 (bidWithScopes (roofBidUpdated, [])), w')
     /\ bids (db w') = replaceBid roofBidUpdated (bids (db oneBid))
     /\ scopesOf (db w') 1 = [])
  /\ (exists w',
        postBid (host := host) createWithoutScopes oneBid
        = (Json 201 (bidWithScopes (deckBid, [])), w')
        /\ bids (db w') = (bids (db oneBid) ++ [deckBid])%list
        /\ scopes (db w') = scopes (db oneBid)).
Proof.
  split.
  - destruct (scopes_not_an_array_means_no_scopes (host := host)
                updateWithoutScopes VNull oneBid eq_refl eq_refl)
      as (_ & _ & U).
    refine (U 1 _ roofBid roofBidUpdated _ _ _ _);
      vm_compute; reflexivity.
  - destruct (scopes_not_an_array_means_no_scopes (host := host)
                createWithoutScopes VUndefined oneBid eq_refl eq_refl)
      as (_ & C & _).
    refine (C _ deckBid _ _); vm_compute; reflexivity.
Defined.

(** The theorem on updates at a bid with three scopes and a payload with
    one: the route answers with the bid and the one new row, and the bid
    owns that row alone. *)
Lemma update_replaces_scopes_witness :
  List.length (scopesOf (db oneBid) 1) = 3%nat
  /\ exists w',
       putBid (host := host) updateWithOneScope oneBid
       = (Json 200 (bidWithScopes (roofBidUpdated, [newScopeRow])), w')
       /\ bids (db w') = [roofBidUpdated]
       /\ scopesOf (db w') 1 = [newScopeRow].
Proof.
  split; [reflexivity|].
  destruct (update_replaces_scopes_atomically (host := host)
              updateWithOneScope oneBid) as [U _].
  pose (incoming := [{| in_name := "New"; in_cost := ofZ 5;
                        in_status := "Pending" |}]).
  destruct (U 1 incoming
              {| d_projectName := "Roof";
                 d_clientCompanyId := num 1;
                 d_contactId := VNull;
                 d_proposalDate := None;
                 d_dueDate := None;
                 d_followUpOn := None;
                 d_jobLocation := VNull;
                 d_leadSource := VNull;
                 d_bidStatus := VStr "Hot";
                 d_scopes := incoming |}
              roofBid roofBidUpdated)
    as (w' & E & B & S & _); try (vm_compute; reflexivity).
  exists w'. split; [exact E|split; [exact B|exact S]].
Defined.

(** An update of a bid with three scopes by a payload with one leaves one;
    the same update naming a company that does not exist fails and leaves
    the three. *)
Example update_three_scopes_by_one :
  map scope_name
      (scopesOf (db (snd (putBid (host := host)
                            (request (Some ADMIN) "1"
                               (payload 1 (VArr [scopeIn "New" (VStr "5")])))
                            oneBid))) 1)
  = ["New"]
  /\ snd (putBid (host := host)
            (request (Some ADMIN) "1"
               (payload 99 (VArr [scopeIn "New" (VStr "5")])))
            oneBid)
     = {| db := db oneBid; calls := [ScopeDeleteMany; BidUpdate] |}
  /\ List.length (scopesOf (db oneBid) 1) = 3%nat.
Proof. vm_compute. repeat split. Qed.

(** C5, counterexample.  A cost of -5 is kept as -5 by both coercions: the
    import of a row with scope cost "-5" and the create with a scope of cost
    -5 each write a scope whose cost is negative; the coercion of the
    create and update routes keeps the text Infinity as an infinite cost;
    and it throws on a cost that is an object with a member [toString] that
    is no function. *)
Lemma negative_cost_is_persisted :
  (exists s,
     In s (scopes (db (snd (postBids (host := host) (Some creditRows) fresh))))
     /\ isNegative (scope_cost s) = true)
  /\ (exists s,
        In s (scopes (db (snd (postBid (host := host)
                                 (request (Some ADMIN) EmptyString
                                    (payload 1 (VArr [scopeIn "Credit" (num (-5))])))
                                 oneBid))))
        /\ scope_name s = "Credit"
        /\ isNegative (scope_cost s) = true)
  /\ (exists i,
        sanitizeScopes (VArr [scopeIn "Open" (VStr "Infinity")]) = Ret [i]
        /\ isFinite (in_cost i) = false)
  /\ sanitizeScopes
       (VArr [scopeIn "Odd" (VObj [("toString", VNum (ofZ 1))])])
     = Throw (TypeError "Cannot convert object to primitive value").
Proof.
  split; [|split; [|split]].
  - eexists. split; [vm_compute; left; reflexivity | vm_compute; reflexivity].
  - eexists. split; [vm_compute; do 3 right; left; reflexivity |].
    split; vm_compute; reflexivity.
  - eexists. split; vm_compute; reflexivity.
  - reflexivity.
Qed.

(** C7, counterexample.  The single-record response a VIEWER gets carries no
    [amount] member at all, so it is not null there. *)
Lemma viewer_single_record_has_no_amount :
  exists out w',
    GET_bid (request (Some VIEWER) "1" VUndefined) oneBid
    = (Json 200 out, w')
    /\ jget "amount" (wire out) <> Some JNull
    /\ jget "scopes" (wire out) = None.
Proof.
  eexists. eexists. split; [vm_compute; reflexivity|].
  split; [vm_compute; discriminate | vm_compute; reflexivity].
Qed.

(** A VIEWER's list response on the same store: amount null, no scopes. *)
Example viewer_list_is_redacted :
  option_map (fun body =>
                match body with
                | JArr [r] => (jget "amount" r, jget "scopes" r)
                | _ => (None, None)
                end)
             (sent (fst (GET_bids (host := host)
                           (request (Some VIEWER) EmptyString VUndefined) oneBid)))
  = Some (Some JNull, None).
Proof. vm_compute. reflexivity. Qed.

(** C4, the defect.  Two rows whose pairs differ, ("a||b", "c") and
    ("a", "b||c"), are filed under one key and become one bid with both
    scopes. *)
Theorem distinct_pairs_share_a_group :
  map keyOf collidingRows = [Some "a||b||c"; Some "a||b||c"]
  /\ andThen (groupRows collidingRows)
       (fun grouped =>
          Ret (map (fun kg => (fst kg, map sd_name (g_scopes (snd kg))))
                   grouped))
     = Ret [("a||b||c", ["First"; "Second"])]
  /\ (let d := db (snd (postBids (host := host) (Some collidingRows) fresh)) in
      map projectName (bids d) = ["a||b"]
      /\ map scope_name (scopesOf d 1) = ["First"; "Second"]).
Proof. vm_compute. repeat split. Qed.

(** C6, the defect.  31/02/2024 is no day of the calendar, and is read as
    2 March 2024, whatever the host; day 0 of month 0 is read as 30 November
    of the year before. *)
Theorem day_first_dates_roll_over (h : Host) :
  parseDateLoose (host := h) (VStr "31/02/2024")
  = Ret (isoDateOnly "2024-03-02")
  /\ isoDateOnly "2024-03-02" = Some (DateAt 1709337600000)
  /\ parseDateLoose (host := h) (VStr "00/00/2024")
     = Ret (isoDateOnly "2023-11-30").
Proof. repeat split. Qed.

(** What the design asks of the parser and the code does: the two sample
    dates, day-first. *)
Example parseDateLoose_samples (h : Host) :
  parseDateLoose (host := h) (VStr "2024-03-05")
  = Ret (Some (DateAt 1709596800000))
  /\ parseDateLoose (host := h) (VStr "05/03/2024")
     = Ret (Some (DateAt 1709596800000))
  /\ parseDateLoose (host := h) (VStr "5-3-2024")
     = Ret (Some (DateAt 1709596800000)).
Proof. repeat split. Qed.

(** C8, the defect.  The synonym table of [cleanBidStatus] is an object
    literal, so a status text that names a member of [Object.prototype] is
    not unmapped: it is answered with that member, not with Active; and the
    create route stores the [bidStatus] of the payload as it comes. *)
Theorem bid_status_is_not_always_canonical :
  cleanBidStatus (VStr "constructor") = Ret (VFun "Object")
  /\ cleanBidStatus (VStr " Constructor ") = Ret (VFun "Object")
  /\ cleanBidStatus (VStr "__proto__") = Ret (VObj [])
  /\ map bidStatus
         (bids (db (snd (POST_bids (host := host) createWithBogusStatus oneBid))))
     = ["Active"; "bogus"].
Proof. vm_compute. repeat split. Qed.

(** What the design asks of the canonicalization and the code does. *)
Example cleanBidStatus_samples :
  map cleanBidStatus [VStr EmptyString; VStr "bogus"; VUndefined;
                      VStr "ARCHIVE"; VStr "completed"; VStr " Hot "]
  = map (fun s => Ret (VStr s))
        ["Active"; "Active"; "Active"; "Archived"; "Complete"; "Hot"].
Proof. vm_compute. reflexivity. Qed.

End Runs.

(* ===================================================================== *)
(** * Further properties of the two route files *)
(* ===================================================================== *)

(** ** Canonicalization of statuses *)

Section Canonical.

Import Importer.

(** What a text is canonicalized to. *)
Lemma cleanStatus_text (v : value) (text : string) :
  toString (nullish v (VStr EmptyString)) = Ret text ->
  exists r, cleanStatus v = Ret r
            /\ (forall s, r = Some s -> In s scopeStatuses).
Proof.
  intros T. unfold cleanStatus, scopeStatuses. rewrite T. cbn [andThen].
  destruct (negb (nonEmpty (trim text))).
  { eexists. split; [reflexivity|discriminate]. }
  set (norm := toLowerCase _).
  simpl existsb.
  destruct (String.eqb norm "pending") eqn:P.
  { apply String.eqb_eq in P. rewrite P. simpl. eexists.
    split; [reflexivity|]. intros s H. inversion H. auto. }
  destruct (String.eqb norm "won") eqn:W.
  { apply String.eqb_eq in W. rewrite W. simpl. eexists.
    split; [reflexivity|]. intros s H. inversion H. auto. }
  destruct (String.eqb norm "lost") eqn:L.
  { apply String.eqb_eq in L. rewrite L. simpl. eexists.
    split; [reflexivity|]. intros s H. inversion H. auto. }
  eexists. split; [reflexivity|discriminate].
Qed.

Lemma cleanStatus_throws (v : value) :
  throws (cleanStatus v) = throws (toString (nullish v (VStr EmptyString))).
Proof.
  destruct (toString (nullish v (VStr EmptyString))) as [text|e] eqn:T.
  - destruct (cleanStatus_text v text T) as (r & E & _). now rewrite E.
  - unfold cleanStatus. now rewrite T.
Qed.

Lemma cleanStatus_answer (v : value) (r : option string) :
  cleanStatus v = Ret r -> forall s, r = Some s -> In s scopeStatuses.
Proof.
  intros H.
  destruct (toString (nullish v (VStr EmptyString))) as [text|e] eqn:T.
  - destruct (cleanStatus_text v text T) as (r' & E & R).
    rewrite E in H. inversion H; subst. exact R.
  - unfold cleanStatus in H. rewrite T in H. discriminate.
Qed.

Lemma cleanStatus_range (v : value) (s : string) :
  scopeStatusOf v = Some s -> In s scopeStatuses.
Proof.
  unfold scopeStatusOf. destruct (cleanStatus v) as [r|e] eqn:E; [|discriminate].
  cbn [orElse]. intros H. exact (cleanStatus_answer v r E s H).
Qed.

(** X1. [cleanStatus] throws only where the conversion of its argument to a
    string throws; where it returns it answers undefined or one of Pending,
    Won and Lost, and canonicalizing its own answer again returns the same
    answer: the second pass the import makes at commit changes nothing. *)
Theorem cleanStatus_second_pass (v : value) :
  (forall r, cleanStatus v = Ret r ->
     (forall s, r = Some s -> In s scopeStatuses)
     /\ cleanStatus (optValue r) = Ret r)
  /\ throws (cleanStatus v) = throws (toString (nullish v (VStr EmptyString))).
Proof.
  split; [|apply cleanStatus_throws].
  intros r H. pose proof (cleanStatus_answer v r H) as R.
  split; [exact R|].
  destruct r as [s|]; [|reflexivity].
  specialize (R s eq_refl). simpl in R.
  destruct R as [E|[E|[E|[]]]]; subst s; reflexivity.
Qed.

Lemma lowerChar_not_upper (c : ascii) :
  (65 <=? code (lowerChar c)) && (code (lowerChar c) <=? 90) = false.
Proof. destruct c as [[] [] [] [] [] [] [] []]; reflexivity. Qed.

Lemma toLowerCase_cons (c : ascii) (s : string) :
  toLowerCase (String c s) = String (lowerChar c) (toLowerCase s).
Proof. reflexivity. Qed.

Lemma hasUpper_toLowerCase (s : string) : hasUpper (toLowerCase s) = false.
Proof.
  induction s as [|c s IH].
  - reflexivity.
  - rewrite toLowerCase_cons. cbn [hasUpper].
    now rewrite lowerChar_not_upper, IH.
Qed.

Lemma lowered_is_no_capitalized_name (s name : string) :
  hasUpper name = true -> String.eqb (toLowerCase s) name = false.
Proof.
  intros H. destruct (String.eqb (toLowerCase s) name) eqn:E; [|reflexivity].
  apply String.eqb_eq in E. rewrite <- E, hasUpper_toLowerCase in H.
  discriminate.
Qed.

(** What the lookup in the synonym table answers for a lower-cased text. *)
Lemma status_lookup_cases (x : string) :
  let t := toLowerCase x in
  let a := nullish (lookup bidStatusMap t) (VStr "Active") in
  (t = "constructor" /\ a = VFun "Object")
  \/ (t = "__proto__" /\ a = VObj [])
  \/ exists s, In s bidStatuses /\ a = VStr s.
Proof.
  unfold lookup, bidStatuses.
  set (t := toLowerCase _). simpl assoc.
  destruct (String.eqb t "active") eqn:E1.
  { right; right. exists "Active". simpl. auto. }
  destruct (String.eqb t "complete") eqn:E2.
  { right; right. exists "Complete". simpl. auto. }
  destruct (String.eqb t "completed") eqn:E3.
  { right; right. exists "Complete". simpl. auto. }
  destruct (String.eqb t "archive") eqn:E4.
  { right; right. exists "Archived". simpl. auto 6. }
  destruct (String.eqb t "archived") eqn:E5.
  { right; right. exists "Archived". simpl. auto 6. }
  destruct (String.eqb t "hot") eqn:E6.
  { right; right. exists "Hot". simpl. auto 7. }
  destruct (String.eqb t "cold") eqn:E7.
  { right; right. exists "Cold". simpl. auto 8. }
  unfold objectPrototype.
  destruct (String.eqb t "constructor") eqn:C.
  { left. apply String.eqb_eq in C. auto. }
  destruct (String.eqb t "__proto__") eqn:P.
  { right; left. apply String.eqb_eq in P. auto. }
  right; right. exists "Active".
  unfold objectPrototypeFunctions. simpl existsb.
  unfold t. rewrite !lowered_is_no_capitalized_name by reflexivity.
  simpl. auto.
Qed.

Lemma cleanBidStatus_canonical (s : string) :
  In s bidStatuses -> cleanBidStatus (VStr s) = Ret (VStr s).
Proof.
  simpl. intros [E|[E|[E|[E|[E|[]]]]]]; subst s; reflexivity.
Qed.

Lemma cleanBidStatus_text (v : value) (text : string) :
  toString (nullish v (VStr EmptyString)) = Ret text ->
  cleanBidStatus v
  = Ret (nullish (lookup bidStatusMap (toLowerCase (trim text)))
                 (VStr "Active")).
Proof. intros T. unfold cleanBidStatus. now rewrite T. Qed.


Lemma cleanBidStatus_cases (v : value) (text : string) :
  toString (nullish v (VStr EmptyString)) = Ret text ->
  let t := toLowerCase (trim text) in
  (t = "constructor" /\ cleanBidStatus v = Ret (VFun "Object"))
  \/ (t = "__proto__" /\ cleanBidStatus v = Ret (VObj []))
  \/ exists s, In s bidStatuses
               /\ cleanBidStatus v = Ret (VStr s)
               /\ cleanBidStatus (VStr s) = Ret (VStr s).
Proof.
  intros T. rewrite (cleanBidStatus_text v text T).
  destruct (status_lookup_cases (trim text)) as [[E A]|[[E A]|(s & I & A)]];
    cbv zeta in *.
  - left. now rewrite A.
  - right; left. now rewrite A.
  - right; right. exists s. rewrite A.
    repeat split; [exact I|now apply cleanBidStatus_canonical].
Qed.

(** The answer the vocabulary names is one [cleanBidStatus] can give. *)
Lemma statusAnswer_bidStatusOf (v : value) : statusAnswer (bidStatusOf v).
Proof.
  unfold bidStatusOf, statusAnswer.
  destruct (toString (nullish v (VStr EmptyString))) as [text|e] eqn:T.
  - destruct (cleanBidStatus_cases v text T)
      as [[_ E]|[[_ E]|(s & I & E & _)]]; rewrite E; cbn [orElse]; eauto.
  - unfold cleanBidStatus. rewrite T. cbn [andThen orElse].
    right; right. exists "Active". simpl. auto.
Qed.


End Canonical.

(** ** What the grouping holds *)

Section Groups.

Import Importer.

Context {host : Host}.

Lemma keys_update (k : string) (f : Group -> Group) (l : Grouped) :
  map fst (update k f l) = map fst l.
Proof.
  induction l as [|[k0 g] l IH]; simpl; [reflexivity|].
  destruct (String.eqb k k0); simpl; [reflexivity | now rewrite IH].
Qed.

Lemma assoc_keys {A} (k : string) (l : list (string * A)) :
  In k (map fst l) <-> assoc k l <> None.
Proof.
  induction l as [|[k0 a] l IH]; simpl.
  - split; [intros [] | intros H; now apply H].
  - destruct (String.eqb k k0) eqn:E.
    + apply String.eqb_eq in E. subst. split; [discriminate | auto].
    + rewrite <- IH. split; [|auto].
      intros [H|H]; [|exact H]. subst. now rewrite String.eqb_refl in E.
Qed.

Lemma assoc_of_entry {A} (k : string) (a : A) (l : list (string * A)) :
  NoDup (map fst l) -> In (k, a) l -> assoc k l = Some a.
Proof.
  induction l as [|[k0 a0] l IH]; simpl; [intros _ []|].
  intros N [H|H].
  - inversion H; subst. now rewrite String.eqb_refl.
  - inversion N as [|? ? Nk Nl]; subst.
    destruct (String.eqb k k0) eqn:E; [|now apply IH].
    apply String.eqb_eq in E. subst. exfalso. apply Nk.
    change k0 with (fst (k0, a)). now apply in_map.
Qed.

Lemma keyOf_kept (r : Row) :
  keyOf r = if kept r
            then Some (groupKey (cellOf (r_projectName r)) (cellOf (r_clientCompany r)))
            else None.
Proof.
  unfold keyOf, kept.
  destruct (nonEmpty (cellOf (r_projectName r))),
    (nonEmpty (cellOf (r_clientCompany r))); reflexivity.
Qed.

Lemma withStatus_same (g : Group) : withStatus g (g_bidStatus g) = g.
Proof. now destruct g. Qed.

(** One turn of the grouping loop, seen from a key. *)
Lemma assoc_groupRow (k : string) (grouped : Grouped) (r : Row) :
  assoc k (filed grouped r) =
  if filedUnder k r then Some (joinRow (assoc k grouped) r)
  else assoc k grouped.
Proof.
  unfold filedUnder. destruct (keyOf r) as [k'|] eqn:K.
  2:{ now rewrite groupRow_discarded. }
  unfold keyOf in K. unfold filed.
  destruct (negb (nonEmpty (cellOf (r_projectName r)))
            || negb (nonEmpty (cellOf (r_clientCompany r)))); [discriminate|].
  injection K as K. rewrite K. clear K.
  rewrite assoc_update. rewrite (String.eqb_sym k' k).
  destruct (String.eqb k k') eqn:E.
  - apply String.eqb_eq in E. subst k'.
    destruct (assoc k grouped) as [g|] eqn:G.
    + unfold joinRow, elevate, statusOfRow.
      destruct (strictEqStr (g_bidStatus g) "Active"
                && negb (strictEqStr (bidStatusOf (r_bidStatus r)) "Active")).
      * rewrite assoc_update, String.eqb_refl, G. reflexivity.
      * rewrite G, withStatus_same. reflexivity.
    + rewrite assoc_snoc, G, String.eqb_refl.
      unfold joinRow, groupOf, pushScope, draftOf. simpl. f_equal. f_equal.
      unfold firstNonActive, statusOfRow. simpl. unfold notActive.
      destruct (strictEqStr (bidStatusOf (r_bidStatus r)) "Active") eqn:A;
        simpl; [now apply strictEqStr_true | reflexivity].
  - destruct (assoc k' grouped) as [g|] eqn:G.
    + destruct (strictEqStr (g_bidStatus g) "Active"
                && negb (strictEqStr (bidStatusOf (r_bidStatus r)) "Active")).
      * rewrite assoc_update, E. reflexivity.
      * reflexivity.
    + rewrite assoc_snoc, E. now destruct (assoc k grouped).
Qed.

Lemma joinRow_groupOf (first : Row) (rest : list Row) (r : Row) :
  joinRow (Some (groupOf first rest)) r = groupOf first (rest ++ [r]).
Proof.
  unfold joinRow, groupOf, pushScope, withStatus. simpl. f_equal.
  - change (statusOfRow first :: map statusOfRow (rest ++ [r]))%list
      with (map statusOfRow ((first :: rest) ++ [r]))%list.
    rewrite map_app.
    exact (eq_sym (firstNonActive_snoc (map statusOfRow (first :: rest))
                                       (statusOfRow r))).
  - now rewrite map_app.
Qed.

Lemma assoc_groupRows (rows : list Row) (k : string) :
  assoc k (grouping rows) =
  match rowsOf k rows with
  | [] => None
  | first :: rest => Some (groupOf first rest)
  end.
Proof.
  induction rows as [|r rows IH] using rev_ind.
  - reflexivity.
  - rewrite groupRows_snoc, assoc_groupRow, IH.
    unfold rowsOf. rewrite filter_app. simpl.
    destruct (filedUnder k r); [|now rewrite app_nil_r].
    destruct (filter (filedUnder k) rows) as [|first rest]; simpl.
    + reflexivity.
    + f_equal. apply joinRow_groupOf.
Qed.

(** X3. The grouping, key by key, whenever the grouping loop returns: a key
    no row is filed under holds nothing; any other key holds the bid fields
    of the first row filed under it, the elevated status, and one scope
    draft for each of its rows, in the order of the upload. *)
Theorem grouping_collects_rows
        (rows : list Row) (grouped : Grouped) (k : string) :
  groupRows rows = Ret grouped ->
  assoc k grouped =
  match rowsOf k rows with
  | [] => None
  | first :: rest => Some (groupOf first rest)
  end.
Proof.
  intros R. apply groupRows_grouping in R. subst grouped.
  exact (assoc_groupRows rows k).
Qed.

Lemma keys_groupRow (grouped : Grouped) (r : Row) :
  map fst (filed grouped r) =
  match keyOf r with
  | None => map fst grouped
  | Some k =>
      match assoc k grouped with
      | Some _ => map fst grouped
      | None => (map fst grouped ++ [k])%list
      end
  end.
Proof.
  destruct (keyOf r) as [k|] eqn:K.
  2:{ now rewrite groupRow_discarded. }
  unfold keyOf in K. unfold filed.
  destruct (negb (nonEmpty (cellOf (r_projectName r)))
            || negb (nonEmpty (cellOf (r_clientCompany r)))); [discriminate|].
  injection K as K. rewrite K. clear K.
  rewrite keys_update.
  destruct (assoc k grouped) as [g|].
  - destruct (strictEqStr (g_bidStatus g) "Active"
              && negb (strictEqStr (bidStatusOf (r_bidStatus r)) "Active"));
      [apply keys_update | reflexivity].
  - rewrite map_app. reflexivity.
Qed.

Lemma keys_NoDup (rows : list Row) : NoDup (map fst (grouping rows)).
Proof.
  induction rows as [|r rows IH] using rev_ind.
  - constructor.
  - rewrite groupRows_snoc, keys_groupRow.
    destruct (keyOf r) as [k|]; [|exact IH].
    destruct (assoc k (grouping rows)) eqn:A; [exact IH|].
    apply NoDup_app; [exact IH | repeat constructor; intros [] |].
    intros x Hx [Hk|[]]. subst x.
    apply assoc_keys in Hx. now apply Hx.
Qed.

Lemma entry_is_lookup (rows : list Row) (k : string) (g : Group) :
  In (k, g) (grouping rows) -> assoc k (grouping rows) = Some g.
Proof. apply assoc_of_entry, keys_NoDup. Qed.

(** X4. The keys of the grouping, whenever the grouping loop returns: each
    is held once, a key is held exactly when some row of the upload is filed
    under it, and every entry is the one a lookup of its key finds, so the
    commit loop meets each group once. *)
Theorem grouping_keys (rows : list Row) (grouped : Grouped) :
  groupRows rows = Ret grouped ->
  NoDup (map fst grouped)
  /\ (forall k, In k (map fst grouped)
                <-> exists r, In r rows /\ keyOf r = Some k)
  /\ (forall k g, In (k, g) grouped <-> assoc k grouped = Some g).
Proof.
  intros R. apply groupRows_grouping in R. subst grouped.
  pose proof (keys_NoDup rows) as N.
  split; [exact N|]. split.
  - intros k. rewrite assoc_keys, assoc_groupRows. split.
    + destruct (rowsOf k rows) as [|first rest] eqn:R; [intros H; now elim H|].
      intros _. assert (I : In first (rowsOf k rows)) by (rewrite R; now left).
      unfold rowsOf in I. apply filter_In in I. destruct I as [I F].
      exists first. split; [exact I|].
      unfold filedUnder in F. destruct (keyOf first) as [k'|]; [|discriminate].
      apply String.eqb_eq in F. now subst.
    + intros (r & I & K).
      assert (F : In r (rowsOf k rows)).
      { unfold rowsOf. apply filter_In. split; [exact I|].
        unfold filedUnder. rewrite K. apply String.eqb_refl. }
      destruct (rowsOf k rows); [destruct F | discriminate].
  - intros k g. split; [now apply assoc_of_entry|].
    generalize (grouping rows). intros l.
    induction l as [|[k0 g0] l IH]; simpl; [discriminate|].
    destruct (String.eqb k k0) eqn:E.
    + apply String.eqb_eq in E. intros H. inversion H; subst. now left.
    + intros H. right. now apply IH.
Qed.

Lemma groupRows_kept (rows : list Row) (acc : Grouped) :
  fold_left filed (filter kept rows) acc = fold_left filed rows acc.
Proof.
  revert acc. induction rows as [|r rows IH]; intros acc; simpl.
  - reflexivity.
  - destruct (kept r) eqn:K; simpl.
    + apply IH.
    + rewrite IH. f_equal. symmetry. apply groupRow_discarded.
      now rewrite keyOf_kept, K.
Qed.

(** A row that is not kept leaves the groups as they are. *)
Lemma groupRow_not_kept (grouped grouped' : Grouped) (r : Row) :
  groupRow grouped r = Ret grouped' -> kept r = false -> grouped' = grouped.
Proof.
  intros G K. unfold groupRow, andThen in G. unfold kept in K.
  destruct (cell (r_projectName r)) as [pn|] eqn:Pn; [|discriminate].
  destruct (cell (r_clientCompany r)) as [cc|] eqn:Cc; [|discriminate].
  rewrite (cell_ret _ _ Pn), (cell_ret _ _ Cc) in K.
  destruct (nonEmpty pn), (nonEmpty cc); try discriminate K;
    cbn [negb orb] in G; now inversion G.
Qed.

Lemma groupFrom_kept (rows : list Row) (grouped grouped' : Grouped) :
  groupFrom grouped rows = Ret grouped' ->
  groupFrom grouped (filter kept rows) = Ret grouped'.
Proof.
  revert grouped. induction rows as [|r rows IH]; intros grouped; simpl.
  - auto.
  - unfold andThen at 1.
    destruct (groupRow grouped r) as [g1|] eqn:G; [|discriminate].
    intros H. destruct (kept r) eqn:K.
    + simpl. rewrite G. cbn [andThen]. now apply IH.
    + rewrite (groupRow_not_kept _ _ _ G K) in H. now apply IH.
Qed.

(** X5. Rows that name no project or no client company are dropped before
    anything else happens: whenever the grouping loop returns, an upload
    answers and leaves the store and the log of client calls exactly as
    the upload without those rows does. *)
Theorem discarded_rows_leave_no_trace
        (rows : list Row) (grouped : Grouped) (w : World) :
  groupRows rows = Ret grouped ->
  postBids (Some rows) w = postBids (Some (filter kept rows)) w.
Proof.
  intros R. unfold postBids.
  rewrite (groupFrom_kept rows [] grouped R : groupRows _ = _), R.
  reflexivity.
Qed.

End Groups.

(** ** Trimming *)

Section Trimming.

Lemma dropWhile_head {A} (p : A -> bool) (l : list A) (x : A) (r : list A) :
  dropWhile p l = x :: r -> p x = false.
Proof.
  induction l as [|y l IH]; simpl; [discriminate|].
  destruct (p y) eqn:E; [exact IH|]. intros H. inversion H. now subst.
Qed.

Lemma dropWhile_fixed {A} (p : A -> bool) (x : A) (r : list A) :
  p x = false -> dropWhile p (x :: r) = x :: r.
Proof. intros H. simpl. now rewrite H. Qed.

Lemma dropWhile_idem {A} (p : A -> bool) (l : list A) :
  dropWhile p (dropWhile p l) = dropWhile p l.
Proof.
  destruct (dropWhile p l) as [|x r] eqn:E; [reflexivity|].
  apply dropWhile_fixed. exact (dropWhile_head p l x r E).
Qed.

Lemma dropWhile_snoc {A} (p : A -> bool) (l : list A) (x : A) :
  p x = false -> dropWhile p (l ++ [x]) = (dropWhile p l ++ [x])%list.
Proof.
  intros H. induction l as [|y l IH]; simpl.
  - now rewrite H.
  - destruct (p y); [exact IH | reflexivity].
Qed.

(** Dropping the trailing white space of text that starts with none keeps
    its start. *)
Lemma dropTrailing_fixed (m : list ascii) :
  dropWhile isWhiteSpace m = m ->
  dropWhile isWhiteSpace (rev (dropWhile isWhiteSpace (rev m)))
  = rev (dropWhile isWhiteSpace (rev m)).
Proof.
  destruct m as [|x r]; [reflexivity|].
  intros H. assert (X : isWhiteSpace x = false).
  { simpl in H. destruct (isWhiteSpace x) eqn:E; [|reflexivity].
    exfalso. assert (L : List.length (dropWhile isWhiteSpace r)
                         = List.length (x :: r)) by now rewrite H.
    assert (B : forall l : list ascii,
              (List.length (dropWhile isWhiteSpace l) <= List.length l)%nat).
    { induction l as [|y l IHl]; simpl; [lia|].
      destruct (isWhiteSpace y); simpl; lia. }
    specialize (B r). simpl in L. lia. }
  simpl rev. rewrite (dropWhile_snoc _ _ _ X), rev_app_distr. simpl.
  now rewrite X.
Qed.

Lemma trimChars_idem (l : list ascii) : trimChars (trimChars l) = trimChars l.
Proof.
  unfold trimChars.
  set (m := dropWhile isWhiteSpace l).
  assert (M : dropWhile isWhiteSpace m = m) by apply dropWhile_idem.
  rewrite (dropTrailing_fixed m M), rev_involutive, dropWhile_idem.
  reflexivity.
Qed.

Lemma chars_str (l : list ascii) : chars (str l) = l.
Proof. apply list_ascii_of_string_of_list_ascii. Qed.

Lemma trim_idem (s : string) : trim (trim s) = trim s.
Proof. unfold trim. now rewrite chars_str, trimChars_idem. Qed.

End Trimming.

(** ** What the write paths leave in the store *)

Section Written.

Import Importer Bids.

Context {host : Host}.

Local Open Scope store_scope.

Lemma scopesLike_refl Q (d : Db) : scopesLike Q d d.
Proof. intros s H. now left. Qed.

Lemma scopesLike_trans Q (d1 d2 d3 : Db) :
  scopesLike Q d1 d2 -> scopesLike Q d2 d3 -> scopesLike Q d1 d3.
Proof.
  intros H12 H23 s H. destruct (H23 s H) as [H2|H2]; [|now right].
  exact (H12 s H2).
Qed.

Lemma scopesLike_same Q (d d' : Db) :
  scopes d' = scopes d -> scopesLike Q d d'.
Proof. intros E s H. left. now rewrite <- E. Qed.

Lemma scopeRows_like (Q : string -> number -> string -> Prop)
      (key first : Z) (l : list ScopeInput) :
  Forall (fun i => Q (in_name i) (in_cost i) (in_status i)) l ->
  Forall (fun s => Q (scope_name s) (scope_cost s) (scope_status s))
         (scopeRows key first l).
Proof.
  intros H. revert first. induction H as [|i l Qi _ IH]; intros first; simpl.
  - constructor.
  - constructor; [exact Qi | apply IH].
Qed.

Lemma scopesLike_appended Q (d d' : Db) (rows keep : list Scope) :
  scopes d' = (keep ++ rows)%list ->
  (forall s, In s keep -> In s (scopes d)) ->
  Forall (fun s => Q (scope_name s) (scope_cost s) (scope_status s)) rows ->
  scopesLike Q d d'.
Proof.
  intros E K F s H. rewrite E in H. apply in_app_or in H.
  destruct H as [H|H]; [left; now apply K|right].
  rewrite Forall_forall in F. now apply F.
Qed.

Lemma like_bid_create Q (data : BidData) :
  Forall (fun i => Q (in_name i) (in_cost i) (in_status i)) (d_scopes data) ->
  respects (scopesLike Q) (bid_create data).
Proof.
  intros F. apply respects_query; [apply scopesLike_refl|].
  intros d [b rows] d'. unfold bidCreate, andThen.
  destruct (newBidRow d data) as [b'|e]; [|discriminate].
  intros H. inversion H; subst.
  eapply scopesLike_appended; [reflexivity|auto|].
  now apply scopeRows_like.
Qed.

Lemma like_bid_update Q (id : number) (data : BidData) :
  Forall (fun i => Q (in_name i) (in_cost i) (in_status i)) (d_scopes data) ->
  respects (scopesLike Q) (bid_update id data).
Proof.
  intros F. apply respects_query; [apply scopesLike_refl|].
  intros d [b rows] d'. unfold bidUpdate, andThen.
  destruct (intArg "id" (VNum id)) as [key|e]; [|discriminate].
  destruct (updateArgs data) as [u|e]; [|discriminate].
  destruct (findBid d key) as [old|]; [|discriminate].
  destruct (updatedRow d old data u) as [b'|e]; [|discriminate].
  intros H. inversion H; subst.
  eapply scopesLike_appended; [reflexivity|auto|].
  now apply scopeRows_like.
Qed.

Lemma like_scope_deleteMany Q (id : number) :
  respects (scopesLike Q) (scope_deleteMany id).
Proof.
  apply respects_query; [apply scopesLike_refl|].
  intros d n d'. unfold scopeDeleteMany, andThen.
  destruct (intArg "bidId" (VNum id)) as [key|e]; [|discriminate].
  intros H. inversion H; subst. intros s Hs. left.
  simpl in Hs. apply filter_In in Hs. tauto.
Qed.

(** The steps of a commit before the bid is created write no scope. *)
Lemma like_upserts Q (g : Group) (k : Company -> option Contact -> M Bid) :
  (forall company contact, respects (scopesLike Q) (k company contact)) ->
  respects (scopesLike Q)
    (found <- company_findFirst (g_clientCompany g) ;;
     company <- match found with
                | Some c => ret c
                | None => company_create (g_clientCompany g)
                end ;;
     contact <- match g_contactName g with
                | Some name =>
                    c <- contact_findFirst name (company_id company) ;;
                    match c with
                    | Some c => ret (Some c)
                    | None =>
                        c <- contact_create name (company_id company) ;;
                        ret (Some c)
                    end
                | None => ret None
                end ;;
     k company contact).
Proof.
  intros Hk.
  pose proof (scopesLike_refl Q) as Rr.
  pose proof (scopesLike_trans Q) as Rt.
  apply respects_bind; [exact Rt| |].
  { apply respects_query; [exact Rr|]. intros d0 a d' H. inversion H. apply Rr. }
  intros found. apply respects_bind; [exact Rt| |].
  { destruct found; [now apply respects_ret|].
    apply respects_query; [exact Rr|]. intros d0 a d' H. inversion H.
    now apply scopesLike_same. }
  intros company. apply respects_bind; [exact Rt| |now auto].
  destruct (g_contactName g) as [name|]; [|now apply respects_ret].
  apply respects_bind; [exact Rt| |].
  { apply respects_query; [exact Rr|]. intros d0 a d' H. inversion H. apply Rr. }
  intros [c|]; [now apply respects_ret|].
  apply respects_bind; [exact Rt| |].
  { apply respects_query; [exact Rr|]. intros d0 a d'.
    unfold contactCreate, andThen.
    destruct (requireCompany d0 (company_id company)); [|discriminate].
    intros H. inversion H. now apply scopesLike_same. }
  intros c. now apply respects_ret.
Qed.

Lemma scopeCreates_sanitized (g : Group) :
  Forall (fun s => trim (sd_name s) = sd_name s) (g_scopes g) ->
  Forall (fun i => sanitized (in_name i) (in_cost i) (in_status i))
         (scopeInputs g).
Proof.
  intros T. unfold scopeInputs. rewrite Forall_forall in *. intros i Hi.
  apply in_map_iff in Hi. destruct Hi as (s & E & Hs). subst i.
  apply filter_In in Hs. destruct Hs as [Hs N]. simpl.
  split; [exact N|]. split; [now apply T|].
  destruct (scopeStatusOf (optValue (sd_status s))) as [st|] eqn:C.
  - exact (cleanStatus_range _ _ C).
  - simpl. auto.
Qed.

Lemma like_commitGroup (g : Group) :
  Forall (fun s => trim (sd_name s) = sd_name s) (g_scopes g) ->
  respects (scopesLike sanitized) (commitGroup g).
Proof.
  intros T. open_commitGroup g.
  destruct (dateOf (g_proposalDate g)) as [p|];
    [destruct (dateOf (g_dueDate g)) as [d|]|];
    try (apply respects_throw; apply scopesLike_refl).
  apply (like_upserts sanitized g
           (fun company contact =>
              creates <- lift (scopeCreates g) ;;
              created <- bid_create _ ;; ret (fst created))).
  intros company contact. rewrite scopeCreates_ret, bind_lift_ret. cbv beta.
  apply respects_bind; [apply scopesLike_trans| |].
  - apply like_bid_create. now apply scopeCreates_sanitized.
  - intros created. apply respects_ret. apply scopesLike_refl.
Qed.

Lemma like_commitLoop (groups : Grouped) acc :
  Forall (fun kg => Forall (fun s => trim (sd_name s) = sd_name s)
                           (g_scopes (snd kg))) groups ->
  respects (scopesLike sanitized) (commitLoop groups acc).
Proof.
  pose proof (scopesLike_refl sanitized) as Rr.
  pose proof (scopesLike_trans sanitized) as Rt.
  intros F. revert acc. induction F as [|kg groups T _ IH]; intros acc; simpl.
  - now apply respects_ret.
  - apply respects_bind; [exact Rt| |exact IH].
    unfold commitOne. apply respects_tryCatch; [exact Rt| |].
    + apply respects_bind; [exact Rt|now apply like_commitGroup|].
      intros b. now apply respects_ret.
    + intros e. now apply respects_ret.
Qed.

Lemma cell_trimmed (v : value) : trim (cellOf v) = cellOf v.
Proof.
  unfold cellOf, cell.
  destruct (toString (nullish v (VStr EmptyString))); cbn [andThen orElse];
    [apply trim_idem|reflexivity].
Qed.

Lemma groupRows_drafts_trimmed (rows : list Row) :
  Forall (fun kg => Forall (fun s => trim (sd_name s) = sd_name s)
                           (g_scopes (snd kg))) (grouping rows).
Proof.
  rewrite Forall_forall. intros [k g] H. simpl.
  apply entry_is_lookup in H. rewrite assoc_groupRows in H.
  destruct (rowsOf k rows) as [|first rest]; [discriminate|].
  inversion H; subst g. unfold groupOf. cbn [g_scopes].
  rewrite Forall_forall. intros s Hs. apply in_map_iff in Hs.
  destruct Hs as (r & E & _). subst s. apply cell_trimmed.
Qed.

Lemma sanitizeScope_sanitized (s : value) (out : ScopeInput) :
  sanitizeScope s = Ret out ->
  trim (in_name out) = in_name out
  /\ In (in_status out) ["Pending"; "Won"; "Lost"].
Proof.
  intros H. apply sanitizeScope_ret in H.
  destruct H as (name & nameText & cost & n & status & statusText
                 & _ & _ & _ & _ & _ & _ & E).
  subst out. cbn [in_name in_status].
  split; [apply trim_idem|].
  destruct (existsb (String.eqb statusText) VALID_SCOPE_STATUS) eqn:E.
  - apply existsb_exists in E. destruct E as (x & Hx & E).
    apply String.eqb_eq in E. rewrite E. exact Hx.
  - simpl. auto.
Qed.

Lemma sanitizeScopes_sanitized (raw : value) (out : list ScopeInput) :
  sanitizeScopes raw = Ret out ->
  Forall (fun i => sanitized (in_name i) (in_cost i) (in_status i)) out.
Proof.
  unfold sanitizeScopes.
  destruct (negb (truthy raw) || negb (isArray raw)).
  { intros H. inversion H. constructor. }
  destruct raw; try (intros H; inversion H; constructor).
  unfold andThen.
  destruct (mapOutcome sanitizeScope items) as [mapped|] eqn:E; [|discriminate].
  intros H. inversion H; subst.
  apply mapOutcome_Forall
    with (P := fun i => trim (in_name i) = in_name i
                        /\ In (in_status i) ["Pending"; "Won"; "Lost"]) in E.
  - rewrite Forall_forall in *. intros i Hi. apply filter_In in Hi.
    destruct Hi as [Hi N]. destruct (E i Hi) as [T S].
    repeat split; assumption.
  - intros x y Hy. now apply sanitizeScope_sanitized in Hy.
Qed.

(** X6. Whatever the request or the upload, a scope row written by the bulk
    import, by a create or by an update has a name that is not empty and
    carries no white space around it, and a status that is Pending, Won or
    Lost. *)
Theorem written_scopes_are_sanitized :
  (forall (rows : list Row) (w : World),
     scopesLike sanitized (db w) (db (snd (postBids (Some rows) w))))
  /\ (forall (req : Request) (w : World),
        scopesLike sanitized (db w) (db (snd (postBid req w)))
        /\ scopesLike sanitized (db w) (db (snd (putBid req w)))).
Proof.
  pose proof (scopesLike_refl sanitized) as Rr.
  pose proof (scopesLike_trans sanitized) as Rt.
  split.
  - intros rows w. unfold postBids.
    destruct (groupRows rows) as [grouped|e] eqn:G; [|apply Rr].
    apply groupRows_grouping in G. subst grouped.
    pose proof (like_commitLoop (grouping rows) ([], [])
                  (groupRows_drafts_trimmed rows)) as L.
    destruct (commitLoop (grouping rows) ([], []) w) as [[[res errs]|e] w'] eqn:E;
      simpl; exact (L _ _ _ E).
  - intros req w. split.
    + unfold postBid. apply respects_guarded.
      apply respects_bind_lift; [exact Rr|]. intros raw _.
      apply respects_bind_lift; [exact Rr|]. intros scopes S.
      apply respects_bind_lift; [exact Rr|]. intros data C.
      apply respects_bind; [exact Rt| |intros; now apply respects_ret].
      apply like_bid_create. rewrite (createData_scopes _ _ _ C).
      exact (sanitizeScopes_sanitized _ _ S).
    + unfold putBid. apply respects_guarded.
      destruct (negb (isFinite (stringToNumber (params_id req))));
        [now apply respects_ret|].
      apply respects_bind_lift; [exact Rr|]. intros raw _.
      apply respects_bind_lift; [exact Rr|]. intros scopes S.
      apply respects_bind_lift; [exact Rr|]. intros data C.
      apply respects_bind; [exact Rt| |intros; now apply respects_ret].
      apply respects_transaction; [exact Rr|].
      apply respects_bind; [exact Rt|apply like_scope_deleteMany|].
      intros _. apply like_bid_update. rewrite (updateData_scopes _ _ _ C).
      exact (sanitizeScopes_sanitized _ _ S).
Qed.

End Written.

(** ** Invariants of the bulk import *)

Section ImportInvariants.

Import Importer.

Context {host : Host}.

Local Open Scope store_scope.

Lemma bidsFrom_refl P (d : Db) : bidsFrom P d d.
Proof. intros b H. now left. Qed.

Lemma bidsFrom_trans P (d1 d2 d3 : Db) :
  bidsFrom P d1 d2 -> bidsFrom P d2 d3 -> bidsFrom P d1 d3.
Proof.
  intros H12 H23 b H. destruct (H23 b H) as [H2|H2]; [|now right].
  exact (H12 b H2).
Qed.

Lemma bidsFrom_of_keepsBids P {A} (m : M A) :
  keepsBids m -> respects (bidsFrom P) m.
Proof.
  intros K w o w' H b Hb. left. now rewrite <- (K _ _ _ H).
Qed.

(** The status a created row carries is the text it was given. *)
Lemma newBidRow_status (d : Db) (data : BidData) (b : Bid) :
  newBidRow d data = Ret b ->
  d_bidStatus data = VUndefined \/ d_bidStatus data = VStr (bidStatus b).
Proof.
  unfold newBidRow, andThen.
  destruct (intArg "clientCompanyId" (d_clientCompanyId data)); [|discriminate].
  destruct (optIntArg "contactId" (d_contactId data)); [|discriminate].
  destruct (dateArg "proposalDate" (d_proposalDate data)); [|discriminate].
  destruct (dateArg "dueDate" (d_dueDate data)); [|discriminate].
  destruct (dateArg "followUpOn" (d_followUpOn data)); [|discriminate].
  destruct (optTextArg "jobLocation" (d_jobLocation data)); [|discriminate].
  destruct (optTextArg "leadSource" (d_leadSource data)); [|discriminate].
  destruct (d_bidStatus data) as [| | | |s| | |]; simpl; try discriminate;
    [now left|].
  destruct (requireCompany d a); [|discriminate].
  destruct (requireContact d (orKeep a0 None)); [|discriminate].
  intros H. inversion H. now right.
Qed.

Lemma canonical_bid_create (data : BidData) :
  d_bidStatus data <> VUndefined ->
  (forall s, d_bidStatus data = VStr s -> In s bidStatuses) ->
  respects (bidsFrom canonicalBid) (bid_create data).
Proof.
  intros NU St w o w' H. pose proof (bid_create_adds _ _ _ _ H) as A.
  destruct o as [[b rows]|e].
  - destruct A as (N & _ & B & _). intros x Hx. rewrite B in Hx.
    apply in_app_or in Hx. destruct Hx as [Hx|[Hx|[]]]; [now left|right].
    subst x. apply newBidRow_status in N. destruct N as [N|N]; [contradiction|].
    exact (St _ N).
  - rewrite A. apply bidsFrom_refl.
Qed.

Lemma statusAnswer_cleanBidStatus (v : value) : statusAnswer (bidStatusOf v).
Proof. apply statusAnswer_bidStatusOf. Qed.

Lemma statusAnswer_firstNonActive (l : list value) :
  Forall statusAnswer l -> statusAnswer (firstNonActive l).
Proof.
  intros F. unfold firstNonActive.
  destruct (find notActive l) as [v|] eqn:E.
  - apply find_some in E. rewrite Forall_forall in F. now apply F.
  - right; right. exists "Active". simpl. auto.
Qed.

Lemma groupRows_statuses (rows : list Row) :
  Forall (fun kg => statusAnswer (g_bidStatus (snd kg))) (grouping rows).
Proof.
  rewrite Forall_forall. intros [k g] H. simpl.
  apply entry_is_lookup in H. rewrite assoc_groupRows in H.
  destruct (rowsOf k rows) as [|first rest]; [discriminate|].
  inversion H; subst g. unfold groupOf. cbn [g_bidStatus].
  apply statusAnswer_firstNonActive. rewrite Forall_forall.
  intros v Hv. apply in_map_iff in Hv. destruct Hv as (r & E & _). subst v.
  apply statusAnswer_cleanBidStatus.
Qed.

Lemma canonical_commitGroup (g : Group) :
  statusAnswer (g_bidStatus g) ->
  respects (bidsFrom canonicalBid) (commitGroup g).
Proof.
  intros S.
  pose proof (bidsFrom_refl canonicalBid) as Rr.
  pose proof (bidsFrom_trans canonicalBid) as Rt.
  open_commitGroup g.
  destruct (dateOf (g_proposalDate g)) as [p|];
    [destruct (dateOf (g_dueDate g)) as [d|]|];
    try (now apply respects_throw).
  apply respects_bind; [exact Rt| |].
  { apply bidsFrom_of_keepsBids, keepsBids_company_findFirst. }
  intros found. apply respects_bind; [exact Rt| |].
  { apply bidsFrom_of_keepsBids.
    destruct found; [apply keepsBids_ret | apply keepsBids_company_create]. }
  intros company. apply respects_bind; [exact Rt| |].
  { apply bidsFrom_of_keepsBids.
    destruct (g_contactName g) as [name|]; [|apply keepsBids_ret].
    apply keepsBids_bind; [apply keepsBids_contact_findFirst|].
    intros [c|]; [apply keepsBids_ret|].
    apply keepsBids_bind; [apply keepsBids_contact_create|].
    intros c. apply keepsBids_ret. }
  intros contact. rewrite scopeCreates_ret, bind_lift_ret. cbv beta.
  apply respects_bind; [exact Rt| |].
  2:{ intros created. now apply respects_ret. }
  apply canonical_bid_create; cbn [d_bidStatus];
    destruct S as [S|[S|(s & I & S)]]; rewrite S; simpl.
  - discriminate.
  - discriminate.
  - destruct (nonEmpty s); discriminate.
  - discriminate.
  - discriminate.
  - intros s' E. destruct (nonEmpty s) eqn:N.
    + inversion E. now subst.
    + inversion E. subst. simpl. auto.
Qed.

Lemma canonical_commitLoop (groups : Grouped) acc :
  Forall (fun kg => statusAnswer (g_bidStatus (snd kg))) groups ->
  respects (bidsFrom canonicalBid) (commitLoop groups acc).
Proof.
  pose proof (bidsFrom_refl canonicalBid) as Rr.
  pose proof (bidsFrom_trans canonicalBid) as Rt.
  intros F. revert acc. induction F as [|kg groups T _ IH]; intros acc; simpl.
  - now apply respects_ret.
  - apply respects_bind; [exact Rt| |exact IH].
    unfold commitOne. apply respects_tryCatch; [exact Rt| |].
    + apply respects_bind; [exact Rt|now apply canonical_commitGroup|].
      intros b. now apply respects_ret.
    + intros e. now apply respects_ret.
Qed.

(** X7. Every bid a bulk import writes has a status among Active, Complete,
    Archived, Hot and Cold, whatever the status cells of the upload hold: an
    inherited member answered by [cleanBidStatus] is never written as a
    status. *)
Theorem imported_bids_are_canonical (rows : list Row) (w : World) :
  bidsFrom canonicalBid (db w) (db (snd (postBids (Some rows) w))).
Proof.
  unfold postBids.
  destruct (groupRows rows) as [grouped|e] eqn:G; [|apply bidsFrom_refl].
  apply groupRows_grouping in G. subst grouped.
  pose proof (canonical_commitLoop (grouping rows) ([], [])
                (groupRows_statuses rows)) as L.
  destruct (commitLoop (grouping rows) ([], []) w) as [[[res errs]|e] w'] eqn:E;
    simpl; exact (L _ _ _ E).
Qed.

(** *** Companies *)

Lemma keepsCompanies_ret {A} (a : A) : keepsCompanies (ret a).
Proof. intros w o w' H. now inversion H. Qed.

Lemma keepsCompanies_bind {A B} (m : M A) (k : A -> M B) :
  keepsCompanies m -> (forall a, keepsCompanies (k a)) ->
  keepsCompanies (bind m k).
Proof.
  intros Hm Hk. apply respects_bind; [|exact Hm|exact Hk].
  intros d1 d2 d3 E1 E2. now rewrite E2.
Qed.

Lemma keepsCompanies_query {A} (c : Call) (f : Db -> Outcome (A * Db)) :
  (forall d a d', f d = Ret (a, d') -> companies d' = companies d) ->
  keepsCompanies (Store.query c f).
Proof. intros Hf. apply respects_query; [reflexivity | exact Hf]. Qed.

(** After the company is upserted nothing touches the company table. *)
Lemma keepsCompanies_after_upsert (g : Group) (company : Company)
      (proposal due : Date) :
  keepsCompanies
    (contact <- match g_contactName g with
                | Some name =>
                    c <- contact_findFirst name (company_id company) ;;
                    match c with
                    | Some c => ret (Some c)
                    | None =>
                        c <- contact_create name (company_id company) ;;
                        ret (Some c)
                    end
                | None => ret None
                end ;;
     creates <- lift (scopeCreates g) ;;
     created <- bid_create
       {| d_projectName := g_projectName g;
          d_clientCompanyId := VNum (ofZ (company_id company));
          d_contactId := match contact with
                         | Some c => VNum (ofZ (contact_id c))
                         | None => VNull
                         end;
          d_proposalDate := Some proposal;
          d_dueDate := Some due;
          d_followUpOn := None;
          d_jobLocation := orNullValue (g_jobLocation g);
          d_leadSource := orNullValue (g_leadSource g);
          d_bidStatus := if truthy (g_bidStatus g) then g_bidStatus g
                         else VStr "Active";
          d_scopes := creates |} ;;
     ret (fst created)).
Proof.
  apply keepsCompanies_bind.
  { destruct (g_contactName g) as [name|]; [|apply keepsCompanies_ret].
    apply keepsCompanies_bind.
    { apply keepsCompanies_query. intros d a d' H. now inversion H. }
    intros [c|]; [apply keepsCompanies_ret|].
    apply keepsCompanies_bind; [|intros; apply keepsCompanies_ret].
    apply keepsCompanies_query. intros d a d'. unfold contactCreate, andThen.
    destruct (requireCompany d (company_id company)); [|discriminate].
    intros H. now inversion H. }
  intros contact. rewrite scopeCreates_ret, bind_lift_ret. cbv beta.
  apply keepsCompanies_bind; [|intros; apply keepsCompanies_ret].
  apply keepsCompanies_query. intros d a d'. unfold bidCreate, andThen.
  destruct (newBidRow d _); [|discriminate]. intros H. now inversion H.
Qed.

Lemma find_none_name (name : string) (l : list Company) :
  find (fun c => String.eqb (company_name c) name) l = None ->
  ~ In name (map company_name l).
Proof.
  intros F H. apply in_map_iff in H. destruct H as (c & E & I).
  pose proof (find_none _ _ F c I) as N. simpl in N.
  rewrite E, String.eqb_refl in N. discriminate.
Qed.

(** What committing one group does to the company table: nothing when a
    date does not parse or a company of that name exists, else one company
    of that name is added. *)
Lemma commitGroup_companies (g : Group) (w : World) (o : Outcome Bid)
      (w' : World) :
  commitGroup g w = (o, w') ->
  companyNames (db w') = companyNames (db w)
  \/ (~ In (g_clientCompany g) (companyNames (db w))
      /\ companyNames (db w')
         = (companyNames (db w) ++ [g_clientCompany g])%list).
Proof.
  open_commitGroup g.
  destruct (dateOf (g_proposalDate g)) as [p|];
    [destruct (dateOf (g_dueDate g)) as [d|]|].
  2,3: intros H; inversion H; now left.
  unfold bind at 1. unfold company_findFirst at 1, Store.query at 1.
  cbv beta iota.
  destruct (find (fun c => String.eqb (company_name c) (g_clientCompany g))
                 (companies (db w))) as [c|] eqn:F.
  - unfold bind at 1, ret at 1. intros H. left.
    apply (keepsCompanies_after_upsert g c p d) in H. simpl in H.
    unfold companyNames. now rewrite H.
  - unfold bind at 1. unfold company_create at 1, Store.query at 1,
      companyCreate at 1. cbv beta iota zeta. intros H. right.
    apply (keepsCompanies_after_upsert g _ p d) in H. simpl in H.
    split; [now apply find_none_name|].
    unfold companyNames. rewrite H, map_app. reflexivity.
Qed.

Lemma commitLoop_companies (groups : Grouped) acc (w : World) o (w' : World) :
  commitLoop groups acc w = (o, w') ->
  NoDup (companyNames (db w)) -> NoDup (companyNames (db w')).
Proof.
  revert acc w. induction groups as [|kg groups IH]; intros acc w; simpl.
  - intros H. now inversion H.
  - unfold bind. destruct (commitOne kg acc w) as [[acc'|e] w1] eqn:E.
    2:{ exfalso. destruct (commitOne_cases kg acc w) as (? & ? & ? & H1 & _).
        rewrite H1 in E. discriminate. }
    intros H N. apply (IH _ _ H). clear H IH.
    unfold commitOne, tryCatch, bind in E.
    destruct (commitGroup (snd kg) w) as [[b|e] w2] eqn:G;
      inversion E; subst; clear E;
      destruct (commitGroup_companies _ _ _ _ G) as [S|[NI S]]; rewrite S;
      try exact N;
      (apply NoDup_app; [exact N | repeat constructor; intros [] |];
       intros x Hx [Hk|[]]; subst x; contradiction).
Qed.

(** X8. The import keeps company names unique: if no two companies of the
    store bear the same name before an upload, none do after it.  A group
    whose client company exists is attached to it, and a new company is
    created only for a name the store does not hold. *)
Theorem import_keeps_company_names_unique (rows : list Row) (w : World) :
  NoDup (companyNames (db w)) ->
  NoDup (companyNames (db (snd (postBids (Some rows) w)))).
Proof.
  intros N. unfold postBids.
  destruct (groupRows rows) as [grouped|e]; [|exact N].
  destruct (commitLoop grouped ([], []) w) as [[[res errs]|e] w'] eqn:E;
    simpl; exact (commitLoop_companies _ _ _ _ _ E N).
Qed.

End ImportInvariants.

(** ** Day-first dates *)

Section DayFirst.

Import Importer.

Context {host : Host}.

Lemma digit_is_no_separator (c : ascii) :
  isDigit c = true -> isSeparator c = false.
Proof.
  unfold isDigit, isSeparator. intros H.
  apply andb_true_iff in H. destruct H as [H1 H2].
  apply Z.leb_le in H1. apply Z.leb_le in H2.
  apply orb_false_iff. split; apply Z.eqb_neq; lia.
Qed.

Lemma separator_is_no_digit (c : ascii) :
  isSeparator c = true -> isDigit c = false.
Proof.
  intros S. destruct (isDigit c) eqn:D; [|reflexivity].
  rewrite (digit_is_no_separator _ D) in S. discriminate.
Qed.

Lemma digitValue_bounds (c : ascii) :
  isDigit c = true -> 0 <= digitValue c <= 9.
Proof.
  unfold isDigit, digitValue. intros H.
  apply andb_true_iff in H. destruct H as [H1 H2].
  apply Z.leb_le in H1. apply Z.leb_le in H2. lia.
Qed.

(** What [\d{1,2}] takes: one or two digits off the front. *)
Lemma oneOrTwoDigits_shape (l a r : list ascii) :
  oneOrTwoDigits l = Some (a, r) ->
  l = (a ++ r)%list
  /\ Forall (fun c => isDigit c = true) a
  /\ (List.length a = 1 \/ List.length a = 2)%nat.
Proof.
  unfold oneOrTwoDigits.
  destruct l as [|x [|y l]].
  - discriminate.
  - destruct (isDigit x) eqn:X; [|discriminate].
    intros H. inversion H; subst. repeat split; auto.
  - destruct (isDigit x) eqn:X; [|discriminate].
    destruct (isDigit y) eqn:Y; intros H; inversion H; subst;
      repeat split; auto.
Qed.

Lemma twoDigits_bounds (a : list ascii) :
  Forall (fun c => isDigit c = true) a ->
  (List.length a = 1 \/ List.length a = 2)%nat ->
  0 <= valueOfDigits 10 digitValue a <= 99.
Proof.
  intros F L.
  destruct a as [|x [|y [|z a]]]; simpl in L;
    try (destruct L; discriminate).
  - inversion F as [|? ? X _]; subst. apply digitValue_bounds in X.
    unfold valueOfDigits. simpl. lia.
  - inversion F as [|? ? X F']; subst. inversion F' as [|? ? Y _]; subst.
    apply digitValue_bounds in X. apply digitValue_bounds in Y.
    unfold valueOfDigits. simpl. lia.
Qed.

Lemma fourDigits_bounds (c1 c2 c3 c4 : ascii) :
  forallb isDigit [c1; c2; c3; c4] = true ->
  0 <= valueOfDigits 10 digitValue [c1; c2; c3; c4] <= 9999.
Proof.
  simpl. rewrite !andb_true_iff. intros (D1 & D2 & D3 & D4 & _).
  apply digitValue_bounds in D1, D2, D3, D4.
  unfold valueOfDigits. simpl. lia.
Qed.

(** A text with a separator after one or two digits does not start with
    [\d{4}-]. *)
Lemma isoPrefix_separator (a : list ascii) (s : ascii) (r : list ascii) :
  (List.length a = 1 \/ List.length a = 2)%nat ->
  isSeparator s = true ->
  isoPrefix (a ++ s :: r)%list = false.
Proof.
  intros L S. apply separator_is_no_digit in S.
  destruct a as [|x [|y [|z a]]]; simpl in L;
    try (destruct L; discriminate).
  - destruct r as [|? [|? [|? [|? [|? [|? [|? [|? r]]]]]]]]; try reflexivity.
    cbn [app isoPrefix forallb]. rewrite S.
    now rewrite andb_false_r.
  - destruct r as [|? [|? [|? [|? [|? [|? [|? r]]]]]]]; try reflexivity.
    cbn [app isoPrefix forallb]. rewrite S.
    now rewrite !andb_false_r.
Qed.

Lemma matchDMY_shape (l a b y : list ascii) :
  matchDMY l = Some (a, b, y) ->
  isoPrefix l = false
  /\ 0 <= valueOfDigits 10 digitValue a <= 99
  /\ 0 <= valueOfDigits 10 digitValue b <= 99
  /\ 0 <= valueOfDigits 10 digitValue y <= 9999.
Proof.
  unfold matchDMY.
  destruct (oneOrTwoDigits l) as [[a' [|s1 r1]]|] eqn:A; try discriminate.
  destruct (isSeparator s1) eqn:S1; [|discriminate].
  destruct (oneOrTwoDigits r1) as [[b' [|s2 r2]]|] eqn:B; try discriminate.
  destruct (isSeparator s2) eqn:S2; [|discriminate].
  destruct r2 as [|c1 [|c2 [|c3 [|c4 [|c5 r2]]]]]; try discriminate.
  destruct (forallb isDigit [c1; c2; c3; c4]) eqn:Y; [|discriminate].
  intros H. inversion H; subst a' b' y. clear H.
  apply oneOrTwoDigits_shape in A. destruct A as (El & Fa & La).
  apply oneOrTwoDigits_shape in B. destruct B as (_ & Fb & Lb).
  split; [|split; [|split]].
  - rewrite El. now apply isoPrefix_separator.
  - now apply twoDigits_bounds.
  - now apply twoDigits_bounds.
  - now apply fourDigits_bounds.
Qed.

Lemma daysInMonth_bounds (y m : Z) : 28 <= daysInMonth y m <= 31.
Proof.
  unfold daysInMonth.
  destruct (m =? 1); [destruct (inLeapYear y); lia|].
  destruct ((m =? 3) || (m =? 5) || (m =? 8) || (m =? 10)); lia.
Qed.

Lemma daysBeforeMonth_bounds (y : Z) (m : nat) :
  0 <= daysBeforeMonth y m <= 31 * Z.of_nat m.
Proof.
  induction m as [|m IH].
  - simpl. lia.
  - cbn [daysBeforeMonth].
    pose proof (daysInMonth_bounds y (Z.of_nat m)). lia.
Qed.

(** Days, months and years of the D/M/Y shape stay far inside the range of
    time values. *)
Lemma makeDay_bounds (year month date : Z) :
  0 <= year <= 9999 -> -1 <= month <= 98 -> 0 <= date <= 99 ->
  Z.abs (makeDay year month date * msPerDay) <= 8640000000000000.
Proof.
  intros Hy Hm Hd. unfold makeDay, msPerDay, dayFromYear.
  pose proof (Z.mod_pos_bound month 12 ltac:(lia)) as Mn.
  pose proof (daysBeforeMonth_bounds (year + month / 12)
                (Z.to_nat (month mod 12))) as Db.
  rewrite Z2Nat.id in Db by lia.
  pose proof (Z.div_mod month 12 ltac:(lia)) as Dm.
  set (q := month / 12) in *.
  assert (-1 <= q <= 8) by lia.
  set (ym := year + q) in *.
  assert (-1 <= ym <= 10007) by (unfold ym; lia).
  clearbody ym q.
  set (dm := daysBeforeMonth ym (Z.to_nat (month mod 12))) in *.
  clearbody dm.
  pose proof (Z.div_mod (ym - 1969) 4 ltac:(lia)) as D4.
  pose proof (Z.mod_pos_bound (ym - 1969) 4 ltac:(lia)) as M4.
  pose proof (Z.div_mod (ym - 1901) 100 ltac:(lia)) as D100.
  pose proof (Z.mod_pos_bound (ym - 1901) 100 ltac:(lia)) as M100.
  pose proof (Z.div_mod (ym - 1601) 400 ltac:(lia)) as D400.
  pose proof (Z.mod_pos_bound (ym - 1601) 400 ltac:(lia)) as M400.
  set (q4 := (ym - 1969) / 4) in *. set (q100 := (ym - 1901) / 100) in *.
  set (q400 := (ym - 1601) / 400) in *.
  clearbody q4 q100 q400. lia.
Qed.

(** X9. A date of the shape D/M/Y or D-M-Y (one or two digits, one or two
    digits, four digits) always parses, whatever the numbers are: it is read
    day first through [Date.UTC], with no check against the calendar and
    without consulting the host's parser, and a year below 100 counts from
    1900. *)
Theorem day_month_year_always_parses (text : string) (a b y : list ascii) :
  matchDMY (chars (trim text)) = Some (a, b, y) ->
  let day := valueOfDigits 10 digitValue a in
  let month := valueOfDigits 10 digitValue b in
  let year := valueOfDigits 10 digitValue y in
  parseDateLoose (VStr text)
  = Ret (Some (DateAt (makeDay (if year <=? 99 then 1900 + year else year)
                               (month - 1) day * msPerDay))).
Proof.
  intros Hm day month year.
  destruct (matchDMY_shape _ _ _ _ Hm) as (Iso & Ba & Bb & By).
  unfold parseDateLoose.
  assert (T : truthy (VStr text) = true).
  { destruct text; [|reflexivity]. vm_compute in Hm. discriminate. }
  rewrite T. cbn [negb].
  change (toString (VStr text)) with (Ret text). cbn [andThen].
  rewrite Iso, Hm.
  fold day month year. unfold dateUTC.
  assert (Z0 : (0 <=? year) = true) by (apply Z.leb_le; unfold year; lia).
  rewrite Z0. cbn [andb]. unfold timeClip.
  set (yr := if year <=? 99 then 1900 + year else year).
  assert (Hyr : 0 <= yr <= 9999).
  { unfold yr. destruct (year <=? 99) eqn:E.
    - apply Z.leb_le in E. unfold year in *. lia.
    - unfold year in *. lia. }
  assert (Hb : Z.abs (makeDay yr (month - 1) day * msPerDay) <= 8640000000000000).
  { apply makeDay_bounds; unfold month, day; lia. }
  apply Z.leb_le in Hb. rewrite Hb. reflexivity.
Qed.

End DayFirst.

Lemma day_month_year_witness :
  Importer.parseDateLoose (host := Samples.host) (VStr " 5/03/2024 ")
  = Ret (Some (DateAt (makeDay 2024 2 5 * msPerDay))).
Proof.
  exact (day_month_year_always_parses (host := Samples.host) " 5/03/2024 "
           (chars "5") (chars "03") (chars "2024") eq_refl).
Defined.

(** ** Deleting a bid *)

Section Deleting.

Import Bids.

Context {host : Host}.

Local Open Scope store_scope.

Lemma filter_length_le {A} (p : A -> bool) (l : list A) :
  (List.length (filter p l) <= List.length l)%nat.
Proof.
  induction l as [|x l IH]; simpl; [lia|]. destruct (p x); simpl; lia.
Qed.

(** Rows were removed exactly when one matched. *)
Lemma removed_none {A} (p : A -> bool) (l : list A) :
  (removed l (filter (fun x => negb (p x)) l) =? 0) =
  match find p l with Some _ => false | None => true end.
Proof.
  unfold removed. induction l as [|x l IH]; [reflexivity|].
  cbn [filter find]. destruct (p x) eqn:P; cbn [negb].
  - pose proof (filter_length_le (fun x => negb (p x)) l).
    apply Z.eqb_neq. cbn [List.length]. lia.
  - rewrite <- IH. cbn [List.length]. f_equal. lia.
Qed.

Lemma ownedBy_notOf (key : Z) (l : list Child) :
  ownedBy key (filter (notOf key) l) = [].
Proof.
  unfold ownedBy, notOf. induction l as [|c l IH]; [reflexivity|].
  cbn [filter]. destruct (child_bidId c =? key) eqn:E; cbn [negb filter].
  - exact IH.
  - now rewrite E.
Qed.

(** The delete route on an id that reads as an integer. *)
Lemma deleteBid_run (req : Request) (w : World) (key : Z) :
  asInteger (parseInt10 (params_id req)) = Some key ->
  deleteBid req w =
  (match findBid (db w) key with
   | Some _ => End 204
   | None => Json 404 (JObj [("error", JStr "Not found")])
   end,
   {| db :=
        {| companies := companies (db w);
           contacts := contacts (db w);
           bids := filter (fun b => negb (bid_id b =? key)) (bids (db w));
           scopes := filter (fun s => negb (scope_bidId s =? key)) (scopes (db w));
           notes := filter (notOf key) (notes (db w));
           attachments := filter (notOf key) (attachments (db w));
           bidTags := filter (notOf key) (bidTags (db w));
           nextCompanyId := nextCompanyId (db w);
           nextContactId := nextContactId (db w);
           nextBidId := nextBidId (db w);
           nextScopeId := nextScopeId (db w) |};
      calls := (calls w ++ [ScopeDeleteMany; NoteDeleteMany;
                            AttachmentDeleteMany; BidTagDeleteMany;
                            BidDeleteMany])%list |}).
Proof.
  intros I. unfold deleteBid, guarded.
  rewrite (asInteger_isFinite _ _ I). unfold negb. cbv iota.
  unfold bind at 1. unfold transaction.
  unfold scope_deleteMany, note_deleteMany, attachment_deleteMany,
    bidTag_deleteMany, bid_deleteMany.
  rewrite bind_query. unfold scopeDeleteMany, intArg at 1. rewrite I.
  cbn [andThen db calls]. cbv zeta.
  rewrite bind_query. unfold noteDeleteMany, intArg at 1. rewrite I.
  cbn [andThen db calls]. cbv zeta.
  rewrite bind_query. unfold attachmentDeleteMany, intArg at 1. rewrite I.
  cbn [andThen db calls]. cbv zeta.
  rewrite bind_query. unfold bidTagDeleteMany, intArg at 1. rewrite I.
  cbn [andThen db calls]. cbv zeta.
  unfold Store.query, bidDeleteMany, intArg. rewrite I.
  cbn [andThen db calls]. cbv zeta.
  unfold scopesOf, withBids, withBidTags, withAttachments, withNotes, withScopes.
  cbn [scopes notes attachments bidTags bids companies contacts
       nextCompanyId nextContactId nextBidId nextScopeId].
  rewrite filter_owner_removed, Z.eqb_refl, !ownedBy_notOf.
  cbn [List.length Z.of_nat Z.add Z.eqb orb].
  rewrite removed_none. fold (findBid (db w) key).
  rewrite <- !app_assoc. cbn [app].
  destruct (findBid (db w) key); reflexivity.
Qed.

(** X10. Deleting a bid.  For an id that reads as an integer the route
    removes the bid of that id together with every scope, note, attachment
    and tag link that belongs to it, and leaves every other row of every
    table in place; it answers 204 when such a bid existed and 404 when none
    did, and never passes an error on. *)
Theorem delete_removes_bid_and_dependents (req : Request) (w : World) (key : Z) :
  asInteger (parseInt10 (params_id req)) = Some key ->
  fst (deleteBid req w)
  = match findBid (db w) key with
    | Some _ => End 204
    | None => Json 404 (JObj [("error", JStr "Not found")])
    end
  /\ let d := db w in
     let d' := db (snd (deleteBid req w)) in
     bids d' = filter (fun b => negb (bid_id b =? key)) (bids d)
     /\ scopes d' = filter (fun s => negb (scope_bidId s =? key)) (scopes d)
     /\ notes d' = filter (notOf key) (notes d)
     /\ attachments d' = filter (notOf key) (attachments d)
     /\ bidTags d' = filter (notOf key) (bidTags d)
     /\ companies d' = companies d
     /\ contacts d' = contacts d.
Proof.
  intros I. rewrite (deleteBid_run req w key I). cbn [fst snd db].
  repeat split.
Qed.

(** An id that does not start with a number is refused before the store is
    touched. *)
Lemma deleteBid_invalid_id (req : Request) (w : World) :
  isFinite (parseInt10 (params_id req)) = false ->
  deleteBid req w = (Json 400 (JObj [("error", JStr "Invalid id")]), w).
Proof.
  intros F. unfold deleteBid, guarded. now rewrite F.
Qed.

End Deleting.

(** ** Creating a bid *)

Section Creating.

Import Bids.

Context {host : Host}.

Local Open Scope store_scope.

Lemma newBidRow_id (d : Db) (data : BidData) (b : Bid) :
  newBidRow d data = Ret b -> bid_id b = nextBidId d.
Proof.
  unfold newBidRow, andThen. intros U.
  repeat match type of U with
         | match ?x with _ => _ end = _ => destruct x; try discriminate
         end.
  all: now inversion U.
Qed.

(** The create call on the tables. *)
Lemma bid_create_run (data : BidData) (w : World) :
  bid_create data w =
  match newBidRow (db w) data with
  | Ret b =>
      let rows := scopeRows (bid_id b) (nextScopeId (db w)) (d_scopes data) in
      (Ret (b, rows),
       {| db := withScopes
                  (withBids (db w) (bids (db w) ++ [b])%list
                     (nextBidId (db w) + 1))
                  (scopes (db w) ++ rows)%list
                  (nextScopeId (db w) + Z.of_nat (List.length rows));
          calls := (calls w ++ [BidCreate])%list |})
  | Throw e => (Throw e, {| db := db w; calls := (calls w ++ [BidCreate])%list |})
  end.
Proof.
  unfold bid_create, Store.query, bidCreate, andThen.
  destruct (newBidRow (db w) data); reflexivity.
Qed.

(** X11. A create writes the bid and its scopes together or writes nothing.
    When the route answers 201, the store has gained one bid, numbered by the
    bid counter, and exactly the rows made from the sanitized incoming
    scopes, all owned by that bid; no other row of any table has changed and
    the response carries the bid with those rows.  With every other answer
    the store is exactly what it was. *)
Theorem create_writes_bid_with_scopes (req : Request) (w : World) :
  match postBid req w with
  | (Json 201 out, w') =>
      exists incoming data b,
        andThen (getProp (body req) "scopes") sanitizeScopes = Ret incoming
        /\ createData (body req) incoming = Ret data
        /\ newBidRow (db w) data = Ret b
        /\ bid_id b = nextBidId (db w)
        /\ bids (db w') = (bids (db w) ++ [b])%list
        /\ scopes (db w')
           = (scopes (db w)
              ++ scopeRows (bid_id b) (nextScopeId (db w)) incoming)%list
        /\ companies (db w') = companies (db w)
        /\ contacts (db w') = contacts (db w)
        /\ notes (db w') = notes (db w)
        /\ attachments (db w') = attachments (db w)
        /\ bidTags (db w') = bidTags (db w)
        /\ out = bidWithScopes
                   (b, scopeRows (bid_id b) (nextScopeId (db w)) incoming)
  | (_, w') => db w' = db w
  end.
Proof.
  unfold postBid, guarded.
  unfold bind at 1, lift at 1.
  destruct (getProp (body req) "scopes") as [raw|e] eqn:P; [|reflexivity].
  unfold bind at 1, lift at 1.
  destruct (sanitizeScopes raw) as [incoming|e] eqn:S; [|reflexivity].
  unfold bind at 1, lift at 1.
  destruct (createData (body req) incoming) as [data|e] eqn:U; [|reflexivity].
  unfold bind at 1. rewrite bid_create_run.
  destruct (newBidRow (db w) data) as [b|e] eqn:N; [|reflexivity].
  cbv zeta. unfold ret. cbv beta iota.
  rewrite (createData_scopes _ _ _ U).
  exists incoming, data, b. cbn [andThen]. rewrite S.
  pose proof (newBidRow_id _ _ _ N).
  repeat split; assumption.
Qed.

(** *** A scope entry that cannot be read *)

Lemma mapOutcome_throws {A B} (f : A -> Outcome B) (l : list A) :
  throws (mapOutcome f l) = existsb (fun x => throws (f x)) l.
Proof.
  induction l as [|x l IH]; cbn [mapOutcome existsb]; [reflexivity|].
  destruct (f x); cbn [andThen throws orb]; [|reflexivity].
  rewrite <- IH. now destruct (mapOutcome f l).
Qed.

Lemma getProp_ret (s : value) (k : string) :
  isNullish s = false -> exists v, getProp s k = Ret v.
Proof. destruct s; intros H; try discriminate; cbn [getProp]; eauto. Qed.

(** The entries [sanitizeScope] throws on: [null], [undefined], and those
    with a name, a cost or a status that does not convert. *)
Lemma sanitizeScope_throws (s : value) :
  throws (sanitizeScope s) = true <->
  isNullish s = true
  \/ exists name cost status,
       getProp s "name" = Ret name /\ getProp s "cost" = Ret cost
       /\ getProp s "status" = Ret status
       /\ (throws (toString (nullish name (VStr EmptyString)))
           || throws (toNumber (nullish cost (VNum posZero)))
           || throws (toString status)) = true.
Proof.
  destruct (isNullish s) eqn:N.
  - split; [now left|]. intros _.
    destruct s; try discriminate N; reflexivity.
  - destruct (getProp_ret s "name" N) as [name Pn].
    destruct (getProp_ret s "cost" N) as [cost Pc].
    destruct (getProp_ret s "status" N) as [status Ps].
    assert (E : throws (sanitizeScope s)
                = (throws (toString (nullish name (VStr EmptyString)))
                   || throws (toNumber (nullish cost (VNum posZero)))
                   || throws (toString status))).
    { unfold sanitizeScope, andThen. rewrite Pn, Pc, Ps.
      destruct (toString (nullish name (VStr EmptyString))); [|reflexivity].
      destruct (toNumber (nullish cost (VNum posZero))); [|reflexivity].
      destruct (toString status) as [statusText|]; [|reflexivity].
      now destruct (existsb (String.eqb statusText) VALID_SCOPE_STATUS). }
    rewrite E. split.
    + intros H. right. exists name, cost, status. auto.
    + intros [H|(name' & cost' & status' & Pn' & Pc' & Ps' & H)];
        [discriminate|].
      rewrite Pn in Pn'. rewrite Pc in Pc'. rewrite Ps in Ps'.
      inversion Pn'; inversion Pc'; inversion Ps'; subst. exact H.
Qed.

Lemma sanitizeScopes_array (items : list value) :
  sanitizeScopes (VArr items) =
  andThen (mapOutcome sanitizeScope items)
          (fun mapped => Ret (filter (fun s => nonEmpty (in_name s)) mapped)).
Proof. reflexivity. Qed.

Lemma sanitizeScopes_throws (items : list value) :
  throws (sanitizeScopes (VArr items))
  = existsb (fun s => throws (sanitizeScope s)) items.
Proof.
  rewrite sanitizeScopes_array, <- mapOutcome_throws.
  now destruct (mapOutcome sanitizeScope items).
Qed.

(** X12. A scope entry that cannot be read fails the whole write.
    [sanitizeScopes] throws on an array exactly when one of its entries is
    [null] or [undefined], or has a name, a cost or a status whose
    conversion throws (as that of an object with a member [toString] that
    is no function does); the create and update routes then pass the error
    on with the store and the log of client calls untouched, whatever else
    the payload holds. *)
Theorem null_scope_entry_fails_the_write (items : list value) :
  ((exists e, sanitizeScopes (VArr items) = Throw e)
   <-> exists s, In s items
         /\ (isNullish s = true
             \/ exists name cost status,
                  getProp s "name" = Ret name /\ getProp s "cost" = Ret cost
                  /\ getProp s "status" = Ret status
                  /\ (throws (toString (nullish name (VStr EmptyString)))
                      || throws (toNumber (nullish cost (VNum posZero)))
                      || throws (toString status)) = true))
  /\ (existsb isNullish items = true ->
      exists m, sanitizeScopes (VArr items) = Throw m)
  /\ sanitizeScopes
       (VArr [VObj [("name", VObj [("toString", VNum (ofZ 1))])]])
     = Throw (TypeError "Cannot convert object to primitive value")
  /\ forall (req : Request) (w : World) (e : Error),
       getProp (body req) "scopes" = Ret (VArr items) ->
       sanitizeScopes (VArr items) = Throw e ->
       postBid req w = (Next e, w)
       /\ (isFinite (stringToNumber (params_id req)) = true ->
           putBid req w = (Next e, w)).
Proof.
  assert (T : (exists e, sanitizeScopes (VArr items) = Throw e)
              <-> throws (sanitizeScopes (VArr items)) = true).
  { destruct (sanitizeScopes (VArr items)) as [out|e]; split.
    - intros [e E]. discriminate.
    - discriminate.
    - reflexivity.
    - eauto. }
  split; [|split; [|split]].
  - rewrite T, sanitizeScopes_throws, existsb_exists.
    split; intros (x & I & H); exists x; (split; [exact I|]);
      now apply sanitizeScope_throws.
  - intros N. apply T. rewrite sanitizeScopes_throws.
    apply existsb_exists in N. destruct N as (x & I & N).
    apply existsb_exists. exists x. split; [exact I|].
    apply sanitizeScope_throws. now left.
  - reflexivity.
  - intros req w e P S. exact (scopes_throw_nothing_written req w _ e P S).
Qed.

End Creating.

(** ** What an import leaves alone *)

Section OnlyAdds.

Import Importer.

Context {host : Host}.

Local Open Scope store_scope.

Lemma extends_refl {A} (l : list A) : extends l l.
Proof. exists []. now rewrite app_nil_r. Qed.

Lemma extends_trans {A} (l1 l2 l3 : list A) :
  extends l1 l2 -> extends l2 l3 -> extends l1 l3.
Proof.
  intros [m1 E1] [m2 E2]. exists (m1 ++ m2)%list.
  now rewrite E2, E1, app_assoc.
Qed.

Lemma extends_app {A} (l more : list A) : extends l (l ++ more)%list.
Proof. now exists more. Qed.

Lemma onlyAdds_refl (d : Db) : onlyAdds d d.
Proof. repeat split; apply extends_refl. Qed.

Lemma onlyAdds_trans (d1 d2 d3 : Db) :
  onlyAdds d1 d2 -> onlyAdds d2 d3 -> onlyAdds d1 d3.
Proof.
  intros (C1 & K1 & B1 & S1 & N1 & A1 & T1) (C2 & K2 & B2 & S2 & N2 & A2 & T2).
  repeat split; try (eapply extends_trans; eassumption); congruence.
Qed.

Lemma onlyAdds_commitGroup (g : Group) : respects onlyAdds (commitGroup g).
Proof.
  pose proof onlyAdds_refl as Rr. pose proof onlyAdds_trans as Rt.
  open_commitGroup g.
  destruct (dateOf (g_proposalDate g)) as [p|];
    [destruct (dateOf (g_dueDate g)) as [d|]|];
    try (now apply respects_throw).
  apply respects_bind; [exact Rt| |].
  { apply respects_query; [exact Rr|]. intros d0 a d' H. inversion H. apply Rr. }
  intros found. apply respects_bind; [exact Rt| |].
  { destruct found; [now apply respects_ret|].
    apply respects_query; [exact Rr|]. intros d0 a d' H.
    unfold companyCreate in H. inversion H.
    repeat split; try apply extends_refl. apply extends_app. }
  intros company. apply respects_bind; [exact Rt| |].
  { destruct (g_contactName g) as [name|]; [|now apply respects_ret].
    apply respects_bind; [exact Rt| |].
    { apply respects_query; [exact Rr|]. intros d0 a d' H. inversion H.
      apply Rr. }
    intros [c|]; [now apply respects_ret|].
    apply respects_bind; [exact Rt| |intros; now apply respects_ret].
    apply respects_query; [exact Rr|]. intros d0 a d'.
    unfold contactCreate, andThen.
    destruct (requireCompany d0 (company_id company)); [|discriminate].
    intros H. inversion H.
    repeat split; try apply extends_refl. apply extends_app. }
  intros contact. rewrite scopeCreates_ret, bind_lift_ret. cbv beta.
  apply respects_bind; [exact Rt| |intros; now apply respects_ret].
  apply respects_query; [exact Rr|]. intros d0 a d'. unfold bidCreate, andThen.
  destruct (newBidRow d0 _); [|discriminate]. intros H. inversion H.
  repeat split; try apply extends_refl; apply extends_app.
Qed.

Lemma onlyAdds_commitLoop (groups : Grouped) acc :
  respects onlyAdds (commitLoop groups acc).
Proof.
  pose proof onlyAdds_refl as Rr. pose proof onlyAdds_trans as Rt.
  revert acc. induction groups as [|kg groups IH]; intros acc; simpl.
  - now apply respects_ret.
  - apply respects_bind; [exact Rt| |exact IH].
    unfold commitOne. apply respects_tryCatch; [exact Rt| |].
    + apply respects_bind; [exact Rt|apply onlyAdds_commitGroup|].
      intros b. now apply respects_ret.
    + intros e. now apply respects_ret.
Qed.

(** X14. A bulk import only adds rows.  Whatever the upload holds, every
    company, contact, bid and scope that was in the store is still there
    afterwards, unchanged and in its place, with the new rows after them;
    notes, attachments and tag links are not touched. *)
Theorem import_only_adds_rows (rows : list Row) (w : World) :
  onlyAdds (db w) (db (snd (postBids (Some rows) w))).
Proof.
  unfold postBids.
  destruct (groupRows rows) as [grouped|e]; [|apply onlyAdds_refl].
  pose proof (onlyAdds_commitLoop grouped ([], [])) as L.
  destruct (commitLoop grouped ([], []) w) as [[[res errs]|e] w'] eqn:E;
    simpl; exact (L _ _ _ E).
Qed.

End OnlyAdds.

(** ** The filters of the list *)

Section Filters.

Import Bids.

Context {host : Host}.

Local Open Scope store_scope.

Lemma nonEmpty_false (s : string) : nonEmpty s = false -> s = EmptyString.
Proof. destruct s; [reflexivity|discriminate]. Qed.

Lemma orUndefined_idem (s : option string) :
  orUndefined (orUndefined s) = orUndefined s.
Proof.
  destruct s as [x|]; [|reflexivity]. simpl.
  destruct (nonEmpty x) eqn:N; [|reflexivity]. simpl. now rewrite N.
Qed.

(** The list route reads its filters through [normalQuery] only. *)
Lemma getBids_normalQuery (req : Request) (w : World) :
  getBids req w =
  getBids {| user := user req; params_id := params_id req;
             query := normalQuery (query req); body := body req |} w.
Proof.
  unfold getBids, normalQuery. cbn [query q_status q_search q_createdFrom q_createdTo].
  rewrite !orUndefined_idem.
  assert (S : trim match orUndefined (option_map trim (q_search (query req))) with
                   | Some x => x
                   | None => EmptyString
                   end
              = trim match q_search (query req) with
                     | Some x => x
                     | None => EmptyString
                     end).
  { destruct (q_search (query req)) as [x|]; [|reflexivity]. simpl.
    destruct (nonEmpty (trim x)) eqn:N.
    - apply trim_idem.
    - now rewrite (nonEmpty_false _ N). }
  rewrite S. reflexivity.
Qed.

(** X15. Blank filters are no filters.  Two list requests of the same caller
    whose filters agree once the blanks are taken out (an empty status,
    search or date bound counting as absent, and the search text without
    the white space around it) run the same query and get the same answer. *)
Theorem blank_filters_are_no_filters (req req' : Request) (w : World) :
  user req = user req' ->
  normalQuery (query req) = normalQuery (query req') ->
  getBids req w = getBids req' w.
Proof.
  intros U Q.
  rewrite (getBids_normalQuery req), (getBids_normalQuery req'), U, Q.
  reflexivity.
Qed.

End Filters.

(** ** The bid editor *)

Section EditorFacts.

Lemma filterIndexed_all {A} (p : A -> nat -> bool) (k : nat) (l : list A) :
  (forall x n, (k <= n)%nat -> p x n = true) ->
  Editor.filterIndexed p k l = l.
Proof.
  revert k. induction l as [|x l IH]; intros k H; [reflexivity|].
  cbn [Editor.filterIndexed]. rewrite (H x k) by lia.
  f_equal. apply IH. intros y n Hn. apply H. lia.
Qed.

(** Filtering out one index drops the row at that place and no other. *)
Lemma filterIndexed_drop {A} (l : list A) (k n : nat) :
  Editor.filterIndexed (fun _ idx => negb (Z.of_nat idx =? Z.of_nat (k + n))) k l
  = (firstn n l ++ skipn (S n) l)%list.
Proof.
  revert k n. induction l as [|x l IH]; intros k n.
  - now destruct n.
  - cbn [Editor.filterIndexed]. destruct n as [|n].
    + replace (k + 0)%nat with k by lia. rewrite Z.eqb_refl. cbn [negb].
      cbn [firstn skipn app].
      apply filterIndexed_all. intros y m Hm.
      apply negb_true_iff, Z.eqb_neq. lia.
    + assert (E : (Z.of_nat k =? Z.of_nat (k + S n)) = false)
        by (apply Z.eqb_neq; lia).
      rewrite E. cbn [negb firstn skipn app]. f_equal.
      replace (k + S n)%nat with (S k + n)%nat by lia. apply IH.
Qed.

(** X16. Removing a row of the scope table.  [removeScopeRow] drops the row
    at the given index and keeps the others in order; an index that is not
    one of the table leaves it as it is; and removing the row that
    [addScopeRow] has just appended gives back the table. *)
Theorem removeScopeRow_drops_one_row (scopes : list Editor.Scope) :
  (forall n : nat,
     Editor.removeScopeRow (Z.of_nat n) scopes
     = (firstn n scopes ++ skipn (S n) scopes)%list)
  /\ (forall i : Z,
        i < 0 \/ Z.of_nat (List.length scopes) <= i ->
        Editor.removeScopeRow i scopes = scopes)
  /\ Editor.removeScopeRow (Z.of_nat (List.length scopes))
       (Editor.addScopeRow scopes)
     = scopes.
Proof.
  assert (D : forall (l : list Editor.Scope) (n : nat),
             Editor.removeScopeRow (Z.of_nat n) l
             = (firstn n l ++ skipn (S n) l)%list).
  { intros l n. unfold Editor.removeScopeRow.
    exact (filterIndexed_drop l 0 n). }
  split; [exact (D scopes)|split].
  - intros i [Neg|Big].
    + unfold Editor.removeScopeRow. apply filterIndexed_all.
      intros x n _. apply negb_true_iff, Z.eqb_neq. lia.
    + replace i with (Z.of_nat (Z.to_nat i)) by lia. rewrite D.
      rewrite firstn_all2 by lia. rewrite skipn_all2 by lia.
      apply app_nil_r.
  - rewrite D. unfold Editor.addScopeRow.
    rewrite firstn_app, firstn_all, Nat.sub_diag. cbn [firstn].
    rewrite skipn_all2 by (rewrite length_app; simpl; lia).
    now rewrite !app_nil_r.
Qed.

(** X17. The two date helpers of the editor round-trip the value of a date
    field: a text of ten characters (the form YYYY-MM-DD of a date input),
    or an empty field, put on the wire by [inputToISO] and read back by
    [dateToInput], is the text itself. *)
Theorem date_field_round_trip (v : string) :
  String.length v = 10%nat \/ v = EmptyString ->
  Editor.dateToInput (Editor.inputToISO v) = v.
Proof.
  intros [L| ->]; [|reflexivity].
  do 10 (destruct v as [|? v]; [discriminate|]).
  destruct v; [reflexivity|discriminate].
Qed.

Lemma date_field_round_trip_witness :
  Editor.dateToInput (Editor.inputToISO "2024-03-05") = "2024-03-05".
Proof.
  exact (date_field_round_trip "2024-03-05" (or_introl eq_refl)).
Defined.

End EditorFacts.

(** ** What an imported bid carries *)

Section ImportedBids.

Import Importer.

Context {host : Host}.

Local Open Scope store_scope.

Lemma newBidRow_fields (d : Db) (data : BidData) (b : Bid) :
  newBidRow d data = Ret b ->
  projectName b = d_projectName data
  /\ dateArg "proposalDate" (d_proposalDate data) = Ret (proposalDate b)
  /\ dateArg "dueDate" (d_dueDate data) = Ret (dueDate b)
  /\ dateArg "followUpOn" (d_followUpOn data) = Ret (followUpOn b).
Proof.
  unfold newBidRow, andThen.
  destruct (intArg "clientCompanyId" (d_clientCompanyId data)); [|discriminate].
  destruct (optIntArg "contactId" (d_contactId data)); [|discriminate].
  destruct (dateArg "proposalDate" (d_proposalDate data)); [|discriminate].
  destruct (dateArg "dueDate" (d_dueDate data)); [|discriminate].
  destruct (dateArg "followUpOn" (d_followUpOn data)); [|discriminate].
  intros U.
  repeat match type of U with
         | match ?x with _ => _ end = _ => destruct x; try discriminate
         end.
  all: inversion U; repeat split.
Qed.

Lemma dateArg_some (field : string) (d : Date) (t : option Z) :
  dateArg field (Some d) = Ret t -> t <> None.
Proof. destruct d; simpl; intros H; inversion H. discriminate. Qed.

(** The groups bear the project name of a kept row. *)
Lemma groupRows_named (rows : list Row) :
  Forall (fun kg => nonEmpty (g_projectName (snd kg)) = true
                    /\ trim (g_projectName (snd kg)) = g_projectName (snd kg))
         (grouping rows).
Proof.
  rewrite Forall_forall. intros [k g] H. simpl.
  apply entry_is_lookup in H. rewrite assoc_groupRows in H.
  destruct (rowsOf k rows) as [|first rest] eqn:R; [discriminate|].
  inversion H; subst g. unfold groupOf. cbn [g_projectName].
  split; [|apply cell_trimmed].
  assert (I : In first (rowsOf k rows)) by (rewrite R; now left).
  unfold rowsOf in I. apply filter_In in I. destruct I as [_ F].
  unfold filedUnder, keyOf in F.
  destruct (nonEmpty (cellOf (r_projectName first))); [reflexivity|].
  discriminate.
Qed.

Lemma dated_commitGroup (g : Group) :
  nonEmpty (g_projectName g) = true ->
  trim (g_projectName g) = g_projectName g ->
  respects (bidsFrom namedAndDated) (commitGroup g).
Proof.
  intros Ne Tr.
  pose proof (bidsFrom_refl namedAndDated) as Rr.
  pose proof (bidsFrom_trans namedAndDated) as Rt.
  open_commitGroup g.
  destruct (dateOf (g_proposalDate g)) as [p|];
    [destruct (dateOf (g_dueDate g)) as [d|]|];
    try (now apply respects_throw).
  apply respects_bind; [exact Rt| |].
  { apply bidsFrom_of_keepsBids, keepsBids_company_findFirst. }
  intros found. apply respects_bind; [exact Rt| |].
  { apply bidsFrom_of_keepsBids.
    destruct found; [apply keepsBids_ret | apply keepsBids_company_create]. }
  intros company. apply respects_bind; [exact Rt| |].
  { apply bidsFrom_of_keepsBids.
    destruct (g_contactName g) as [name|]; [|apply keepsBids_ret].
    apply keepsBids_bind; [apply keepsBids_contact_findFirst|].
    intros [c|]; [apply keepsBids_ret|].
    apply keepsBids_bind; [apply keepsBids_contact_create|].
    intros c. apply keepsBids_ret. }
  intros contact. rewrite scopeCreates_ret, bind_lift_ret. cbv beta.
  apply respects_bind; [exact Rt| |].
  2:{ intros created. now apply respects_ret. }
  intros w o w' H. pose proof (bid_create_adds _ _ _ _ H) as A.
  destruct o as [[b rows]|e].
  - destruct A as (N & _ & B & _). intros x Hx. rewrite B in Hx.
    apply in_app_or in Hx. destruct Hx as [Hx|[Hx|[]]]; [now left|right].
    subst x. apply newBidRow_fields in N. cbn in N.
    destruct N as (Pn & Pp & Pd & Pf).
    unfold namedAndDated. rewrite Pn.
    split; [exact Ne|]. split; [exact Tr|].
    split; [exact (dateArg_some _ _ _ Pp)|].
    split; [exact (dateArg_some _ _ _ Pd)|].
    now inversion Pf.
  - rewrite A. apply bidsFrom_refl.
Qed.

Lemma dated_commitLoop (groups : Grouped) acc :
  Forall (fun kg => nonEmpty (g_projectName (snd kg)) = true
                    /\ trim (g_projectName (snd kg)) = g_projectName (snd kg))
         groups ->
  respects (bidsFrom namedAndDated) (commitLoop groups acc).
Proof.
  pose proof (bidsFrom_refl namedAndDated) as Rr.
  pose proof (bidsFrom_trans namedAndDated) as Rt.
  intros F. revert acc. induction F as [|kg groups [Ne Tr] _ IH]; intros acc; simpl.
  - now apply respects_ret.
  - apply respects_bind; [exact Rt| |exact IH].
    unfold commitOne. apply respects_tryCatch; [exact Rt| |].
    + apply respects_bind; [exact Rt|now apply dated_commitGroup|].
      intros b. now apply respects_ret.
    + intros e. now apply respects_ret.
Qed.

(** X18. Every bid a bulk import writes has a project name that is not
    empty and carries no white space around it, a proposal date and a due
    date, and no follow-up date. *)
Theorem imported_bids_are_named_and_dated (rows : list Row) (w : World) :
  bidsFrom namedAndDated (db w) (db (snd (postBids (Some rows) w))).
Proof.
  unfold postBids.
  destruct (groupRows rows) as [grouped|e] eqn:G; [|apply bidsFrom_refl].
  apply groupRows_grouping in G. subst grouped.
  pose proof (dated_commitLoop (grouping rows) ([], [])
                (groupRows_named rows)) as L.
  destruct (commitLoop (grouping rows) ([], []) w) as [[[res errs]|e] w'] eqn:E;
    simpl; exact (L _ _ _ E).
Qed.

(** *** Contacts *)

Lemma keepsContactsUnique_refl (d : Db) : keepsContactsUnique d d.
Proof. intros H. exact H. Qed.

Lemma keepsContactsUnique_trans (d1 d2 d3 : Db) :
  keepsContactsUnique d1 d2 -> keepsContactsUnique d2 d3 ->
  keepsContactsUnique d1 d3.
Proof. intros H12 H23 H. exact (H23 (H12 H)). Qed.

Lemma keepsContactsUnique_same (d d' : Db) :
  contacts d' = contacts d -> keepsContactsUnique d d'.
Proof. intros E H. unfold contactKeys. now rewrite E. Qed.

Lemma find_none_contact (name : string) (cid : Z) (l : list Contact) :
  find (fun c => String.eqb (contact_name c) name
                 && (contact_companyId c =? cid)) l = None ->
  ~ In (name, cid) (map (fun c => (contact_name c, contact_companyId c)) l).
Proof.
  intros F H. apply in_map_iff in H. destruct H as (c & E & I).
  pose proof (find_none _ _ F c I) as N. simpl in N.
  inversion E as [[En Ec]]. rewrite En, Ec in N.
  now rewrite String.eqb_refl, Z.eqb_refl in N.
Qed.

(** The contact upsert: a contact is created only when the company has none
    of that name. *)
Lemma contact_upsert_unique (name : string) (cid : Z) :
  respects keepsContactsUnique
    (c <- contact_findFirst name cid ;;
     match c with
     | Some c => ret (Some c)
     | None => c <- contact_create name cid ;; ret (Some c)
     end).
Proof.
  intros w o w'. unfold contact_findFirst. rewrite bind_query.
  destruct (find (fun c => String.eqb (contact_name c) name
                           && (contact_companyId c =? cid))
                 (contacts (db w))) as [c|] eqn:F.
  - unfold ret. intros H. inversion H. apply keepsContactsUnique_refl.
  - unfold contact_create. rewrite bind_query. cbn [db calls].
    unfold contactCreate, andThen.
    destruct (requireCompany (db w) cid).
    + unfold ret. intros H. inversion H. cbn [db]. intros N.
      unfold contactKeys. cbn [contacts withContacts]. rewrite map_app.
      apply NoDup_app; [exact N | repeat constructor; intros [] |].
      intros x Hx [Hk|[]]. subst x. cbn in Hx.
      exact (find_none_contact _ _ _ F Hx).
    + intros H. inversion H. apply keepsContactsUnique_refl.
Qed.

Lemma unique_contacts_commitGroup (g : Group) :
  respects keepsContactsUnique (commitGroup g).
Proof.
  pose proof keepsContactsUnique_refl as Rr.
  pose proof keepsContactsUnique_trans as Rt.
  open_commitGroup g.
  destruct (dateOf (g_proposalDate g)) as [p|];
    [destruct (dateOf (g_dueDate g)) as [d|]|];
    try (now apply respects_throw).
  apply respects_bind; [exact Rt| |].
  { apply respects_query; [exact Rr|]. intros d0 a d' H. inversion H. apply Rr. }
  intros found. apply respects_bind; [exact Rt| |].
  { destruct found; [now apply respects_ret|].
    apply respects_query; [exact Rr|]. intros d0 a d' H.
    unfold companyCreate in H. inversion H.
    now apply keepsContactsUnique_same. }
  intros company. apply respects_bind; [exact Rt| |].
  { destruct (g_contactName g) as [name|]; [|now apply respects_ret].
    apply contact_upsert_unique. }
  intros contact. rewrite scopeCreates_ret, bind_lift_ret. cbv beta.
  apply respects_bind; [exact Rt| |intros; now apply respects_ret].
  apply respects_query; [exact Rr|]. intros d0 a d'. unfold bidCreate, andThen.
  destruct (newBidRow d0 _); [|discriminate]. intros H. inversion H.
  now apply keepsContactsUnique_same.
Qed.

Lemma unique_contacts_commitLoop (groups : Grouped) acc :
  respects keepsContactsUnique (commitLoop groups acc).
Proof.
  pose proof keepsContactsUnique_refl as Rr.
  pose proof keepsContactsUnique_trans as Rt.
  revert acc. induction groups as [|kg groups IH]; intros acc; simpl.
  - now apply respects_ret.
  - apply respects_bind; [exact Rt| |exact IH].
    unfold commitOne. apply respects_tryCatch; [exact Rt| |].
    + apply respects_bind; [exact Rt|apply unique_contacts_commitGroup|].
      intros b. now apply respects_ret.
    + intros e. now apply respects_ret.
Qed.

(** X19. The import gives no company two contacts of the same name: if the
    pairs of contact name and company are all different before an upload,
    they are after it.  A group that names a contact is attached to the
    contact of that name its company has, and a contact is created only
    when there is none; a group that names no contact creates none. *)
Theorem import_keeps_contacts_unique (rows : list Row) (w : World) :
  NoDup (contactKeys (db w)) ->
  NoDup (contactKeys (db (snd (postBids (Some rows) w)))).
Proof.
  unfold postBids.
  destruct (groupRows rows) as [grouped|e]; [|auto].
  pose proof (unique_contacts_commitLoop grouped ([], [])) as L.
  destruct (commitLoop grouped ([], []) w) as [[[res errs]|e] w'] eqn:E;
    simpl; exact (L _ _ _ E).
Qed.

End ImportedBids.

(** ** The statements above at sample inputs *)

Section Instances.

Import Samples.

Lemma import_company_names_witness :
  NoDup (companyNames (db oneBid))
  /\ NoDup (companyNames
              (db (snd (Importer.postBids (host := host) (Some mixedRows) oneBid)))).
Proof.
  assert (N : NoDup (companyNames (db oneBid))).
  { repeat constructor. intros []. }
  split; [exact N|].
  exact (import_keeps_company_names_unique (host := host) mixedRows oneBid N).
Defined.

Lemma delete_witness :
  fst (Bids.deleteBid deleteFirst oneBid) = End 204
  /\ bids (db (snd (Bids.deleteBid deleteFirst oneBid))) = []
  /\ scopes (db (snd (Bids.deleteBid deleteFirst oneBid))) = []
  /\ companies (db (snd (Bids.deleteBid deleteFirst oneBid))) = [acme].
Proof.
  pose proof (delete_removes_bid_and_dependents deleteFirst oneBid 1 eq_refl)
    as H.
  cbv zeta in H. destruct H as (R & B & S & _ & _ & _ & C & _).
  split; [exact R|split; [exact B|split; [exact S|exact C]]].
Defined.

Lemma grouping_collects_witness :
  Importer.groupRows elevationRows = Ret [("Roof||Acme", elevatedGroup)]
  /\ assoc "Roof||Acme" [("Roof||Acme", elevatedGroup)]
     = match Importer.rowsOf "Roof||Acme" elevationRows with
       | [] => None
       | first :: rest => Some (Importer.groupOf first rest)
       end.
Proof.
  assert (G : Importer.groupRows elevationRows
              = Ret [("Roof||Acme", elevatedGroup)]) by reflexivity.
  split; [exact G|].
  exact (grouping_collects_rows elevationRows _ "Roof||Acme" G).
Defined.

Lemma grouping_keys_witness :
  Importer.groupRows collidingRows
  = Ret (Importer.grouping collidingRows)
  /\ NoDup (map fst (Importer.grouping collidingRows)).
Proof.
  assert (G : Importer.groupRows collidingRows
              = Ret (Importer.grouping collidingRows)) by reflexivity.
  split; [exact G|].
  exact (proj1 (grouping_keys collidingRows _ G)).
Defined.

Lemma discarded_rows_witness :
  Importer.groupRows blankRows = Ret (Importer.grouping blankRows)
  /\ filter Importer.kept blankRows
     = [importRow "Roof" "Acme" "2024-03-05" "05/03/2024" "active" "Tear-off" "100";
        importRow "Roof" "Acme" "2024-03-05" "05/03/2024" "active" "Gutters" "300"]
  /\ Importer.postBids (host := host) (Some blankRows) fresh
     = Importer.postBids (host := host)
         (Some (filter Importer.kept blankRows)) fresh.
Proof.
  assert (G : Importer.groupRows blankRows
              = Ret (Importer.grouping blankRows)) by reflexivity.
  split; [exact G|split; [reflexivity|]].
  exact (discarded_rows_leave_no_trace (host := host) blankRows _ fresh G).
Defined.

Lemma blank_filters_witness :
  Bids.getBids (host := host) listBlank oneBid
  = Bids.getBids (host := host) listAll oneBid.
Proof.
  exact (blank_filters_are_no_filters (host := host) listBlank listAll oneBid
           eq_refl eq_refl).
Defined.

Lemma import_contacts_witness :
  NoDup (contactKeys (db fresh))
  /\ NoDup (contactKeys
              (db (snd (Importer.postBids (host := host) (Some contactRows) fresh)))).
Proof.
  assert (N : NoDup (contactKeys (db fresh))) by constructor.
  split; [exact N|].
  exact (import_keeps_contacts_unique (host := host) contactRows fresh N).
Defined.

End Instances.
